(** * acode-treesitter: grammar packages, language handles and the facade

    A shallow embedding of [src/language.js], [src/manager.js],
    [src/api.js] and [src/main.js].  JavaScript objects that are mutated through references
    (the [Language] handles) live in a store indexed by locations; [async]
    functions are sequenced in a state-and-exception monad, every [await]
    being a bind.  What the plugin obtains from its host (the Acode
    filesystem, the HTTP bridge, the JSON decoder, the web-tree-sitter
    engine, the typed-array constructor) is collected in one record [Host]
    and every definition is parametric in it. *)

From stdpp Require Import gmap strings list fin_maps pretty.
From Stdlib Require Import Ascii.

Open Scope string_scope.
Open Scope list_scope.
Set Warnings "-register-all".

(** ** JavaScript values, errors and completions *)

Inductive JsError :=
  | Error (message : string)
  | TypeError (message : string)
  | ReferenceError (message : string)
  | Rejected (message : string).

Definition message_of (e : JsError) : string :=
  match e with
  | Error m | TypeError m | ReferenceError m | Rejected m => m
  end.

Inductive result (A : Type) :=
  | Ok (a : A)
  | Throw (e : JsError).
Arguments Ok {A} a.
Arguments Throw {A} e.

Definition is_ok {A} (r : result A) : bool :=
  match r with Ok _ => true | Throw _ => false end.

Inductive Json :=
  | JNull
  | JBool (b : bool)
  | JNumber (z : Z)
  | JString (s : string)
  | JArray (l : list Json)
  | JObject (m : list (string * Json)).

(** The values that reach the [#wasm] slot of a handle: nothing, a URL
    string, a binary buffer, or a plain object from file names to such
    values.  The list of an [JsObject] is the object's own enumerable
    properties in enumeration order. *)
Inductive JsWasm :=
  | JsUndefined
  | JsString (s : string)
  | JsArrayBuffer (b : list Byte.byte)
  | JsObject (m : list (string * JsWasm)).

Definition truthy (v : JsWasm) : bool :=
  match v with
  | JsUndefined => false
  | JsString s => negb (String.eqb s "")
  | _ => true
  end.

(** ** The state-and-exception monad *)

Section Monad.
Context {S : Type}.

Definition M (A : Type) : Type := S -> result A * S.

Definition ret {A} (a : A) : M A := fun s => (Ok a, s).
Definition throw {A} (e : JsError) : M A := fun s => (Throw e, s).
Definition bind {A B} (m : M A) (k : A -> M B) : M B :=
  fun s => match m s with
           | (Ok a, s') => k a s'
           | (Throw e, s') => (Throw e, s')
           end.
Definition try_catch {A} (m : M A) (handler : JsError -> M A) : M A :=
  fun s => match m s with
           | (Ok a, s') => (Ok a, s')
           | (Throw e, s') => handler e s'
           end.
Definition get : M S := fun s => (Ok s, s).
Definition gets {A} (f : S -> A) : M A := fun s => (Ok (f s), s).
Definition modify (f : S -> S) : M unit := fun s => (Ok tt, f s).

(** [for (const x of xs) body(x)], stopping at the first exception. *)
Fixpoint for_of {A} (xs : list A) (body : A -> M unit) : M unit :=
  match xs with
  | [] => ret tt
  | x :: xs' => bind (body x) (fun _ => for_of xs' body)
  end.
End Monad.
Arguments M : clear implicits.

(** A computation on a component of the state, run on the whole state. *)
Definition zoom {S T A} (proj : T -> S) (inj : S -> T -> T) (m : M S A) : M T A :=
  fun t => let '(r, s') := m (proj t) in (r, inj s' t).

Notation "'let!' x ':=' m 'in' k" := (bind m (fun x => k))
  (at level 20, x pattern, m at level 100, k at level 200).
Notation "m ';;;' k" := (bind m (fun _ => k))
  (at level 100, k at level 200, right associativity).

(** ** Strings as JavaScript uses them *)

Section Strings.
(** [s.startsWith(p)] *)
Definition startsWith (s p : string) : bool := String.prefix p s.

(** [s.endsWith(suf)] *)
Fixpoint endsWith (s suf : string) : bool :=
  String.eqb s suf ||
  match s with
  | EmptyString => false
  | String _ s' => endsWith s' suf
  end.

(** [s.substring(n)] and [s.slice(n)] for [0 <= n] *)
Fixpoint substring_from (n : nat) (s : string) : string :=
  match n, s with
  | O, _ => s
  | S n', String _ s' => substring_from n' s'
  | S _, EmptyString => EmptyString
  end.

(** [s.slice(0, -1)] *)
Fixpoint slice_but_last (s : string) : string :=
  match s with
  | EmptyString => EmptyString
  | String c EmptyString => EmptyString
  | String c s' => String c (slice_but_last s')
  end.

(** [s.replace(/suf$/, '')] for a literal [suf] *)
Fixpoint replace_suffix (s suf : string) : string :=
  if String.eqb s suf then EmptyString
  else match s with
       | EmptyString => EmptyString
       | String c s' => String c (replace_suffix s' suf)
       end.

(** [s.split('/')] without its empty pieces *)
Fixpoint split_on (sep : Ascii.ascii) (s acc : string) : list string :=
  match s with
  | EmptyString => if String.eqb acc "" then [] else [String.rev acc]
  | String c s' =>
      if Ascii.eqb c sep
      then (if String.eqb acc "" then [] else [String.rev acc]) ++ split_on sep s' ""
      else split_on sep s' (String c acc)
  end.
Definition segments (s : string) : list string := split_on "/"%char s "".

Definition join_with (sep : string) (l : list string) : string :=
  String.concat sep l.
End Strings.

(** ** The host: everything the plugin does not implement itself *)

Definition path := list string.

Inductive FileType := TypeJson | TypeBinary | TypeUtf8.

Inductive FileData :=
  | DataJson (j : Json)
  | DataBinary (b : list Byte.byte)
  | DataText (s : string).

(** The host's files: a tree of directories. *)
Inductive node :=
  | File (d : FileData)
  | Dir (children : gmap string node).

Inductive FsOp :=
  | OpCreateDirectory (p : path)
  | OpCreateFile (p : path)
  | OpDelete (p : path)
  | OpLsDir (p : path)
  | OpReadFile (p : path).

Record Response := { status : Z; data : string }.

Record ManifestEntry := { entry_path : option string }.

(** The manifest after [JSON.parse]; a field is [None] when the document
    lacks it. *)
Record GlobalMeta := {
  files : option (list ManifestEntry);
  prefix : option string;
  version : option string
}.

(** What [Promise.race([fs(url).readFile(type), timeout])] settles to. *)
Inductive ReadOutcome :=
  | Resolved (content : option FileData)
  | ReadFailed
  | TimedOut.

(** A compiled grammar as the engine hands it out: [grammar_ref] is the
    identity of the object, [grammar_module] the bytes it was compiled from. *)
Record Grammar := { grammar_ref : nat; grammar_module : list Byte.byte }.

Record Host := {
  DATA_STORAGE : path;
  (* the filesystem operations that reject, whatever the state *)
  fs_rejects : FsOp -> bool;
  fs_read_json : FileData -> option Json;
  fs_read_text : FileData -> option string;
  (* cordova.plugin.http.get; None when the bridge rejects *)
  http_get : string -> option Response;
  (* JSON.parse of the manifest body; None when it throws *)
  JSON_parse : string -> option GlobalMeta;
  (* the read of a remote file raced against the 30 s timer *)
  remote_read : string -> FileType -> ReadOutcome;
  (* new Uint8Array(v).buffer *)
  Uint8Array_buffer : JsWasm -> list Byte.byte;
  (* whether Parser.Language.load resolves on these bytes *)
  engine_accepts : list Byte.byte -> bool;
  (* whether Parser.init resolves *)
  engine_init : bool;
  (* whether parser.setLanguage accepts the grammar *)
  engine_compatible : Grammar -> bool
}.

(** * language.js *)

Module Language.

Definition loc := nat.

(** The private fields of a [Language] instance. *)
Record Instance := {
  name : string;
  config : Json;
  wasm : JsWasm;
  queries : gmap string string;
  grammar : option Grammar;
  extensions : option (gmap string loc)
}.

Definition set_wasm (v : JsWasm) (o : Instance) : Instance :=
  {| name := name o; config := config o; wasm := v; queries := queries o;
     grammar := grammar o; extensions := extensions o |}.
Definition set_grammar (g : option Grammar) (o : Instance) : Instance :=
  {| name := name o; config := config o; wasm := wasm o; queries := queries o;
     grammar := g; extensions := extensions o |}.
Definition set_extensions (e : option (gmap string loc)) (o : Instance) : Instance :=
  {| name := name o; config := config o; wasm := wasm o; queries := queries o;
     grammar := grammar o; extensions := e |}.

(** The store of handles and the engine's loader: [loads] counts the calls
    of [Parser.Language.load] made so far. *)
Record Store := {
  heap : gmap loc Instance;
  loads : nat
}.

Definition set_heap (f : gmap loc Instance -> gmap loc Instance) (s : Store) : Store :=
  {| heap := f (heap s); loads := loads s |}.

Section WithHost.
Variable host : Host.

(** [this], for a method called on the handle at [l]. *)
Definition this (l : loc) : M Store Instance :=
  fun s => match heap s !! l with
           | Some o => (Ok o, s)
           | None => (Throw (TypeError "Cannot read private member from an object whose class did not declare it"), s)
           end.

Definition update (l : loc) (f : Instance -> Instance) : M Store unit :=
  modify (set_heap (alter f l)).

Definition alloc (o : Instance) : M Store loc :=
  fun s => let l := fresh (dom (heap s)) in
           (Ok l, set_heap (insert l o) s).

Definition _toArrayBuffer (v : JsWasm) : JsWasm :=
  match v with
  | JsArrayBuffer b => JsArrayBuffer b
  | _ => JsArrayBuffer (Uint8Array_buffer host v)
  end.

Definition bytes_of (v : JsWasm) : list Byte.byte :=
  match v with
  | JsArrayBuffer b => b
  | _ => []
  end.

(** [#getNameFromFilename] *)
Definition getNameFromFilename (filename : string) : string :=
  let nameWithoutExt := replace_suffix filename ".wasm" in
  if startsWith nameWithoutExt "tree-sitter-"
  then substring_from (String.length "tree-sitter-") nameWithoutExt
  else nameWithoutExt.

(** The own enumerable properties of a value, as [Object.keys] and
    [for ... in] list them; [None] where [Object.keys] throws. *)
Definition own_properties (v : JsWasm) : option (list (string * JsWasm)) :=
  match v with
  | JsUndefined => None
  | JsString s =>
      Some (imap (fun i c => (pretty i, JsString (String c EmptyString)))
                 (String.list_ascii_of_string s))
  | JsArrayBuffer _ => Some []
  | JsObject m => Some m
  end.

(** [v[key]] *)
Definition property (v : JsWasm) (key : string) : JsWasm :=
  match own_properties v with
  | Some m =>
      match List.find (fun kv => String.eqb (fst kv) key) m with
      | Some kv => snd kv
      | None => JsUndefined
      end
  | None => JsUndefined
  end.

(** [obj[key] = value] on the plain object [#extensions]. *)
Definition assign (key : string) (value : loc) (obj : gmap string loc) : gmap string loc :=
  if String.eqb key "__proto__" then obj else <[key := value]> obj.

(** The constructor, with the procedure it runs for a handle that is
    not an extension left open. *)
Definition construct (initializeExtensions : loc -> M Store unit)
    (name : string) (config : Json) (wasm : JsWasm)
    (queries : gmap string string) (isExtension : bool) : M Store loc :=
  let! l := alloc {| name := name; config := config; wasm := wasm;
                     queries := queries; grammar := None;
                     extensions := if isExtension then None else Some ∅ |} in
  if negb isExtension
  then initializeExtensions l ;;; ret l
  else ret l.

(** The body of the [for (const filename in wasm)] loop of
    [#initializeExtensions], given the constructor it calls. *)
Definition scan_module
    (new_Language : string -> Json -> JsWasm -> gmap string string -> bool -> M Store loc)
    (l : loc) (wasm : JsWasm) (mainFile : option string) (filename : string)
    : M Store unit :=
  if bool_decide (Some filename = mainFile) then ret tt
  else
    let extName := getNameFromFilename filename in
    let wasmBinary := _toArrayBuffer (property wasm filename) in
    let! o := this l in
    let! e := new_Language extName (config o) wasmBinary (queries o) true in
    match extensions o with
    | Some exts => update l (set_extensions (Some (assign extName e exts)))
    | None => throw (TypeError "Cannot set properties of null")
    end.

(** [Object.keys(this.#wasm).find(...)] *)
Definition find_mainFile (name : string) (props : list (string * JsWasm)) : option string :=
  List.find (fun filename => String.eqb (getNameFromFilename filename) name)
            (fst <$> props).

(** [#initializeExtensions], given the constructor it calls. *)
Definition initializeExtensions_with
    (new_Language : string -> Json -> JsWasm -> gmap string string -> bool -> M Store loc)
    (l : loc) : M Store unit :=
  let! o := this l in
  let wasm := wasm o in
  match own_properties wasm with
  | None => throw (TypeError "Cannot convert undefined or null to object")
  | Some props =>
      let mainFile := find_mainFile (name o) props in
      (match mainFile with
       | Some f =>
           if negb (String.eqb f "")
           then update l (set_wasm (_toArrayBuffer (property wasm f)))
           else ret tt
       | None => ret tt
       end) ;;;
      for_of (fst <$> props) (scan_module new_Language l wasm mainFile)
  end.

(** [new Language(name, config, wasm, queries, isExtension)].  The
    constructor that [#initializeExtensions] calls is always given
    [isExtension = true], so one unfolding of the recursion is all of it. *)
Definition new_Language : string -> Json -> JsWasm -> gmap string string -> bool -> M Store loc :=
  construct (initializeExtensions_with
               (construct (fun _ => throw (Error "unreachable")))).

(** The instance the constructor builds for one non-primary module. *)
Definition extension_instance (cfg : Json) (q : gmap string string)
    (filename : string) (content : JsWasm) : Instance :=
  {| name := getNameFromFilename filename; config := cfg;
     wasm := _toArrayBuffer content; queries := q;
     grammar := None; extensions := None |}.

(** The slot [#wasm] after [#initializeExtensions] on the map [m]. *)
Definition resolved_module (n : string) (m : list (string * JsWasm)) : JsWasm :=
  match find_mainFile n m with
  | Some f =>
      if negb (String.eqb f "")
      then _toArrayBuffer (property (JsObject m) f)
      else JsObject m
  | None => JsObject m
  end.

Definition isExtension (o : Instance) : bool :=
  match extensions o with None => true | Some _ => false end.

Definition isLoaded (o : Instance) : bool :=
  match grammar o with None => false | Some _ => true end.


(** Modelled from the spec: [Parser.Language.load(buffer)] belongs to the
    parsing engine (web-tree-sitter), which is not among the sources.  Every
    call is counted; a call that resolves hands out a new grammar object. *)
Definition Parser_Language_load (buffer : list Byte.byte) : M Store Grammar :=
  fun s =>
    let s' := {| heap := heap s; loads := S (loads s) |} in
    if engine_accepts host buffer
    then (Ok {| grammar_ref := loads s; grammar_module := buffer |}, s')
    else (Throw (Rejected "Language.load failed"), s').

(** [loadGrammar()] *)
Definition loadGrammar (l : loc) : M Store Grammar :=
  let! o := this l in
  match grammar o with
  | Some g => ret g
  | None =>
      if negb (truthy (wasm o))
      then throw (Error ("No WASM file available for language '" +:+ name o +:+ "'"))
      else
        try_catch
          (let wasmBuffer := _toArrayBuffer (wasm o) in
           let! g := Parser_Language_load (bytes_of wasmBuffer) in
           update l (set_grammar (Some g)) ;;;
           ret g)
          (fun error =>
             throw (Error ("Failed to load grammar for language '" +:+ name o +:+ "': "
                           +:+ message_of error)))
  end.

(** [unloadGrammar()] *)
Definition unloadGrammar (l : loc) : M Store bool :=
  this l ;;;
  update l (set_grammar None) ;;;
  ret true.

End WithHost.
End Language.

(** * manager.js *)

(** Modelled from the spec: the npm package [minimatch], which
    [Manager._download] imports, is not among the sources.  The spec
    (4.1) gives it "standard single-segment glob semantics ([*] does not
    cross path separators)" and makes a pattern without [*] match by
    equality; every other character of a pattern stands for itself. *)
Fixpoint glob (pattern : list ascii) : list ascii -> bool :=
  match pattern with
  | [] => fun path => match path with [] => true | _ :: _ => false end
  | c :: pattern' =>
      if Ascii.eqb c "*"
      then fix star (path : list ascii) : bool :=
             glob pattern' path ||
             match path with
             | [] => false
             | d :: path' => negb (Ascii.eqb d "/") && star path'
             end
      else fun path =>
             match path with
             | [] => false
             | d :: path' => Ascii.eqb c d && glob pattern' path'
             end
  end.

Definition minimatch (path pattern : string) : bool :=
  glob (String.list_ascii_of_string pattern) (String.list_ascii_of_string path).

(** The world the manager acts on: the host's files, the handles created so
    far, and the requests sent over the network. *)
Record World := {
  fs : node;
  store : Language.Store;
  requests : list string
}.

Definition set_fs (f : node -> node) (w : World) : World :=
  {| fs := f (fs w); store := store w; requests := requests w |}.
Definition set_store (s : Language.Store) (w : World) : World :=
  {| fs := fs w; store := s; requests := requests w |}.
Definition log_request (url : string) (w : World) : World :=
  {| fs := fs w; store := store w; requests := requests w ++ [url] |}.

(** ** The host's [fs] and [Url] modules *)

(** Modelled from the spec: [Url] is a utility of the host application
    (spec, section 1, out of scope) and is not among the sources; it is
    modelled from the way the sources use it.  A local location is the list
    of its segments, a remote one a string. *)
Module Url.
(** [Url.join(dir, name)] on a local path *)
Definition join (dir : path) (name : string) : path := dir ++ segments name.

Definition trim_leading (s : string) : string :=
  match s with
  | String c s' => if Ascii.eqb c "/" then s' else s
  | EmptyString => s
  end.
Definition trim_trailing (s : string) : string :=
  if endsWith s "/" then slice_but_last s else s.

(** [Url.join(base, part, ...)] on a remote URL *)
Definition join_url (base : string) (parts : list string) : string :=
  foldl (fun url part =>
           if String.eqb part "" then url
           else trim_trailing url +:+ "/" +:+ trim_leading part)
        base parts.

Definition basename (url : string) : string := List.last (segments url) "".

Fixpoint extname_from (s : string) : option string :=
  match s with
  | EmptyString => None
  | String c s' =>
      match extname_from s' with
      | Some e => Some e
      | None => if Ascii.eqb c "." then Some s else None
      end
  end.
Definition extname (filename : string) : string :=
  default "" (extname_from filename).

Definition of_path (p : path) : string := "/" +:+ join_with "/" p.
End Url.

Record DirEntry := { entry_name : string; entry_url : path; isDirectory : bool }.

(** Modelled from the spec: [fs] is the filesystem of the host application
    (spec, sections 1 and 6), not among the sources.  Its state is the tree
    of directories; an operation rejects when the host says so
    ([fs_rejects]) or when the tree does not allow it, and [exists()] never
    rejects. *)
Module Fs.
(** The node at a path below [n]. *)
Fixpoint lookup_path (p : path) (n : node) : option node :=
  match p with
  | [] => Some n
  | x :: p' =>
      match n with
      | Dir children => children !! x ≫= lookup_path p'
      | File _ => None
      end
  end.

(** Replace, add or remove the entry at a path whose parent is a directory. *)
Fixpoint alter_path (f : option node -> option node) (p : path) (n : node) : node :=
  match p, n with
  | [], _ => n
  | [x], Dir children => Dir (partial_alter f x children)
  | x :: p', Dir children => Dir (alter (alter_path f p') x children)
  | _ :: _, File _ => n
  end.

Definition dirname (p : path) : path := removelast p.

Definition to_entry (dir : path) (kv : string * node) : DirEntry :=
  {| entry_name := fst kv;
     entry_url := dir ++ [fst kv];
     isDirectory := match snd kv with Dir _ => true | File _ => false end |}.

Section WithHost.
Variable host : Host.

Definition reject {A} (what : string) : M World A := throw (Rejected what).

Definition exists_ (p : path) : M World bool :=
  gets (fun w => bool_decide (is_Some (lookup_path p (fs w)))).

Definition createDirectory (parent : path) (name : string) : M World unit :=
  let target := Url.join parent name in
  let! w := get in
  if fs_rejects host (OpCreateDirectory target) then reject "createDirectory"
  else match lookup_path (dirname target) (fs w), lookup_path target (fs w) with
       | Some (Dir _), None => modify (set_fs (alter_path (fun _ => Some (Dir ∅)) target))
       | Some (Dir _), Some (Dir _) => ret tt
       | _, _ => reject "createDirectory"
       end.

Definition createFile (folder : path) (name : string) (content : FileData) : M World unit :=
  let target := Url.join folder name in
  let! w := get in
  if fs_rejects host (OpCreateFile target) then reject "createFile"
  else match lookup_path (dirname target) (fs w), lookup_path target (fs w) with
       | Some (Dir _), Some (Dir _) => reject "createFile"
       | Some (Dir _), _ => modify (set_fs (alter_path (fun _ => Some (File content)) target))
       | _, _ => reject "createFile"
       end.

(** [delete()] removes the entry and, for a directory, all below it. *)
Definition delete_ (p : path) : M World unit :=
  let! w := get in
  if fs_rejects host (OpDelete p) then reject "delete"
  else match p, lookup_path p (fs w) with
       | _ :: _, Some _ => modify (set_fs (alter_path (fun _ => None) p))
       | _, _ => reject "delete"
       end.

Definition lsDir (p : path) : M World (list DirEntry) :=
  let! w := get in
  if fs_rejects host (OpLsDir p) then reject "lsDir"
  else match lookup_path p (fs w) with
       | Some (Dir children) => ret (to_entry p <$> map_to_list children)
       | _ => reject "lsDir"
       end.

Definition readFile_json (p : path) : M World Json :=
  let! w := get in
  if fs_rejects host (OpReadFile p) then reject "readFile"
  else match lookup_path p (fs w) with
       | Some (File d) =>
           match fs_read_json host d with
           | Some j => ret j
           | None => reject "readFile"
           end
       | _ => reject "readFile"
       end.

Definition readFile_utf8 (p : path) : M World string :=
  let! w := get in
  if fs_rejects host (OpReadFile p) then reject "readFile"
  else match lookup_path p (fs w) with
       | Some (File d) =>
           match fs_read_text host d with
           | Some s => ret s
           | None => reject "readFile"
           end
       | _ => reject "readFile"
       end.
End WithHost.
End Fs.

Record WantedItem := { pattern : string; dest : path }.

Module Manager.
Section WithHost.
Variable host : Host.

Definition CDN_URL : string := "https://unpkg.com/".

(** [Api.TREE_SITTER_PATH] *)
Definition TREE_SITTER_PATH : path := DATA_STORAGE host ++ ["tree-sitter"].

(** [buildUrl(lang, path = '', version = 'latest')] *)
Definition buildUrl (lang path : string) (version : option string) : string :=
  Url.join_url CDN_URL
    ["tree-sitter-" +:+ lang +:+ "@" +:+ default "latest" version; path].

(** [_fetch(url)] *)
Definition _fetch (url : string) : M World Response :=
  modify (log_request url) ;;;
  match http_get host url with
  | Some response => ret response
  | None => throw (Rejected "http.get")
  end.

(** [_getFileType(ext)] *)
Definition _getFileType (ext : string) : FileType :=
  if String.eqb ext ".json" then TypeJson
  else if String.eqb ext ".wasm" then TypeBinary
  else TypeUtf8.

(** [_downloadFile(url, folder)] *)
Definition _downloadFile (url : string) (folder : path) : M World path :=
  let filename := Url.basename url in
  try_catch
    (let ext := Url.extname filename in
     let type := _getFileType ext in
     modify (log_request url) ;;;
     let! content :=
       match remote_read host url type with
       | Resolved (Some content) => ret content
       | Resolved None => throw (Error ("Empty content from " +:+ url))
       | ReadFailed => throw (Rejected "readFile")
       | TimedOut => throw (Error "Download timeout")
       end in
     let filePath := Url.join folder filename in
     Fs.createFile host folder filename content ;;;
     ret filePath)
    (fun error => throw error).

(** The test of the [filter] callback in [_download], on a path already
    stripped of the manifest's prefix. *)
Definition matches (path pattern : string) : bool :=
  let isDirectory := endsWith pattern "/" in
  if isDirectory then startsWith path pattern
  else minimatch path pattern.

(** [globalMeta.files.filter(file => ...)]: the callback throws on an
    entry without a path and on a manifest without a prefix. *)
Fixpoint filter_files (prefix : option string) (pattern : string)
    (files : list ManifestEntry) : result (list (ManifestEntry * string)) :=
  match files with
  | [] => Ok []
  | file :: files' =>
      match entry_path file, prefix with
      | Some file_path, Some prefix_ =>
          let path := substring_from (String.length prefix_) file_path in
          match filter_files prefix pattern files' with
          | Ok rest => Ok (if matches path pattern then (file, file_path) :: rest else rest)
          | Throw e => Throw e
          end
      | None, _ => Throw (TypeError "Cannot read properties of undefined (reading 'slice')")
      | _, None => Throw (TypeError "Cannot read properties of undefined (reading 'length')")
      end
  end.

Definition of_result {S A} (r : result A) : M S A := fun s => (r, s).

(** [_download(lang, items)] *)
Definition _download (lang : string) (items : list WantedItem) : M World bool :=
  try_catch
    (let metaUrl := buildUrl lang "" None +:+ "?meta" in
     let! response := _fetch metaUrl in
     if negb (status response =? 200)%Z
     then throw (Error "failed while fetch metadata, code:")
     else
       match JSON_parse host (data response) with
       | None => throw (Error "Unexpected token in JSON")
       | Some globalMeta =>
           match files globalMeta with
           | None => throw (ReferenceError "baseUrl is not defined")
           | Some meta_files =>
               for_of items (fun item =>
                 let pattern := pattern item in
                 let isDirectory := endsWith pattern "/" in
                 let! dest :=
                   if isDirectory
                   then Fs.createDirectory host (dest item) (slice_but_last pattern) ;;;
                        ret (Url.join (dest item) pattern)
                   else ret (dest item) in
                 let! matchingFiles :=
                   of_result (filter_files (prefix globalMeta) pattern meta_files) in
                 let baseUrl := buildUrl lang "" (version globalMeta) in
                 for_of matchingFiles (fun file =>
                   let fileUrl := Url.join_url baseUrl [snd file] in
                   _downloadFile fileUrl dest ;;; ret tt)) ;;;
               ret true
           end
       end)
    (fun error => throw error).

(** The package directory of [lang], [Url.join(Api.TREE_SITTER_PATH, lang)]. *)
Definition langPath (lang : string) : path := Url.join TREE_SITTER_PATH lang.

(** [installLanguage(lang)] *)
Definition installLanguage (lang : string) : M World bool :=
  let langPath := Url.join TREE_SITTER_PATH lang in
  let! present := Fs.exists_ langPath in
  if present then ret false
  else
    try_catch
      (Fs.createDirectory host TREE_SITTER_PATH lang ;;;
       let filesToDownload :=
         [ {| pattern := "tree-sitter.json"; dest := langPath |};
           {| pattern := "*.wasm"; dest := langPath |};
           {| pattern := "queries/"; dest := langPath |} ] in
       let! success := _download lang filesToDownload in
       ret success)
      (fun error =>
         (* Clean up any partial downloads *)
         let! present := Fs.exists_ langPath in
         (if present then Fs.delete_ host langPath else ret tt) ;;;
         throw error).

(** [uninstallLanguage(lang)]: the handler names [error], which is not
    bound there (the clause binds [e]). *)
Definition uninstallLanguage (lang : string) : M World bool :=
  let langPath := Url.join TREE_SITTER_PATH lang in
  let! present := Fs.exists_ langPath in
  if negb present then ret false
  else
    try_catch
      (Fs.delete_ host langPath ;;; ret true)
      (fun e => throw (ReferenceError "error is not defined")).

(** [isLanguageAvailable(lang)] *)
Definition isLanguageAvailable (lang : string) : M World bool :=
  let langPath := Url.join TREE_SITTER_PATH lang in
  Fs.exists_ langPath.

(** [getAvailableLanguages()] *)
Definition getAvailableLanguages : M World (list string) :=
  try_catch
    (let! dirs := Fs.lsDir host TREE_SITTER_PATH in
     ret (entry_name <$> List.filter isDirectory dirs))
    (fun error => ret []).

Definition in_store {A} (m : M Language.Store A) : M World A :=
  zoom store set_store m.

(** The body of [Promise.all(queryFiles.map(async file => ...))], one
    file after the other. *)
Fixpoint read_queries (queryFiles : list DirEntry) (queries : gmap string string)
    : M World (gmap string string) :=
  match queryFiles with
  | [] => ret queries
  | file :: rest =>
      if negb (isDirectory file) && endsWith (entry_name file) ".scm"
      then let! content := Fs.readFile_utf8 host (entry_url file) in
           read_queries rest (<[entry_name file := content]> queries)
      else read_queries rest queries
  end.

(** [getLanguage(lang)]; [None] is [undefined]. *)
Definition getLanguage (lang : string) : M World (option Language.loc) :=
  let langPath := Url.join TREE_SITTER_PATH lang in
  let! present := Fs.exists_ langPath in
  if negb present then ret None
  else
    try_catch
      (let! files := Fs.lsDir host langPath in
       match List.find (fun file => String.eqb (entry_name file) "tree-sitter.json") files with
       | None => throw (Error ("Missing tree-sitter.json for language " +:+ lang))
       | Some configFile =>
           let! config := Fs.readFile_json host (entry_url configFile) in
           let wasmFiles :=
             JsObject ((fun file => (entry_name file, JsString (Url.of_path (entry_url file))))
                       <$> List.filter (fun file => endsWith (entry_name file) ".wasm") files) in
           let queriesDir :=
             List.find (fun file => String.eqb (entry_name file) "queries" && isDirectory file)
                       files in
           let! queries :=
             match queriesDir with
             | None => ret ∅
             | Some dir =>
                 let! queryFiles := Fs.lsDir host (entry_url dir) in
                 read_queries queryFiles ∅
             end in
           let! language :=
             in_store (Language.new_Language host lang config wasmFiles queries false) in
           ret (Some language)
       end)
      (fun error =>
         throw (Error ("Failed to load language " +:+ lang +:+ ": " +:+ message_of error))).
End WithHost.
End Manager.

(** * api.js *)

Record Parser := { parser_ref : nat; parser_language : option Grammar }.

(** What [parser.parse(code)] returns, left uninterpreted. *)
Inductive Tree := SyntaxTree (language : option Grammar) (code : string).

Inductive Event :=
  | initialized_event
  | error_event (error : JsError)
  | language_installed (lang : string)
  | language_uninstalled (lang : string).

(** [#initPromise]: still running, or settled with the value [#initialize]
    returned ([None] is [undefined]). *)
Inductive InitPromise :=
  | Pending
  | Settled (value : option bool).

(** The argument a caller gives for a destructured options parameter. *)
Inductive Options :=
  | opt_undefined
  | opt_null
  | opt_object (forceReload : option bool).

Record Api := {
  parser : gmap string Parser;
  initialized : bool;
  initPromise : InitPromise;
  languages : gmap string Language.loc;
  api_config : Json;
  events : list Event;
  parsers_created : nat
}.

Record System := { world : World; api : Api }.

Definition set_world (w : World) (s : System) : System := {| world := w; api := api s |}.
Definition set_api (f : Api -> Api) (s : System) : System := {| world := world s; api := f (api s) |}.

Module TreeSitterAPI.
Section WithHost.
Variable host : Host.

Definition in_world {A} (m : M World A) : M System A := zoom world set_world m.
Definition in_store {A} (m : M Language.Store A) : M System A :=
  in_world (Manager.in_store m).

Definition emit (ev : Event) : M System unit :=
  modify (set_api (fun a =>
    {| parser := parser a; initialized := initialized a; initPromise := initPromise a;
       languages := languages a; api_config := api_config a;
       events := events a ++ [ev]; parsers_created := parsers_created a |})).

Definition set_config (c : Json) : M System unit :=
  modify (set_api (fun a =>
    {| parser := parser a; initialized := initialized a; initPromise := initPromise a;
       languages := languages a; api_config := c;
       events := events a; parsers_created := parsers_created a |})).

Definition set_initialized (b : bool) : M System unit :=
  modify (set_api (fun a =>
    {| parser := parser a; initialized := b; initPromise := initPromise a;
       languages := languages a; api_config := api_config a;
       events := events a; parsers_created := parsers_created a |})).

Definition set_initPromise (p : InitPromise) : M System unit :=
  modify (set_api (fun a =>
    {| parser := parser a; initialized := initialized a; initPromise := p;
       languages := languages a; api_config := api_config a;
       events := events a; parsers_created := parsers_created a |})).

Definition set_languages (f : gmap string Language.loc -> gmap string Language.loc)
    : M System unit :=
  modify (set_api (fun a =>
    {| parser := parser a; initialized := initialized a; initPromise := initPromise a;
       languages := f (languages a); api_config := api_config a;
       events := events a; parsers_created := parsers_created a |})).

Definition set_parser (f : gmap string Parser -> gmap string Parser) : M System unit :=
  modify (set_api (fun a =>
    {| parser := f (parser a); initialized := initialized a; initPromise := initPromise a;
       languages := languages a; api_config := api_config a;
       events := events a; parsers_created := parsers_created a |})).

Definition TREE_SITTER_PATH : path := DATA_STORAGE host ++ ["tree-sitter"].
Definition CONFIG_PATH : path := TREE_SITTER_PATH ++ ["config.json"].

(** [#loadConfig()] *)
Definition loadConfig : M System Json :=
  try_catch
    (let! present := in_world (Fs.exists_ CONFIG_PATH) in
     (if present
      then let! c := in_world (Fs.readFile_json host CONFIG_PATH) in set_config c
      else ret tt) ;;;
     gets (fun s => api_config (api s)))
    (fun error => ret (JObject [])).

(** [#initialize()] *)
Definition initialize : M System (option bool) :=
  let! isInitialized := gets (fun s => initialized (api s)) in
  if isInitialized then ret None
  else
    try_catch
      ((if engine_init host then ret tt else throw (Rejected "Parser.init")) ;;;
       let! c := loadConfig in
       set_config c ;;;
       set_initialized true ;;;
       emit initialized_event ;;;
       ret (Some true))
      (fun error => emit (error_event error) ;;; ret (Some false)).

(** [waitForInit()]: awaiting [#initPromise] lets the initialization the
    constructor started run to its end. *)
Definition waitForInit : M System (option bool) :=
  let! p := gets (fun s => initPromise (api s)) in
  match p with
  | Settled v => ret v
  | Pending =>
      let! v := initialize in
      set_initPromise (Settled v) ;;;
      ret v
  end.

(** [getLanguage(lang, options = {})]; [None] is [null]. *)
Definition getLanguage (lang : string) (forceReload : bool)
    : M System (option Language.loc) :=
  waitForInit ;;;
  if String.eqb lang "" then throw (Error "Language identifier is required")
  else
    let! cached := gets (fun s => languages (api s) !! lang) in
    match (if forceReload then None else cached) with
    | Some language => ret (Some language)
    | None =>
        try_catch
          (let! language := in_world (Manager.getLanguage host lang) in
           match language with
           | None => ret None
           | Some language =>
               set_languages (insert lang language) ;;;
               ret (Some language)
           end)
          (fun error => emit (error_event error) ;;; ret None)
    end.

(** Modelled from the spec: [new Parser()] of the parsing engine, not among
    the sources; every parser it makes is a new object, and it throws when
    the engine could not be initialized. *)
Definition new_Parser : M System Parser :=
  if engine_init host
  then fun s =>
         let a := api s in
         (Ok {| parser_ref := parsers_created a; parser_language := None |},
          set_api (fun a =>
            {| parser := parser a; initialized := initialized a;
               initPromise := initPromise a; languages := languages a;
               api_config := api_config a; events := events a;
               parsers_created := S (parsers_created a) |}) s)
  else throw (TypeError "Parser is not initialized").

(** Modelled from the spec: [parser.setLanguage(grammar)] of the parsing
    engine, which binds the parser to the grammar or rejects it. *)
Definition setLanguage (p : Parser) (g : Grammar) : M System Parser :=
  if engine_compatible host g
  then ret {| parser_ref := parser_ref p; parser_language := Some g |}
  else throw (Rejected "Incompatible language version").

(** [createParser(lang)] *)
Definition createParser (lang : string) : M System Parser :=
  waitForInit ;;;
  let! language := getLanguage lang false in
  let! grammar :=
    match language with
    | None => ret None
    | Some l => let! o := in_store (Language.this l) in ret (Language.grammar o)
    end in
  match grammar with
  | None =>
      throw (Error ("Cannot create parser: Language " +:+ lang
                    +:+ " not available or grammar not loaded"))
  | Some grammar =>
      let! parser := new_Parser in
      let! parser := setLanguage parser grammar in
      ret parser
  end.

(** The property names every plain object inherits. *)
Definition Object_prototype : list string :=
  ["constructor"; "__proto__"; "hasOwnProperty"; "isPrototypeOf";
   "propertyIsEnumerable"; "toLocaleString"; "toString"; "valueOf";
   "__defineGetter__"; "__defineSetter__"; "__lookupGetter__"; "__lookupSetter__"].

Definition parser_parse (p : Parser) (code : string) : Tree :=
  SyntaxTree (parser_language p) code.

(** [parse(lang, code, { forceReload = false })].  The cache [#parser]
    is a plain object: a key it inherits is found by the lookup and is not a
    parser.  The assignment [this.#parser[lang] = parser] is taken for a
    [lang] other than [__proto__]. *)
Definition parse (lang code : string) (options : Options) : M System Tree :=
  match options with
  | opt_undefined =>
      throw (TypeError "Cannot destructure property 'forceReload' of 'undefined' as it is undefined.")
  | opt_null =>
      throw (TypeError "Cannot destructure property 'forceReload' of 'object null' as it is null.")
  | opt_object forceReload =>
      let forceReload := default false forceReload in
      waitForInit ;;;
      try_catch
        (let! cached := gets (fun s => parser (api s) !! lang) in
         match (if forceReload then None else cached) with
         | Some p => ret (parser_parse p code)
         | None =>
             if negb forceReload && bool_decide (lang ∈ Object_prototype)
             then throw (TypeError "this.#parser[lang].parse is not a function")
             else
               let! p := createParser lang in
               set_parser (insert lang p) ;;;
               ret (parser_parse p code)
         end)
        (fun error => emit (error_event error) ;;; throw error)
  end.

(** [getAvailableLanguages()] *)
Definition getAvailableLanguages : M System (list string) :=
  in_world (Manager.getAvailableLanguages host).

(** [isLanguageAvailable(lang)] *)
Definition isLanguageAvailable (lang : string) : M System bool :=
  in_world (Manager.isLanguageAvailable host lang).

(** [installLanguage(lang)] *)
Definition installLanguage (lang : string) : M System bool :=
  try_catch
    (let! success := in_world (Manager.installLanguage host lang) in
     (if success then emit (language_installed lang) else ret tt) ;;;
     ret true)
    (fun error => emit (error_event error) ;;; throw error).

(** [uninstallLanguage(lang)] *)
Definition uninstallLanguage (lang : string) : M System bool :=
  try_catch
    (set_languages (delete lang) ;;;
     let! success := in_world (Manager.uninstallLanguage host lang) in
     (if success then emit (language_uninstalled lang) else ret tt) ;;;
     ret success)
    (fun error => emit (error_event error) ;;; ret false).
End WithHost.
End TreeSitterAPI.

(** * main.js *)

(** What [acode.define] has registered under a module name. *)
Inductive Defined :=
  | defined_Api
  | defined_Language
  | defined_undefined.

(** The plugin in its host: the system of the facade and the host's table
    of defined modules. *)
Record Plugin := { system : System; modules : gmap string Defined }.

Definition set_system (sys : System) (pl : Plugin) : Plugin :=
  {| system := sys; modules := modules pl |}.

Module AcodeTreeSitter.
(** [Url.dirname] and [Url.basename] on a local path. *)
Definition dirname (p : path) : path := removelast p.
Definition basename (p : path) : string := List.last p "".

Section WithHost.
Variable host : Host.

Definition in_system {A} (m : M System A) : M Plugin A := zoom system set_system m.
Definition in_fs {A} (m : M World A) : M Plugin A :=
  in_system (TreeSitterAPI.in_world m).

(** [acode.define(name, module)] *)
Definition define (name : string) (module_ : Defined) : M Plugin unit :=
  modify (fun pl => {| system := system pl; modules := <[name := module_]> (modules pl) |}).

(** [init()] *)
Definition init : M Plugin unit :=
  (* init main folder *)
  let! present := in_fs (Fs.exists_ (TreeSitterAPI.TREE_SITTER_PATH host)) in
  (if negb present
   then in_fs (Fs.createDirectory host (dirname (TreeSitterAPI.TREE_SITTER_PATH host))
                 (basename (TreeSitterAPI.TREE_SITTER_PATH host)))
   else ret tt) ;;;
  (* init config file *)
  let! present := in_fs (Fs.exists_ (TreeSitterAPI.CONFIG_PATH host)) in
  (if negb present
   then in_fs (Fs.createFile host (dirname (TreeSitterAPI.CONFIG_PATH host))
                 (basename (TreeSitterAPI.CONFIG_PATH host)) (DataText "{}"))
   else ret tt) ;;;
  define "tree-sitter" defined_Api ;;;
  define "@tree-sitter/language" defined_Language.

(** [destroy()]; [confirmation] is what the host's [confirm] dialog, asked
    with the number of installed packages, resolves to. *)
Definition destroy (confirmation : bool) : M Plugin unit :=
  let! available := in_system (TreeSitterAPI.getAvailableLanguages host) in
  (if confirmation
   then in_fs (Fs.delete_ host (TreeSitterAPI.TREE_SITTER_PATH host))
   else ret tt) ;;;
  define "tree-sitter" defined_undefined ;;;
  define "@tree-sitter/language" defined_undefined.
End WithHost.
End AcodeTreeSitter.

(** ** Auxiliary notions for the statements *)

(** Two locations neither of which lies at or below the other. *)
Definition apart (p q : path) : Prop := ~ p `prefix_of` q /\ ~ q `prefix_of` p.

(** The entry at [p] is as in the tree [n]. *)
Definition entry_is (p : path) (n : node) (w : World) : Prop :=
  Fs.lookup_path p (fs w) = Fs.lookup_path p n.

(** There is an entry at [p]. *)
Definition entry_exists (p : path) (w : World) : Prop :=
  is_Some (Fs.lookup_path p (fs w)).

(** A property of the world that does not look at the filesystem. *)
Definition fs_blind (I : World -> Prop) : Prop := forall f w, I w -> I (set_fs f w).

(** Nothing but the filesystem may have changed with respect to [w0]. *)
Definition only_fs_changed (w0 w : World) : Prop :=
  store w = store w0 /\ requests w = requests w0.

(** Every file of [w] is in [w'] with its content, and every entry of [w]
    still exists in [w']. *)
Definition keeps_entries (w w' : World) : Prop :=
  (forall p d, Fs.lookup_path p (fs w) = Some (File d) ->
               Fs.lookup_path p (fs w') = Some (File d)) /\
  (forall p, entry_exists p w -> entry_exists p w').

(** * Concrete hosts and worlds *)

Module Examples.
(** A manifest with the three wanted kinds of file and one unwanted. *)
Definition manifest : GlobalMeta :=
  {| files := Some [ {| entry_path := Some "/tree-sitter.json" |};
                     {| entry_path := Some "/tree-sitter-json.wasm" |};
                     {| entry_path := Some "/queries/highlights.scm" |};
                     {| entry_path := Some "/src/parser.c" |} ];
     prefix := Some "/";
     version := Some "1.0.0" |}.

Definition read_ok (url : string) (type : FileType) : ReadOutcome :=
  match type with
  | TypeJson => Resolved (Some (DataJson (JObject [])))
  | TypeBinary => Resolved (Some (DataBinary [Byte.x00; Byte.x61; Byte.x73; Byte.x6d]))
  | TypeUtf8 => Resolved (Some (DataText "(identifier) @variable"))
  end.

(** A host on which everything works. *)
Definition host_ok : Host :=
  {| DATA_STORAGE := ["data"];
     fs_rejects := fun _ => false;
     fs_read_json := fun d => match d with DataJson j => Some j | _ => None end;
     fs_read_text := fun d => match d with DataText t => Some t | _ => None end;
     http_get := fun url => Some {| status := 200; data := "{}" |};
     JSON_parse := fun _ => Some manifest;
     remote_read := read_ok;
     Uint8Array_buffer := fun _ => [];
     engine_accepts := fun _ => true;
     engine_init := true;
     engine_compatible := fun _ => true |}.

(** The same host, except that the download of the [.wasm] module, the
    second file of an install, times out. *)
Definition host_timeout : Host :=
  {| DATA_STORAGE := ["data"];
     fs_rejects := fun _ => false;
     fs_read_json := fs_read_json host_ok;
     fs_read_text := fs_read_text host_ok;
     http_get := http_get host_ok;
     JSON_parse := JSON_parse host_ok;
     remote_read := fun url type =>
       match type with TypeBinary => TimedOut | _ => read_ok url type end;
     Uint8Array_buffer := fun _ => [];
     engine_accepts := fun _ => true;
     engine_init := true;
     engine_compatible := fun _ => true |}.

(** The same host, except that the filesystem refuses every [delete()]. *)
Definition host_readonly : Host :=
  {| DATA_STORAGE := ["data"];
     fs_rejects := fun op => match op with OpDelete _ => true | _ => false end;
     fs_read_json := fs_read_json host_ok;
     fs_read_text := fs_read_text host_ok;
     http_get := http_get host_ok;
     JSON_parse := JSON_parse host_ok;
     remote_read := read_ok;
     Uint8Array_buffer := fun _ => [];
     engine_accepts := fun _ => true;
     engine_init := true;
     engine_compatible := fun _ => true |}.

Definition empty_store : Language.Store :=
  {| Language.heap := ∅; Language.loads := 0 |}.

Definition world_of (tree_sitter : gmap string node) : World :=
  {| fs := Dir {[ "data" := Dir {[ "tree-sitter" := Dir tree_sitter ]} ]};
     store := empty_store;
     requests := [] |}.

(** No package installed. *)
Definition world_empty : World := world_of ∅.

(** A package directory for [foo] with nothing in it. *)
Definition world_bare : World := world_of {[ "foo" := Dir ∅ ]}.

(** The package [json], installed in full. *)
Definition package_json : node :=
  Dir {[ "tree-sitter.json" := File (DataJson (JObject []));
         "tree-sitter-json.wasm" := File (DataBinary [Byte.x00; Byte.x61; Byte.x73; Byte.x6d]);
         "queries" := Dir {[ "highlights.scm" := File (DataText "(identifier) @variable") ]} ]}.
Definition world_json : World := world_of {[ "json" := package_json ]}.

(** The facade as its constructor leaves it. *)
Definition api_new : Api :=
  {| parser := ∅; initialized := false; initPromise := Pending; languages := ∅;
     api_config := JObject []; events := []; parsers_created := 0 |}.

Definition system_of (w : World) : System := {| world := w; api := api_new |}.

(** A store with one unloaded handle for a module of four bytes. *)
Definition module_bytes : list Byte.byte := [Byte.x00; Byte.x61; Byte.x73; Byte.x6d].
Definition handle_json : Language.Instance :=
  {| Language.name := "json"; Language.config := JObject [];
     Language.wasm := JsArrayBuffer module_bytes; Language.queries := ∅;
     Language.grammar := None; Language.extensions := Some ∅ |}.
Definition store_json : Language.Store :=
  {| Language.heap := {[ 0 := handle_json ]}; Language.loads := 0 |}.

(** The handle of [json] once loaded, and a facade that has it cached. *)
Definition grammar_json : Grammar :=
  {| grammar_ref := 0; grammar_module := module_bytes |}.
Definition handle_loaded : Language.Instance :=
  Language.set_grammar (Some grammar_json) handle_json.
Definition system_loaded : System :=
  {| world := {| fs := fs world_json;
                 store := {| Language.heap := {[ 0 := handle_loaded ]};
                             Language.loads := 1 |};
                 requests := [] |};
     api := {| parser := ∅; initialized := false; initPromise := Pending;
               languages := {[ "json" := 0 ]};
               api_config := JObject []; events := []; parsers_created := 0 |} |}.

(** A facade that has the handle of [json] cached, its grammar not loaded. *)
Definition system_cached : System :=
  {| world := {| fs := fs world_json; store := store_json; requests := [] |};
     api := {| parser := ∅; initialized := false; initPromise := Pending;
               languages := {[ "json" := 0 ]};
               api_config := JObject []; events := []; parsers_created := 0 |} |}.

(** A store with the handle [foo] and its extension [foo-bar], both with a
    grammar loaded. *)
Definition grammar_foo : Grammar := {| grammar_ref := 0; grammar_module := [Byte.x01] |}.
Definition grammar_foo_bar : Grammar := {| grammar_ref := 1; grammar_module := [Byte.x02] |}.
Definition handle_foo_bar : Language.Instance :=
  {| Language.name := "foo-bar"; Language.config := JObject [];
     Language.wasm := JsArrayBuffer [Byte.x02]; Language.queries := ∅;
     Language.grammar := Some grammar_foo_bar; Language.extensions := None |}.
Definition handle_foo : Language.Instance :=
  {| Language.name := "foo"; Language.config := JObject [];
     Language.wasm := JsArrayBuffer [Byte.x01]; Language.queries := ∅;
     Language.grammar := Some grammar_foo;
     Language.extensions := Some {[ "foo-bar" := 1 ]} |}.
Definition store_foo : Language.Store :=
  {| Language.heap := {[ 0 := handle_foo; 1 := handle_foo_bar ]}; Language.loads := 2 |}.



(** A store directory that holds a configuration file and no package. *)
Definition config_json : Json := JObject [("highlight", JBool true)].
Definition world_configured : World :=
  world_of {[ "config.json" := File (DataJson config_json) ]}.

(** The plugin before [init()], in a host that has the data directory only. *)
Definition world_fresh : World :=
  {| fs := Dir {[ "data" := Dir ∅ ]}; store := empty_store; requests := [] |}.
Definition plugin_of (w : World) : Plugin :=
  {| system := system_of w; modules := ∅ |}.

(** A host whose manifest lists no file at all. *)
Definition host_empty_manifest : Host :=
  {| DATA_STORAGE := ["data"];
     fs_rejects := fun _ => false;
     fs_read_json := fs_read_json host_ok;
     fs_read_text := fs_read_text host_ok;
     http_get := http_get host_ok;
     JSON_parse := fun _ => Some {| files := Some []; prefix := None; version := None |};
     remote_read := read_ok;
     Uint8Array_buffer := fun _ => [];
     engine_accepts := fun _ => true;
     engine_init := true;
     engine_compatible := fun _ => true |}.
End Examples.

(** * Reasoning about computations *)

(** Reduce the redexes left behind by a rewrite under a [bind] or an [if]. *)
Ltac js_step :=
  cbv beta;
  try change (negb true) with false;
  try change (negb false) with true;
  cbv iota beta.


(** [m] run from a state satisfying [P] ends, normally or not, in a state
    and with a completion satisfying [Q]. *)
Definition triple {S A} (P : S -> Prop) (m : M S A) (Q : result A -> S -> Prop) : Prop :=
  forall s, P s -> Q (fst (m s)) (snd (m s)).

(** [m] keeps the invariant [I], however it ends. *)
Definition preserves {S A} (I : S -> Prop) (m : M S A) : Prop :=
  triple I m (fun _ s' => I s').

(** The invariant of the code that never calls the engine's loader: it has
    been called [n] times. *)
Definition loads_are (n : nat) (s : Language.Store) : Prop := Language.loads s = n.
Definition world_loads_are (n : nat) (w : World) : Prop := loads_are n (store w).
Definition system_loads_are (n : nat) (sys : System) : Prop :=
  world_loads_are n (world sys).

(** [m] never throws. *)
Definition total {S A} (m : M S A) : Prop := forall s, is_ok (fst (m s)) = true.

(** What the initialization of the facade leaves alone: the world and the
    two caches. *)
Definition caches_are (w : World) (handles : gmap string Language.loc)
    (parsers : gmap string Parser) (created : nat) (sys : System) : Prop :=
  world sys = w /\ languages (api sys) = handles /\
  parser (api sys) = parsers /\ parsers_created (api sys) = created.

(** The initialization the constructor started has been awaited to its end. *)
Definition init_settled (sys : System) : Prop := initPromise (api sys) <> Pending.

Section Rules.
Context {S : Type}.
Implicit Types (I : S -> Prop).

Lemma preserves_ret {A} I (a : A) : preserves I (ret a).
Proof. intros s Hs. exact Hs. Qed.

Lemma preserves_throw {A} I e : preserves I (@throw S A e).
Proof. intros s Hs. exact Hs. Qed.

Lemma preserves_gets {A} I (f : S -> A) : preserves I (gets f).
Proof. intros s Hs. exact Hs. Qed.

Lemma preserves_get I : preserves I (@get S).
Proof. intros s Hs. exact Hs. Qed.

Lemma preserves_of_result {A} I (r : result A) : preserves I (Manager.of_result r).
Proof. intros s Hs. exact Hs. Qed.

Lemma preserves_modify I (f : S -> S) :
  (forall s, I s -> I (f s)) -> preserves I (modify f).
Proof. intros Hf s Hs. apply Hf, Hs. Qed.

Lemma preserves_bind {A B} I (m : M S A) (k : A -> M S B) :
  preserves I m -> (forall a, preserves I (k a)) -> preserves I (bind m k).
Proof.
  intros Hm Hk s Hs. specialize (Hm s Hs). unfold bind.
  destruct (m s) as [[a|e] s1]; simpl in *.
  - apply Hk, Hm.
  - exact Hm.
Qed.

Lemma preserves_try_catch {A} I (m : M S A) (h : JsError -> M S A) :
  preserves I m -> (forall e, preserves I (h e)) -> preserves I (try_catch m h).
Proof.
  intros Hm Hh s Hs. specialize (Hm s Hs). unfold try_catch.
  destruct (m s) as [[a|e] s1]; simpl in *.
  - exact Hm.
  - apply Hh, Hm.
Qed.

Lemma preserves_for_of {A} I (xs : list A) (body : A -> M S unit) :
  (forall x, preserves I (body x)) -> preserves I (for_of xs body).
Proof.
  intros Hbody. induction xs as [|x xs IH]; simpl.
  - apply preserves_ret.
  - apply preserves_bind; [apply Hbody | intros _; exact IH].
Qed.

Lemma preserves_zoom {T A} (J : T -> Prop) (proj : T -> S) (inj : S -> T -> T)
    I (m : M S A) :
  (forall t, J t -> I (proj t)) ->
  (forall t s', J t -> I s' -> J (inj s' t)) ->
  preserves I m -> preserves J (zoom proj inj m).
Proof.
  intros Hproj Hinj Hm t Ht. unfold zoom.
  specialize (Hm (proj t) (Hproj t Ht)).
  destruct (m (proj t)) as [r s']; simpl in *. apply Hinj; assumption.
Qed.
End Rules.

(** * Strings *)

Module StringFacts.





End StringFacts.

Module NameFacts.
Import Language StringFacts.




End NameFacts.

(** * Properties of language.js *)

Module LanguageFacts.
Import Language.

Lemma this_handle l o s : heap s !! l = Some o -> this l s = (Ok o, s).
Proof. intros H. unfold this. rewrite H. reflexivity. Qed.

Lemma heap_update_eq l f o s :
  heap s !! l = Some o -> heap (set_heap (alter f l) s) !! l = Some (f o).
Proof. intros H. simpl. rewrite lookup_alter_eq, H. reflexivity. Qed.

Lemma heap_update_ne l l' f s :
  l' <> l -> heap (set_heap (alter f l) s) !! l' = heap s !! l'.
Proof. intros H. simpl. apply lookup_alter_ne. congruence. Qed.

(** What [unloadGrammar] does to the store, in one equation. *)
Lemma unloadGrammar_run l o s :
  heap s !! l = Some o ->
  unloadGrammar l s = (Ok true, set_heap (alter (set_grammar None) l) s).
Proof.
  intros H. unfold unloadGrammar, bind. rewrite (this_handle l o s H). reflexivity.
Qed.

(** [loadGrammar] on a handle that holds a grammar: the cached object,
    and nothing else happens. *)
Lemma loadGrammar_cached host l o g s :
  heap s !! l = Some o -> grammar o = Some g ->
  loadGrammar host l s = (Ok g, s).
Proof.
  intros H Hg. unfold loadGrammar, bind. rewrite (this_handle l o s H), Hg. reflexivity.
Qed.

(** [loadGrammar] on an unloaded handle whose module the engine accepts. *)
Lemma loadGrammar_fresh host l o s :
  heap s !! l = Some o -> grammar o = None -> truthy (wasm o) = true ->
  engine_accepts host (bytes_of (_toArrayBuffer host (wasm o))) = true ->
  let g := {| grammar_ref := loads s;
              grammar_module := bytes_of (_toArrayBuffer host (wasm o)) |} in
  loadGrammar host l s =
    (Ok g, set_heap (alter (set_grammar (Some g)) l)
                    {| heap := heap s; loads := S (loads s) |}).
Proof.
  intros H Hg Hw Hacc. unfold loadGrammar, bind.
  rewrite (this_handle l o s H), Hg, Hw. simpl.
  unfold try_catch, bind, Parser_Language_load. rewrite Hacc. reflexivity.
Qed.
End LanguageFacts.

(** C9 -- Frame of [unloadGrammar]: called on a handle [l], it returns
    [true] and writes the compiled-grammar slot of [l] only.  The name,
    config, module content, queries and extensions mapping of [l] keep their
    values, the engine's loader is not called, and every other handle of the
    store, so each nested extension handle with whatever grammar it has
    loaded, is exactly as before. *)
Theorem unloadGrammar_frame (s : Language.Store) (l : Language.loc) (o : Language.Instance) :
  Language.heap s !! l = Some o ->
  exists s' o',
    Language.unloadGrammar l s = (Ok true, s') /\
    Language.heap s' !! l = Some o' /\
    Language.grammar o' = None /\
    Language.name o' = Language.name o /\
    Language.config o' = Language.config o /\
    Language.wasm o' = Language.wasm o /\
    Language.queries o' = Language.queries o /\
    Language.extensions o' = Language.extensions o /\
    Language.loads s' = Language.loads s /\
    (forall l', l' <> l -> Language.heap s' !! l' = Language.heap s !! l') /\
    (forall exts k e,
        Language.extensions o = Some exts -> exts !! k = Some e -> e <> l ->
        Language.heap s' !! e = Language.heap s !! e).
Proof.
  intros Hl.
  exists (Language.set_heap (alter (Language.set_grammar None) l) s),
         (Language.set_grammar None o).
  split; [exact (LanguageFacts.unloadGrammar_run l o s Hl)|].
  split; [exact (LanguageFacts.heap_update_eq l _ o s Hl)|].
  repeat (split; [reflexivity|]).
  split.
  - intros l' Hne. apply LanguageFacts.heap_update_ne, Hne.
  - intros exts k e _ _ Hne. apply LanguageFacts.heap_update_ne, Hne.
Qed.

(** The theorem on the handle [foo]: its extension [foo-bar] keeps the
    grammar it has loaded. *)
Lemma unloadGrammar_frame_witness :
  Language.heap Examples.store_foo !! 0 = Some Examples.handle_foo /\
  exists s',
    Language.unloadGrammar 0 Examples.store_foo = (Ok true, s') /\
    Language.grammar <$> Language.heap s' !! 0 = Some None /\
    Language.heap s' !! 1 = Some Examples.handle_foo_bar.
Proof.
  split; [reflexivity|].
  destruct (unloadGrammar_frame Examples.store_foo 0 Examples.handle_foo eq_refl)
    as (s' & o' & Hrun & Hl & Hg & _ & _ & _ & _ & _ & _ & _ & Hext).
  exists s'. split; [exact Hrun|]. split.
  - etransitivity; [exact (f_equal (fmap Language.grammar) Hl)|].
    simpl. rewrite Hg. reflexivity.
  - etransitivity; [|reflexivity].
    apply (Hext {[ "foo-bar" := 1 ]} "foo-bar" 1); [reflexivity | reflexivity | discriminate].
Defined.


Lemma bind_ok {S A B} (m : M S A) (k : A -> M S B) s a s1 :
  m s = (Ok a, s1) -> bind m k s = k a s1.
Proof. intros H. unfold bind. rewrite H. reflexivity. Qed.

Lemma bind_throw {S A B} (m : M S A) (k : A -> M S B) s e s1 :
  m s = (Throw e, s1) -> bind m k s = (Throw e, s1).
Proof. intros H. unfold bind. rewrite H. reflexivity. Qed.

Module ConstructorFacts.
Import Language.

Section WithHost.
Variable host : Host.

(** With [isExtension = true] the constructor allocates and stops: the
    procedure for scanning extensions is never entered. *)
Lemma construct_extension init n cfg w q s :
  construct init n cfg w q true s =
    (Ok (fresh (dom (heap s))),
     set_heap (insert (fresh (dom (heap s)))
                 {| name := n; config := cfg; wasm := w; queries := q;
                    grammar := None; extensions := None |}) s).
Proof. reflexivity. Qed.

Lemma fresh_unused (s : Store) : heap s !! fresh (dom (heap s)) = None.
Proof. apply not_elem_of_dom, is_fresh. Qed.

Lemma assign_lookup k e exts k' e' :
  assign k e exts !! k' = Some e' ->
  exts !! k' = Some e' \/ (k' = k /\ e' = e).
Proof.
  unfold assign. destruct (String.eqb k "__proto__"); [auto|].
  destruct (decide (k = k')) as [->|Hne].
  - rewrite lookup_insert_eq. intros [= ->]. auto.
  - rewrite lookup_insert_ne by exact Hne. auto.
Qed.

Lemma assign_keeps k e exts k' :
  is_Some (exts !! k') -> is_Some (assign k e exts !! k').
Proof.
  unfold assign. destruct (String.eqb k "__proto__"); [auto|].
  intros H. apply lookup_insert_is_Some'. auto.
Qed.

Lemma assign_adds k e exts :
  k <> "__proto__" -> assign k e exts !! k = Some e.
Proof.
  intros H. unfold assign. apply String.eqb_neq in H. rewrite H.
  apply lookup_insert_eq.
Qed.

(** The loop of [#initializeExtensions] over the file names [ks]. *)
Lemma scan_loop init l wasm mainFile cfg q ks :
  forall s P exts0,
    heap s !! l = Some P ->
    config P = cfg -> queries P = q -> extensions P = Some exts0 ->
    exists s' exts',
      for_of ks (scan_module host (construct init) l wasm mainFile) s = (Ok tt, s') /\
      heap s' !! l = Some (set_extensions (Some exts') P) /\
      loads s' = loads s /\
      (forall l0, l0 <> l -> is_Some (heap s !! l0) -> heap s' !! l0 = heap s !! l0) /\
      (forall f, f ∈ ks -> Some f <> mainFile ->
         exists e, heap s !! e = None /\
                   heap s' !! e = Some (extension_instance host cfg q f (property wasm f))) /\
      (forall k e, exts' !! k = Some e ->
         exts0 !! k = Some e \/
         exists f, f ∈ ks /\ Some f <> mainFile /\ getNameFromFilename f = k /\
                   heap s !! e = None /\
                   heap s' !! e = Some (extension_instance host cfg q f (property wasm f))) /\
      (forall k, is_Some (exts0 !! k) -> is_Some (exts' !! k)) /\
      (forall f, f ∈ ks -> Some f <> mainFile -> getNameFromFilename f <> "__proto__" ->
         is_Some (exts' !! getNameFromFilename f)).
Proof.
  induction ks as [|f ks IH]; intros s P exts0 Hl Hcfg Hq Hexts.
  - exists s, exts0. simpl. split; [reflexivity|].
    split; [rewrite Hl; f_equal; destruct P; unfold set_extensions; simpl in *; congruence|].
    split; [reflexivity|]. split; [auto|].
    split; [intros f Hf; inversion Hf|].
    split; [auto|]. split; [auto|]. intros f Hf; inversion Hf.
  - simpl. unfold bind at 1. unfold scan_module at 1.
    destruct (bool_decide (Some f = mainFile)) eqn:Hmain.
    + apply bool_decide_eq_true in Hmain. simpl.
      destruct (IH s P exts0 Hl Hcfg Hq Hexts)
        as (s' & exts' & Hrun & Hl' & Hloads & Hframe & Hmods & Hmap & Hkeep & Hkeys).
      exists s', exts'. split; [exact Hrun|]. split; [exact Hl'|].
      split; [exact Hloads|]. split; [exact Hframe|].
      split.
      { intros f' Hf' Hne. apply elem_of_cons in Hf' as [->|Hf']; [congruence|].
        apply Hmods; assumption. }
      split.
      { intros k e He. destruct (Hmap k e He) as [?|(f' & Hf' & ?)]; [auto|].
        right. exists f'. split; [apply elem_of_cons; auto | assumption]. }
      split; [exact Hkeep|].
      intros f' Hf' Hne. apply elem_of_cons in Hf' as [->|Hf']; [congruence|].
      apply Hkeys; assumption.
    + apply bool_decide_eq_false in Hmain.
      unfold bind at 1. rewrite (LanguageFacts.this_handle l P s Hl).
      unfold bind at 1. rewrite construct_extension. rewrite Hexts.
      set (e := fresh (dom (heap s))).
      set (ext := {| name := getNameFromFilename f; config := config P;
                     wasm := _toArrayBuffer host (property wasm f);
                     queries := queries P; grammar := None; extensions := None |}).
      assert (Hext : ext = extension_instance host cfg q f (property wasm f)).
      { unfold ext, extension_instance. rewrite Hcfg, Hq. reflexivity. }
      assert (He : heap s !! e = None) by apply fresh_unused.
      assert (Hel : e <> l) by (intros ->; congruence).
      set (exts1 := assign (getNameFromFilename f) e exts0).
      set (s2 := set_heap (alter (set_extensions (Some exts1)) l)
                   (set_heap (insert e ext) s)).
      change (update l (set_extensions (Some exts1)) (set_heap (insert e ext) s))
        with (Ok tt, s2).
      cbv iota beta.
      assert (Hl2 : heap s2 !! l = Some (set_extensions (Some exts1) P)).
      { unfold s2. simpl. rewrite lookup_alter_eq, lookup_insert_ne by exact Hel.
        rewrite Hl. reflexivity. }
      assert (Hother : forall l0, l0 <> l -> l0 <> e -> heap s2 !! l0 = heap s !! l0).
      { intros l0 H1 H2. unfold s2. simpl.
        rewrite lookup_alter_ne by congruence. apply lookup_insert_ne. congruence. }
      assert (He2 : heap s2 !! e = Some ext).
      { unfold s2. simpl. rewrite lookup_alter_ne by congruence. apply lookup_insert_eq. }
      assert (Hnone : forall e', heap s2 !! e' = None -> heap s !! e' = None).
      { intros e' H. destruct (decide (e' = l)) as [->|H1]; [congruence|].
        destruct (decide (e' = e)) as [->|H2]; [congruence|].
        rewrite <- (Hother e' H1 H2). exact H. }
      destruct (IH s2 (set_extensions (Some exts1) P) exts1 Hl2 Hcfg Hq eq_refl)
        as (s' & exts' & Hrun & Hl' & Hloads & Hframe & Hmods & Hmap & Hkeep & Hkeys).
      exists s', exts'. split; [exact Hrun|]. split; [exact Hl'|].
      split; [exact Hloads|].
      split.
      { intros l0 H1 H2.
        assert (l0 <> e) by (intros ->; rewrite He in H2; destruct H2; discriminate).
        rewrite Hframe; [apply Hother; assumption | exact H1 |].
        rewrite Hother by assumption. exact H2. }
      split.
      { intros f' Hf' Hne. apply elem_of_cons in Hf' as [->|Hf'].
        - exists e. split; [exact He|]. rewrite <- Hext.
          rewrite Hframe; [exact He2 | exact Hel | rewrite He2; eauto].
        - destruct (Hmods f' Hf' Hne) as (e' & H1 & H2).
          exists e'. split; [apply Hnone, H1 | exact H2]. }
      split.
      { intros k e0 He0. destruct (Hmap k e0 He0) as [H|(f' & Hf' & H1 & H2 & H3 & H4)].
        - apply assign_lookup in H as [H|[-> ->]]; [auto|].
          right. exists f. split; [apply elem_of_cons; auto|].
          split; [exact Hmain|]. split; [reflexivity|]. split; [exact He|].
          rewrite <- Hext. rewrite Hframe; [exact He2 | exact Hel | rewrite He2; eauto].
        - right. exists f'. split; [apply elem_of_cons; auto|].
          repeat split; try assumption. apply Hnone, H3. }
      split.
      { intros k Hk. apply Hkeep, assign_keeps, Hk. }
      intros f' Hf' Hne Hproto. apply elem_of_cons in Hf' as [->|Hf'].
      * apply Hkeep. unfold exts1. rewrite assign_adds by exact Hproto. eauto.
      * apply Hkeys; assumption.
Qed.

(** The constructor on a module-file map, for a handle that is not an
    extension. *)
Lemma new_Language_object n cfg m q s :
  let l := fresh (dom (heap s)) in
  let mainFile := find_mainFile n m in
  exists s' exts,
    new_Language host n cfg (JsObject m) q false s = (Ok l, s') /\
    heap s' !! l =
      Some {| name := n; config := cfg; wasm := resolved_module host n m; queries := q;
              grammar := None; extensions := Some exts |} /\
    loads s' = loads s /\
    (forall l0, is_Some (heap s !! l0) -> heap s' !! l0 = heap s !! l0) /\
    (forall f, f ∈ m.*1 -> Some f <> mainFile ->
       exists e, e <> l /\ heap s !! e = None /\
         heap s' !! e = Some (extension_instance host cfg q f (property (JsObject m) f))) /\
    (forall k e, exts !! k = Some e ->
       exists f, f ∈ m.*1 /\ Some f <> mainFile /\ getNameFromFilename f = k /\
         e <> l /\ heap s !! e = None /\
         heap s' !! e = Some (extension_instance host cfg q f (property (JsObject m) f))) /\
    (forall f, f ∈ m.*1 -> Some f <> mainFile -> getNameFromFilename f <> "__proto__" ->
       is_Some (exts !! getNameFromFilename f)).
Proof.
  intros l mainFile.
  set (P0 := {| name := n; config := cfg; wasm := JsObject m; queries := q;
                grammar := None; extensions := Some ∅ |}).
  set (s0 := set_heap (insert l P0) s).
  assert (Hl0 : heap s0 !! l = Some P0) by apply lookup_insert_eq.
  assert (Hfresh : heap s !! l = None) by apply fresh_unused.
  (* the state and the instance once the primary module is in place *)
  set (P1 := set_wasm (resolved_module host n m) P0).
  assert (Hmain : exists s1,
             (match mainFile with
              | Some f =>
                  if negb (String.eqb f "")
                  then update l (set_wasm (_toArrayBuffer host (property (JsObject m) f)))
                  else ret tt
              | None => ret tt
              end) s0 = (Ok tt, s1) /\
             heap s1 !! l = Some P1 /\ loads s1 = loads s /\
             (forall l0, l0 <> l -> heap s1 !! l0 = heap s !! l0)).
  { unfold P1, resolved_module. fold mainFile.
    destruct mainFile as [f|]; [destruct (negb (String.eqb f ""))|].
    - eexists. split; [reflexivity|]. split.
      + simpl. rewrite lookup_alter_eq, lookup_insert_eq. reflexivity.
      + split; [reflexivity|]. intros l0 H. simpl.
        rewrite lookup_alter_ne, lookup_insert_ne by congruence. reflexivity.
    - exists s0. split; [reflexivity|]. split; [exact Hl0|].
      split; [reflexivity|]. intros l0 H. simpl.
      rewrite lookup_insert_ne by congruence. reflexivity.
    - exists s0. split; [reflexivity|]. split; [exact Hl0|].
      split; [reflexivity|]. intros l0 H. simpl.
      rewrite lookup_insert_ne by congruence. reflexivity. }
  destruct Hmain as (s1 & Hrun1 & Hl1 & Hloads1 & Hframe1).
  destruct (scan_loop (fun _ => throw (Error "unreachable")) l (JsObject m) mainFile
              cfg q (m.*1) s1 P1 ∅ Hl1 eq_refl eq_refl eq_refl)
    as (s' & exts & Hrun & Hl' & Hloads & Hframe & Hmods & Hmap & _ & Hkeys).
  assert (Hnone : forall e, heap s1 !! e = None -> e <> l /\ heap s !! e = None).
  { intros e H. assert (e <> l) by (intros ->; congruence).
    split; [assumption|]. rewrite <- Hframe1 by assumption. exact H. }
  exists s', exts.
  split.
  { assert (Hinit : initializeExtensions_with host
                      (construct (fun _ => throw (Error "unreachable"))) l s0
                    = (Ok tt, s')).
    { unfold initializeExtensions_with.
      rewrite (bind_ok _ _ s0 P0 s0) by exact (LanguageFacts.this_handle l P0 s0 Hl0).
      change (own_properties (wasm P0)) with (Some m). cbv iota beta.
      change (find_mainFile (name P0) m) with mainFile.
      change (wasm P0) with (JsObject m).
      rewrite (bind_ok _ _ s0 tt s1) by exact Hrun1. exact Hrun. }
    unfold new_Language, construct.
    rewrite (bind_ok _ _ s l s0) by reflexivity.
    cbv beta. change (negb false) with true. cbv iota.
    rewrite (bind_ok _ _ s0 tt s') by exact Hinit. reflexivity. }
  split; [rewrite Hl'; reflexivity|].
  split; [congruence|].
  split.
  { intros l0 H. assert (l0 <> l) by (intros ->; rewrite Hfresh in H; destruct H; discriminate).
    rewrite Hframe; [apply Hframe1; assumption | assumption |].
    rewrite Hframe1 by assumption. exact H. }
  split.
  { intros f Hf Hne. destruct (Hmods f Hf Hne) as (e & H1 & H2).
    destruct (Hnone e H1). exists e. auto. }
  split.
  { intros k e He. destruct (Hmap k e He) as [H|(f & Hf & H1 & H2 & H3 & H4)].
    - rewrite lookup_empty in H. discriminate.
    - destruct (Hnone e H3). exists f. auto 10. }
  exact Hkeys.
Qed.
End WithHost.
End ConstructorFacts.
Module ResolutionFacts.
Import Language ConstructorFacts.




End ResolutionFacts.



(** * Properties of manager.js *)

Module FsFacts.
Import Fs.

Lemma lookup_path_app p q n :
  lookup_path (p ++ q) n = lookup_path p n ≫= lookup_path q.
Proof.
  revert n. induction p as [|x p IH]; intros n; simpl; [reflexivity|].
  destruct n as [d|children]; [reflexivity|].
  destruct (children !! x) as [c|]; simpl; [apply IH | reflexivity].
Qed.

(** Nothing is found under a path that leads nowhere. *)
Lemma lookup_path_below p q n :
  lookup_path p n = None -> lookup_path (p ++ q) n = None.
Proof. intros H. rewrite lookup_path_app, H. reflexivity. Qed.

(** After the removal of the entry at [p], [p] leads nowhere. *)
Lemma lookup_path_removed p n :
  p <> [] -> lookup_path p (alter_path (fun _ => None) p n) = None.
Proof.
  revert n. induction p as [|x p IH]; intros n Hp; [congruence|].
  destruct n as [d|children]; [destruct p; reflexivity|].
  destruct p as [|y p].
  - simpl. rewrite lookup_partial_alter_eq. reflexivity.
  - change (alter_path (fun _ => None) (x :: y :: p) (Dir children))
      with (Dir (alter (alter_path (fun _ => None) (y :: p)) x children)).
    change (lookup_path (x :: y :: p) (Dir ?c))
      with (c !! x ≫= lookup_path (y :: p)).
    rewrite lookup_alter_eq. destruct (children !! x) as [c|]; [|reflexivity].
    simpl option_map. apply IH. discriminate.
Qed.

Lemma TREE_SITTER_PATH_nonempty host lang :
  Url.join (Manager.TREE_SITTER_PATH host) lang <> [].
Proof.
  unfold Url.join, Manager.TREE_SITTER_PATH. intros H.
  apply app_eq_nil in H as [H _]. apply app_eq_nil in H as [_ H]. discriminate.
Qed.

Section WithHost.
Variable host : Host.

Lemma exists_run p w :
  exists_ p w = (Ok (bool_decide (is_Some (lookup_path p (fs w)))), w).
Proof. reflexivity. Qed.

(** A [delete()] that does not reject leaves nothing at or below [p]. *)
Lemma delete_run p w :
  p <> [] -> is_Some (lookup_path p (fs w)) ->
  fs_rejects host (OpDelete p) = false ->
  delete_ host p w = (Ok tt, set_fs (alter_path (fun _ => None) p) w).
Proof.
  intros Hp [n Hn] Hrej. unfold delete_, bind, get. rewrite Hrej.
  destruct p; [congruence|]. rewrite Hn. reflexivity.
Qed.

(** A [delete()] that rejects changes nothing. *)
Lemma delete_rejected p w :
  fs_rejects host (OpDelete p) = true ->
  delete_ host p w = (Throw (Rejected "delete"), w).
Proof. intros Hrej. unfold delete_, bind, get. rewrite Hrej. reflexivity. Qed.
End WithHost.
End FsFacts.

Module ManagerFacts.
Import Manager FsFacts.

Section WithHost.
Variable host : Host.

(** [installLanguage] when the package directory is there: [false], and
    the world is the one it was called in. *)
Lemma installLanguage_present lang w :
  is_Some (Fs.lookup_path (langPath host lang) (fs w)) ->
  installLanguage host lang w = (Ok false, w).
Proof.
  intros H. unfold installLanguage.
  rewrite (bind_ok _ _ w true w); [reflexivity|].
  rewrite exists_run. rewrite bool_decide_eq_true_2 by exact H. reflexivity.
Qed.



Lemma isLanguageAvailable_run lang w :
  isLanguageAvailable host lang w =
    (Ok (bool_decide (is_Some (Fs.lookup_path (langPath host lang) (fs w)))), w).
Proof. reflexivity. Qed.

(** [uninstallLanguage], case by case. *)
Lemma uninstallLanguage_absent lang w :
  Fs.lookup_path (langPath host lang) (fs w) = None ->
  uninstallLanguage host lang w = (Ok false, w).
Proof.
  intros H. unfold uninstallLanguage. fold (langPath host lang).
  rewrite (bind_ok _ _ w false w); [reflexivity|].
  rewrite exists_run, H. rewrite bool_decide_eq_false_2; [reflexivity|].
  intros [? ?]; discriminate.
Qed.

Lemma uninstallLanguage_deleted lang w :
  is_Some (Fs.lookup_path (langPath host lang) (fs w)) ->
  fs_rejects host (OpDelete (langPath host lang)) = false ->
  uninstallLanguage host lang w =
    (Ok true, set_fs (Fs.alter_path (fun _ => None) (langPath host lang)) w).
Proof.
  intros H Hrej. unfold uninstallLanguage. fold (langPath host lang).
  rewrite (bind_ok _ _ w true w).
  - js_step. unfold try_catch. js_step.
    rewrite (bind_ok _ _ w tt _
               (delete_run host _ w (TREE_SITTER_PATH_nonempty host lang) H Hrej)).
    reflexivity.
  - rewrite exists_run, bool_decide_eq_true_2 by exact H. reflexivity.
Qed.

Lemma uninstallLanguage_failed lang w :
  is_Some (Fs.lookup_path (langPath host lang) (fs w)) ->
  fs_rejects host (OpDelete (langPath host lang)) = true ->
  uninstallLanguage host lang w = (Throw (ReferenceError "error is not defined"), w).
Proof.
  intros H Hrej. unfold uninstallLanguage. fold (langPath host lang).
  rewrite (bind_ok _ _ w true w).
  - js_step. unfold try_catch. js_step.
    rewrite (bind_throw _ _ w _ _ (delete_rejected host _ w Hrej)). reflexivity.
  - rewrite exists_run, bool_decide_eq_true_2 by exact H. reflexivity.
Qed.
End WithHost.
End ManagerFacts.

(** * Properties of api.js *)

Module ApiFacts.
Import TreeSitterAPI.

Section WithHost.
Variable host : Host.

Lemma in_world_run {A} (m : M World A) sys :
  in_world m sys = (fst (m (world sys)), set_world (snd (m (world sys))) sys).
Proof. unfold in_world, zoom. destruct (m (world sys)); reflexivity. Qed.

Lemma set_world_same sys : set_world (world sys) sys = sys.
Proof. destruct sys; reflexivity. Qed.

(** The facade's [installLanguage] when the manager reports [false]. *)
Lemma facade_installLanguage_present lang sys :
  is_Some (Fs.lookup_path (Manager.langPath host lang) (fs (world sys))) ->
  installLanguage host lang sys = (Ok true, sys).
Proof.
  intros H. unfold installLanguage, try_catch.
  rewrite (bind_ok _ _ sys false sys).
  - reflexivity.
  - rewrite in_world_run, (ManagerFacts.installLanguage_present host lang _ H).
    simpl. rewrite set_world_same. reflexivity.
Qed.


(** The facade's [uninstallLanguage] when the manager throws. *)
Lemma uninstallLanguage_swallows lang sys e w' :
  Manager.uninstallLanguage host lang (world sys) = (Throw e, w') ->
  exists sys',
    uninstallLanguage host lang sys = (Ok false, sys') /\
    world sys' = w' /\
    events (api sys') = events (api sys) ++ [error_event e] /\
    languages (api sys') = delete lang (languages (api sys)).
Proof.
  intros H. unfold uninstallLanguage, try_catch.
  unfold bind at 1. unfold set_languages at 1, modify. js_step.
  unfold bind at 1. rewrite in_world_run. simpl world. rewrite H. simpl.
  eexists. split; [reflexivity|]. auto.
Qed.

(** The facade's [uninstallLanguage] when the manager returns. *)
Lemma uninstallLanguage_returns lang sys b w' :
  Manager.uninstallLanguage host lang (world sys) = (Ok b, w') ->
  exists sys',
    uninstallLanguage host lang sys = (Ok b, sys') /\
    world sys' = w' /\
    languages (api sys') = delete lang (languages (api sys)) /\
    events (api sys') =
      events (api sys) ++ (if b then [language_uninstalled lang] else []).
Proof.
  intros H. unfold uninstallLanguage, try_catch.
  unfold bind at 1. unfold set_languages at 1, modify. js_step.
  unfold bind at 1. rewrite in_world_run. simpl world. rewrite H. simpl.
  destruct b; simpl; eexists; (split; [reflexivity|]); simpl;
    rewrite ?app_nil_r; auto.
Qed.
End WithHost.
End ApiFacts.

Lemma bind_inv_ok {S A B} (m : M S A) (k : A -> M S B) s b s' :
  bind m k s = (Ok b, s') -> exists a s1, m s = (Ok a, s1) /\ k a s1 = (Ok b, s').
Proof.
  unfold bind. destruct (m s) as [[a|e] s1]; [eauto | discriminate].
Qed.

Lemma try_catch_rethrow {S A} (m : M S A) s :
  try_catch m (fun error => throw error) s = m s.
Proof. unfold try_catch. destruct (m s) as [[a|e] s1]; reflexivity. Qed.


Module DownloadFacts.
Import Manager.

Section WithHost.
Variable host : Host.



End WithHost.
End DownloadFacts.


(** * The pattern matcher *)

Module GlobFacts.







End GlobFacts.


(** * Availability, re-installation and removal *)

(** C5 (as the code has it) -- [isLanguageAvailable lang] is [true] exactly
    when there is an entry at the package path of [lang]; it reads nothing
    below that path, so the presence of a configuration document plays no
    part, and it changes nothing.  The facade passes the answer on. *)
Theorem isLanguageAvailable_iff_directory_exists (host : Host) (lang : string) :
  (forall w,
      exists b,
        Manager.isLanguageAvailable host lang w = (Ok b, w) /\
        (b = true <-> is_Some (Fs.lookup_path (Manager.langPath host lang) (fs w)))) /\
  (forall sys,
      exists b,
        TreeSitterAPI.isLanguageAvailable host lang sys = (Ok b, sys) /\
        (b = true <->
         is_Some (Fs.lookup_path (Manager.langPath host lang) (fs (world sys))))) /\
  (forall w children,
      Fs.lookup_path (Manager.langPath host lang) (fs w) = Some (Dir children) ->
      children !! "tree-sitter.json" = None ->
      Manager.isLanguageAvailable host lang w = (Ok true, w)).
Proof.
  split; [|split].
  - intros w. eexists. split; [apply ManagerFacts.isLanguageAvailable_run|].
    apply bool_decide_eq_true.
  - intros sys. eexists. split.
    + unfold TreeSitterAPI.isLanguageAvailable.
      rewrite ApiFacts.in_world_run, ManagerFacts.isLanguageAvailable_run.
      cbn [fst snd]. rewrite ApiFacts.set_world_same. reflexivity.
    + apply bool_decide_eq_true.
  - intros w children Hdir _. rewrite ManagerFacts.isLanguageAvailable_run.
    rewrite bool_decide_eq_true_2; [reflexivity | rewrite Hdir; eauto].
Qed.

(** The theorem at a package directory that holds nothing at all. *)
Lemma isLanguageAvailable_iff_directory_exists_witness :
  Fs.lookup_path (Manager.langPath Examples.host_ok "foo") (fs Examples.world_bare)
    = Some (Dir ∅) /\
  (∅ : gmap string node) !! "tree-sitter.json" = None /\
  Manager.isLanguageAvailable Examples.host_ok "foo" Examples.world_bare
    = (Ok true, Examples.world_bare).
Proof.
  split; [reflexivity|]. split; [reflexivity|].
  apply (proj2 (proj2 (isLanguageAvailable_iff_directory_exists Examples.host_ok "foo"))
           Examples.world_bare ∅); reflexivity.
Defined.

(** C5 fails as stated: for the package directory of [foo] that exists and
    is empty, [isLanguageAvailable] is [true] although the directory
    contains no configuration document. *)
Lemma isLanguageAvailable_without_configuration :
  ~ (fst (Manager.isLanguageAvailable Examples.host_ok "foo" Examples.world_bare) = Ok true <->
     is_Some (Fs.lookup_path (Manager.langPath Examples.host_ok "foo")
                (fs Examples.world_bare)) /\
     is_Some (Fs.lookup_path (Manager.langPath Examples.host_ok "foo" ++ ["tree-sitter.json"])
                (fs Examples.world_bare))).
Proof.
  intros [H _]. destruct (H eq_refl) as [_ [n Hn]]. vm_compute in Hn. discriminate.
Qed.

(** C2 at the failing input -- The package [json] is installed.  The
    manager's [installLanguage] returns [false] and leaves the world as it
    was, no request sent; the facade's [installLanguage] leaves everything
    as it was too, emits no event, and returns [true]. *)
Theorem installLanguage_on_installed_package :
  let sys := Examples.system_of Examples.world_json in
  is_Some (Fs.lookup_path (Manager.langPath Examples.host_ok "json") (fs (world sys))) /\
  Manager.installLanguage Examples.host_ok "json" (world sys) = (Ok false, world sys) /\
  TreeSitterAPI.installLanguage Examples.host_ok "json" sys = (Ok true, sys).
Proof.
  intros sys.
  assert (H : is_Some (Fs.lookup_path (Manager.langPath Examples.host_ok "json")
                         (fs (world sys)))) by (vm_compute; eauto).
  split; [exact H|]. split.
  - exact (ManagerFacts.installLanguage_present Examples.host_ok "json" (world sys) H).
  - exact (ApiFacts.facade_installLanguage_present Examples.host_ok "json" sys H).
Qed.

(** C7 (as the code has it) -- The manager's [uninstallLanguage lang]
    returns [false], changing nothing, when there is no package directory;
    otherwise, when the filesystem carries out the deletion, it returns
    [true] and nothing is left at or below the package directory; and when
    the deletion is refused it throws to its caller and the world is as
    before.  The facade's [uninstallLanguage] returns what the manager
    returns, but catches what the manager throws: it then emits an [error]
    event and returns [false]; in every case it drops the cached handle. *)
Theorem uninstallLanguage_outcomes (host : Host) (lang : string) :
  (forall w,
      Fs.lookup_path (Manager.langPath host lang) (fs w) = None ->
      Manager.uninstallLanguage host lang w = (Ok false, w)) /\
  (forall w,
      is_Some (Fs.lookup_path (Manager.langPath host lang) (fs w)) ->
      fs_rejects host (OpDelete (Manager.langPath host lang)) = false ->
      exists w',
        Manager.uninstallLanguage host lang w = (Ok true, w') /\
        store w' = store w /\
        forall p, Fs.lookup_path (Manager.langPath host lang ++ p) (fs w') = None) /\
  (forall w,
      is_Some (Fs.lookup_path (Manager.langPath host lang) (fs w)) ->
      fs_rejects host (OpDelete (Manager.langPath host lang)) = true ->
      exists e, Manager.uninstallLanguage host lang w = (Throw e, w)) /\
  (forall sys b w',
      Manager.uninstallLanguage host lang (world sys) = (Ok b, w') ->
      exists sys',
        TreeSitterAPI.uninstallLanguage host lang sys = (Ok b, sys') /\
        world sys' = w' /\
        languages (api sys') !! lang = None) /\
  (forall sys,
      is_Some (Fs.lookup_path (Manager.langPath host lang) (fs (world sys))) ->
      fs_rejects host (OpDelete (Manager.langPath host lang)) = true ->
      exists sys' e,
        TreeSitterAPI.uninstallLanguage host lang sys = (Ok false, sys') /\
        world sys' = world sys /\
        events (api sys') = events (api sys) ++ [error_event e] /\
        languages (api sys') !! lang = None).
Proof.
  split; [|split; [|split; [|split]]].
  - exact (ManagerFacts.uninstallLanguage_absent host lang).
  - intros w H Hrej. eexists.
    split; [exact (ManagerFacts.uninstallLanguage_deleted host lang w H Hrej)|].
    split; [reflexivity|]. intros p. apply FsFacts.lookup_path_below. simpl.
    apply FsFacts.lookup_path_removed, FsFacts.TREE_SITTER_PATH_nonempty.
  - intros w H Hrej. eexists.
    exact (ManagerFacts.uninstallLanguage_failed host lang w H Hrej).
  - intros sys b w' H.
    destruct (ApiFacts.uninstallLanguage_returns host lang sys b w' H)
      as (sys' & H1 & H2 & H3 & _).
    exists sys'. split; [exact H1|]. split; [exact H2|].
    rewrite H3. apply lookup_delete_eq.
  - intros sys H Hrej.
    pose proof (ManagerFacts.uninstallLanguage_failed host lang (world sys) H Hrej) as Hm.
    destruct (ApiFacts.uninstallLanguage_swallows host lang sys _ _ Hm)
      as (sys' & H1 & H2 & H3 & H4).
    exists sys', (ReferenceError "error is not defined").
    split; [exact H1|]. split; [exact H2|]. split; [exact H3|].
    rewrite H4. apply lookup_delete_eq.
Qed.

(** The theorem on the three situations: no package, a package that is
    deleted, and a package that the filesystem refuses to delete. *)
Lemma uninstallLanguage_outcomes_witness :
  (Fs.lookup_path (Manager.langPath Examples.host_ok "json") (fs Examples.world_empty) = None /\
   Manager.uninstallLanguage Examples.host_ok "json" Examples.world_empty
     = (Ok false, Examples.world_empty)) /\
  (is_Some (Fs.lookup_path (Manager.langPath Examples.host_ok "json")
              (fs Examples.world_json)) /\
   fs_rejects Examples.host_ok (OpDelete (Manager.langPath Examples.host_ok "json")) = false /\
   exists w',
     Manager.uninstallLanguage Examples.host_ok "json" Examples.world_json = (Ok true, w') /\
     Fs.lookup_path (Manager.langPath Examples.host_ok "json" ++ ["tree-sitter.json"]) (fs w')
       = None) /\
  (is_Some (Fs.lookup_path (Manager.langPath Examples.host_readonly "json")
              (fs (world (Examples.system_of Examples.world_json)))) /\
   fs_rejects Examples.host_readonly
     (OpDelete (Manager.langPath Examples.host_readonly "json")) = true /\
   (exists e,
      Manager.uninstallLanguage Examples.host_readonly "json" Examples.world_json
        = (Throw e, Examples.world_json)) /\
   exists sys' e,
     TreeSitterAPI.uninstallLanguage Examples.host_readonly "json"
       (Examples.system_of Examples.world_json) = (Ok false, sys') /\
     world sys' = Examples.world_json /\
     events (api sys') = [error_event e] /\
     languages (api sys') !! "json" = None).
Proof.
  assert (H : is_Some (Fs.lookup_path (Manager.langPath Examples.host_ok "json")
                         (fs Examples.world_json))) by (vm_compute; eauto).
  destruct (uninstallLanguage_outcomes Examples.host_ok "json") as (Habsent & Hdeleted & _).
  destruct (uninstallLanguage_outcomes Examples.host_readonly "json")
    as (_ & _ & Hthrows & _ & Hswallowed).
  split; [|split].
  - split; [reflexivity|]. apply Habsent. reflexivity.
  - split; [exact H|]. split; [reflexivity|].
    destruct (Hdeleted Examples.world_json H eq_refl) as (w' & Hrun & _ & Hgone).
    exists w'. split; [exact Hrun | apply Hgone].
  - split; [exact H|]. split; [reflexivity|].
    split; [exact (Hthrows Examples.world_json H eq_refl)|].
    exact (Hswallowed (Examples.system_of Examples.world_json) H eq_refl).
Defined.

(** C7 fails as stated: with the package [json] installed and a filesystem
    that refuses the deletion, the facade's [uninstallLanguage] does not
    throw; it returns [false], and the package directory is still there. *)
Lemma uninstallLanguage_failure_swallowed :
  let r := TreeSitterAPI.uninstallLanguage Examples.host_readonly "json"
             (Examples.system_of Examples.world_json) in
  fst (Fs.delete_ Examples.host_readonly (Manager.langPath Examples.host_readonly "json")
         Examples.world_json) = Throw (Rejected "delete") /\
  fst r = Ok false /\
  fst (TreeSitterAPI.isLanguageAvailable Examples.host_readonly "json" (snd r)) = Ok true.
Proof. vm_compute. auto. Qed.

(** * The facade never loads a grammar *)

Module LoadFacts.
Import Language.

Section WithHost.
Variable host : Host.
Variable n : nat.

Lemma preserves_this l : preserves (loads_are n) (this l).
Proof. intros s Hs. unfold this. destruct (heap s !! l); exact Hs. Qed.

Lemma preserves_update l f : preserves (loads_are n) (update l f).
Proof. apply preserves_modify. intros s Hs. exact Hs. Qed.

Lemma preserves_alloc o : preserves (loads_are n) (alloc o).
Proof. intros s Hs. exact Hs. Qed.

Lemma preserves_construct init name cfg w q isExt :
  (forall l, preserves (loads_are n) (init l)) ->
  preserves (loads_are n) (construct init name cfg w q isExt).
Proof.
  intros Hinit. unfold construct. apply preserves_bind; [apply preserves_alloc|].
  intros l. destruct (negb isExt); [|apply preserves_ret].
  apply preserves_bind; [apply Hinit | intros _; apply preserves_ret].
Qed.

Lemma preserves_scan_module ctor l w mainFile filename :
  (forall name cfg w q isExt, preserves (loads_are n) (ctor name cfg w q isExt)) ->
  preserves (loads_are n) (scan_module host ctor l w mainFile filename).
Proof.
  intros Hctor. unfold scan_module. destruct (bool_decide _); [apply preserves_ret|].
  apply preserves_bind; [apply preserves_this|]. intros o.
  apply preserves_bind; [apply Hctor|]. intros e.
  destruct (extensions o); [apply preserves_update | apply preserves_throw].
Qed.

Lemma preserves_initializeExtensions ctor l :
  (forall name cfg w q isExt, preserves (loads_are n) (ctor name cfg w q isExt)) ->
  preserves (loads_are n) (initializeExtensions_with host ctor l).
Proof.
  intros Hctor. unfold initializeExtensions_with.
  apply preserves_bind; [apply preserves_this|]. intros o.
  destruct (own_properties (wasm o)) as [props|]; [|apply preserves_throw].
  apply preserves_bind.
  - destruct (find_mainFile (name o) props) as [f|]; [|apply preserves_ret].
    destruct (negb _); [apply preserves_update | apply preserves_ret].
  - intros _. apply preserves_for_of. intros filename.
    apply preserves_scan_module, Hctor.
Qed.

(** The constructor does not call the loader. *)
Lemma preserves_new_Language name cfg w q isExt :
  preserves (loads_are n) (new_Language host name cfg w q isExt).
Proof.
  unfold new_Language. apply preserves_construct. intros l.
  apply preserves_initializeExtensions. intros name' cfg' w' q' isExt'.
  apply preserves_construct. intros l'. apply preserves_throw.
Qed.

(** A handle fresh from the constructor has no grammar. *)
Lemma new_Language_unloaded name cfg m q s l s' :
  new_Language host name cfg (JsObject m) q false s = (Ok l, s') ->
  exists o, heap s' !! l = Some o /\ grammar o = None.
Proof.
  intros H.
  destruct (ConstructorFacts.new_Language_object host name cfg m q s)
    as (s1 & exts & Hrun & Hl & _).
  rewrite Hrun in H. injection H as <- <-. eexists. split; [exact Hl | reflexivity].
Qed.
End WithHost.
End LoadFacts.

Lemma zoom_inv {S T A} (proj : T -> S) (inj : S -> T -> T) (m : M S A) t r t' :
  zoom proj inj m t = (r, t') -> exists s', m (proj t) = (r, s') /\ t' = inj s' t.
Proof.
  unfold zoom. destruct (m (proj t)) as [r0 s']. intros [= <- <-]. eauto.
Qed.

Lemma try_catch_inv_ok {S A} (m : M S A) (h : JsError -> M S A) s a s' :
  (forall e s1, is_ok (fst (h e s1)) = false) ->
  try_catch m h s = (Ok a, s') -> m s = (Ok a, s').
Proof.
  intros Hh. unfold try_catch. destruct (m s) as [[a0|e] s1]; [auto|].
  intros H. specialize (Hh e s1). rewrite H in Hh. discriminate.
Qed.

Module GetLanguageFacts.
Import Manager.

Section WithHost.
Variable host : Host.

(** The reading operations of the filesystem change nothing. *)
Lemma preserves_exists (I : World -> Prop) p : preserves I (Fs.exists_ p).
Proof. apply preserves_gets. Qed.

Lemma preserves_lsDir (I : World -> Prop) p : preserves I (Fs.lsDir host p).
Proof.
  unfold Fs.lsDir. apply preserves_bind; [apply preserves_get|]. intros w.
  destruct (fs_rejects host _); [apply preserves_throw|].
  destruct (Fs.lookup_path p (fs w)) as [[d|children]|];
    first [apply preserves_throw | apply preserves_ret].
Qed.

Lemma preserves_readFile_json (I : World -> Prop) p :
  preserves I (Fs.readFile_json host p).
Proof.
  unfold Fs.readFile_json. apply preserves_bind; [apply preserves_get|]. intros w.
  destruct (fs_rejects host _); [apply preserves_throw|].
  destruct (Fs.lookup_path p (fs w)) as [[d|children]|]; try apply preserves_throw.
  destruct (fs_read_json host d); [apply preserves_ret | apply preserves_throw].
Qed.

Lemma preserves_readFile_utf8 (I : World -> Prop) p :
  preserves I (Fs.readFile_utf8 host p).
Proof.
  unfold Fs.readFile_utf8. apply preserves_bind; [apply preserves_get|]. intros w.
  destruct (fs_rejects host _); [apply preserves_throw|].
  destruct (Fs.lookup_path p (fs w)) as [[d|children]|]; try apply preserves_throw.
  destruct (fs_read_text host d); [apply preserves_ret | apply preserves_throw].
Qed.

Lemma preserves_read_queries (I : World -> Prop) queryFiles queries :
  preserves I (read_queries host queryFiles queries).
Proof.
  revert queries. induction queryFiles as [|file rest IH]; intros queries; simpl.
  - apply preserves_ret.
  - destruct (negb (isDirectory file) && endsWith (entry_name file) ".scm"); [|apply IH].
    apply preserves_bind; [apply preserves_readFile_utf8 | intros content; apply IH].
Qed.

Lemma preserves_in_store n {A} (m : M Language.Store A) :
  preserves (loads_are n) m -> preserves (world_loads_are n) (in_store m).
Proof.
  intros Hm. unfold in_store.
  apply (preserves_zoom (world_loads_are n) store set_store (loads_are n)); auto.
Qed.

(** The manager's [getLanguage] does not call the loader. *)
Lemma preserves_getLanguage n lang :
  preserves (world_loads_are n) (getLanguage host lang).
Proof.
  unfold getLanguage. apply preserves_bind; [apply preserves_exists|]. intros present.
  destruct (negb present); [apply preserves_ret|].
  apply preserves_try_catch; [|intros e; apply preserves_throw].
  apply preserves_bind; [apply preserves_lsDir|]. intros files_.
  destruct (List.find _ files_) as [configFile|]; [|apply preserves_throw].
  apply preserves_bind; [apply preserves_readFile_json|]. intros config_.
  apply preserves_bind.
  - destruct (List.find _ files_) as [dir|]; [|apply preserves_ret].
    apply preserves_bind; [apply preserves_lsDir|]. intros queryFiles.
    apply preserves_read_queries.
  - intros queries_. apply preserves_bind; [|intros l; apply preserves_ret].
    apply preserves_in_store, LoadFacts.preserves_new_Language.
Qed.

(** The handle the manager's [getLanguage] returns has no grammar. *)
Lemma getLanguage_unloaded lang w l w' :
  getLanguage host lang w = (Ok (Some l), w') ->
  exists o, Language.heap (store w') !! l = Some o /\ Language.grammar o = None.
Proof.
  unfold getLanguage. intros H.
  apply bind_inv_ok in H as (present & w0 & _ & H).
  destruct (negb present); [discriminate|].
  apply try_catch_inv_ok in H; [|reflexivity].
  apply bind_inv_ok in H as (files_ & w1 & _ & H).
  destruct (List.find _ files_) as [configFile|]; [|discriminate].
  apply bind_inv_ok in H as (config_ & w2 & _ & H).
  apply bind_inv_ok in H as (queries_ & w3 & _ & H).
  apply bind_inv_ok in H as (language & w4 & Hnew & H).
  injection H as -> ->.
  apply zoom_inv in Hnew as (s' & Hnew & ->).
  exact (LoadFacts.new_Language_unloaded host _ _ _ _ _ _ _ Hnew).
Qed.
End WithHost.
End GetLanguageFacts.

(** * Properties of the facade's initialization and caches *)

Section Totality.
Context {S : Type}.

Lemma total_ret {A} (a : A) : total (@ret S A a).
Proof. intros s. reflexivity. Qed.

Lemma total_gets {A} (f : S -> A) : total (gets f).
Proof. intros s. reflexivity. Qed.

Lemma total_modify (f : S -> S) : total (modify f).
Proof. intros s. reflexivity. Qed.

Lemma total_bind {A B} (m : M S A) (k : A -> M S B) :
  total m -> (forall a, total (k a)) -> total (bind m k).
Proof.
  intros Hm Hk s. specialize (Hm s). unfold bind.
  destruct (m s) as [[a|e] s1]; [apply Hk | discriminate].
Qed.

Lemma total_try_catch {A} (m : M S A) (h : JsError -> M S A) :
  (forall e, total (h e)) -> total (try_catch m h).
Proof.
  intros Hh s. unfold try_catch. destruct (m s) as [[a|e] s1]; [reflexivity | apply Hh].
Qed.

Lemma total_run {A} (m : M S A) s : total m -> exists a, fst (m s) = Ok a.
Proof. intros H. specialize (H s). destruct (fst (m s)); [eauto | discriminate]. Qed.
End Totality.

Module InitFacts.
Import TreeSitterAPI.

Section WithHost.
Variable host : Host.

Lemma total_emit ev : total (emit ev).
Proof. apply total_modify. Qed.

Lemma total_initialize : total (initialize host).
Proof.
  unfold initialize. apply total_bind; [apply total_gets|]. intros b.
  destruct b; [apply total_ret|]. apply total_try_catch. intros e.
  apply total_bind; [apply total_emit | intros _; apply total_ret].
Qed.

(** Awaiting the initialization never throws. *)
Lemma total_waitForInit : total (waitForInit host).
Proof.
  unfold waitForInit. apply total_bind; [apply total_gets|]. intros p.
  destruct p; [|apply total_ret].
  apply total_bind; [apply total_initialize|]. intros v.
  apply total_bind; [apply total_modify | intros _; apply total_ret].
Qed.

Section Frame.
Variables (w : World) (handles : gmap string Language.loc)
          (parsers : gmap string Parser) (created : nat).
Let I := caches_are w handles parsers created.

Lemma preserves_caches_modify (f : Api -> Api) :
  (forall a, languages (f a) = languages a /\ parser (f a) = parser a /\
             parsers_created (f a) = parsers_created a) ->
  preserves I (modify (set_api f)).
Proof.
  intros Hf. apply preserves_modify. intros sys (H1 & H2 & H3 & H4).
  destruct (Hf (api sys)) as (F1 & F2 & F3). unfold I, caches_are. simpl.
  rewrite F1, F2, F3. auto.
Qed.

Lemma preserves_caches_read {A} (m : M World A) :
  (forall J : World -> Prop, preserves J m) -> preserves I (in_world m).
Proof.
  intros Hm. unfold in_world.
  apply (preserves_zoom I world set_world (fun w' => w' = w)).
  - intros sys (H1 & _). exact H1.
  - intros sys w' (H1 & H2 & H3 & H4) ->. unfold I, caches_are. simpl. auto.
  - apply Hm.
Qed.

Lemma preserves_caches_loadConfig : preserves I (loadConfig host).
Proof.
  unfold loadConfig. apply preserves_try_catch; [|intros e; apply preserves_ret].
  apply preserves_bind.
  { apply preserves_caches_read. intros J. apply GetLanguageFacts.preserves_exists. }
  intros present. apply preserves_bind; [|intros _; apply preserves_gets].
  destruct present; [|apply preserves_ret].
  apply preserves_bind.
  { apply preserves_caches_read. intros J. apply GetLanguageFacts.preserves_readFile_json. }
  intros c. apply preserves_caches_modify. intros a. simpl. auto.
Qed.

Lemma preserves_caches_initialize : preserves I (initialize host).
Proof.
  unfold initialize. apply preserves_bind; [apply preserves_gets|]. intros b.
  destruct b; [apply preserves_ret|].
  apply preserves_try_catch.
  - apply preserves_bind.
    { destruct (engine_init host); [apply preserves_ret | apply preserves_throw]. }
    intros _. apply preserves_bind; [apply preserves_caches_loadConfig|]. intros c.
    apply preserves_bind; [apply preserves_caches_modify; intros a; simpl; auto|].
    intros _.
    apply preserves_bind; [apply preserves_caches_modify; intros a; simpl; auto|].
    intros _.
    apply preserves_bind; [apply preserves_caches_modify; intros a; simpl; auto|].
    intros _. apply preserves_ret.
  - intros e.
    apply preserves_bind; [apply preserves_caches_modify; intros a; simpl; auto|].
    intros _. apply preserves_ret.
Qed.

(** Awaiting the initialization touches neither the world nor the caches. *)
Lemma preserves_caches_waitForInit : preserves I (waitForInit host).
Proof.
  unfold waitForInit. apply preserves_bind; [apply preserves_gets|]. intros p.
  destruct p; [|apply preserves_ret].
  apply preserves_bind; [apply preserves_caches_initialize|]. intros v.
  apply preserves_bind; [apply preserves_caches_modify; intros a; simpl; auto|].
  intros _. apply preserves_ret.
Qed.
End Frame.

(** [waitForInit], in one statement. *)
Lemma waitForInit_run sys :
  exists v sys',
    waitForInit host sys = (Ok v, sys') /\
    world sys' = world sys /\
    languages (api sys') = languages (api sys) /\
    parser (api sys') = parser (api sys) /\
    parsers_created (api sys') = parsers_created (api sys).
Proof.
  destruct (total_run (waitForInit host) sys total_waitForInit) as [v Hv].
  pose proof (preserves_caches_waitForInit (world sys) (languages (api sys))
                (parser (api sys)) (parsers_created (api sys)) sys) as H.
  destruct (waitForInit host sys) as [r sys']. simpl in Hv. subst r.
  exists v, sys'. split; [reflexivity|]. apply H. repeat split.
Qed.
End WithHost.
End InitFacts.

Module ParserFacts.
Import TreeSitterAPI.

Section WithHost.
Variable host : Host.

Lemma in_store_this l o sys :
  Language.heap (store (world sys)) !! l = Some o ->
  in_store (Language.this l) sys = (Ok o, sys).
Proof.
  intros H. unfold in_store, in_world, Manager.in_store, zoom.
  rewrite (LanguageFacts.this_handle l o _ H).
  destruct sys as [[f s r] a]. reflexivity.
Qed.

Lemma in_store_this_inv l o sys sys' :
  in_store (Language.this l) sys = (Ok o, sys') ->
  Language.heap (store (world sys)) !! l = Some o /\ sys' = sys.
Proof.
  intros H. unfold in_store, in_world, Manager.in_store in H.
  apply zoom_inv in H as (w' & H & ->). apply zoom_inv in H as (s' & H & ->).
  unfold Language.this in H.
  destruct (Language.heap (store (world sys)) !! l) as [o'|]; [|discriminate].
  injection H as -> <-. split; [reflexivity|]. destruct sys as [[f s r] a]. reflexivity.
Qed.

(** A cached handle is returned as it is. *)
Lemma getLanguage_cached lang l sys :
  lang <> "" -> languages (api sys) !! lang = Some l ->
  exists sys',
    getLanguage host lang false sys = (Ok (Some l), sys') /\
    world sys' = world sys /\
    languages (api sys') = languages (api sys) /\
    parser (api sys') = parser (api sys) /\
    parsers_created (api sys') = parsers_created (api sys).
Proof.
  intros Hlang Hl.
  destruct (InitFacts.waitForInit_run host sys) as (v & sys1 & Hw & H1 & H2 & H3 & H4).
  exists sys1. split; [|auto].
  unfold getLanguage. rewrite (bind_ok _ _ sys v sys1 Hw). js_step.
  apply String.eqb_neq in Hlang. rewrite Hlang.
  rewrite (bind_ok _ _ sys1 (Some l) sys1); [reflexivity|].
  unfold gets. rewrite H2, Hl. reflexivity.
Qed.

(** A handle that [getLanguage] returns was cached, or is fresh from the
    manager and so without a grammar. *)
Lemma getLanguage_Some lang l sys sys' :
  getLanguage host lang false sys = (Ok (Some l), sys') ->
  (languages (api sys) !! lang = Some l /\
   world sys' = world sys /\
   parsers_created (api sys') = parsers_created (api sys)) \/
  (exists o, Language.heap (store (world sys')) !! l = Some o /\
             Language.grammar o = None).
Proof.
  unfold getLanguage. intros H.
  destruct (InitFacts.waitForInit_run host sys) as (v & sys1 & Hw & H1 & H2 & _ & H4).
  rewrite (bind_ok _ _ sys v sys1 Hw) in H. js_step.
  destruct (String.eqb lang ""); [discriminate|].
  apply bind_inv_ok in H as (cached & sys2 & Hc & H).
  unfold gets in Hc. injection Hc as <- <-. rewrite H2 in H.
  destruct (languages (api sys) !! lang) as [l0|] eqn:Hcached.
  - injection H as <- <-. left. auto.
  - right. unfold try_catch in H.
    match type of H with
    | context [match ?body sys1 with _ => _ end] =>
        destruct (body sys1) as [[r|e] sys3] eqn:Hbody
    end.
    + injection H as -> ->.
      apply bind_inv_ok in Hbody as (language & sys4 & Hget & Hbody).
      destruct language as [l1|]; [|discriminate].
      apply bind_inv_ok in Hbody as ([] & sys5 & Hset & Hret).
      injection Hret as -> ->.
      unfold in_world in Hget. apply zoom_inv in Hget as (w' & Hget & ->).
      unfold set_languages, modify in Hset. injection Hset as <-.
      exact (GetLanguageFacts.getLanguage_unloaded host lang _ l w' Hget).
    + apply bind_inv_ok in H as ([] & sys4 & _ & H). discriminate.
Qed.

(** [createParser] with the handle of [lang] in the cache. *)
Lemma createParser_cached lang l o sys :
  lang <> "" -> languages (api sys) !! lang = Some l ->
  Language.heap (store (world sys)) !! l = Some o ->
  exists sys1,
    world sys1 = world sys /\
    parser (api sys1) = parser (api sys) /\
    parsers_created (api sys1) = parsers_created (api sys) /\
    createParser host lang sys =
      match Language.grammar o with
      | None =>
          (Throw (Error ("Cannot create parser: Language " +:+ lang
                         +:+ " not available or grammar not loaded")), sys1)
      | Some grammar =>
          (let! parser := new_Parser host in
           let! parser := setLanguage host parser grammar in
           ret parser) sys1
      end.
Proof.
  intros Hlang Hl Ho.
  destruct (InitFacts.waitForInit_run host sys) as (v & sys0 & Hw & H1 & H2 & H3 & H4).
  rewrite <- H2 in Hl.
  destruct (getLanguage_cached lang l sys0 Hlang Hl) as (sys1 & Hget & G1 & G2 & G3 & G4).
  exists sys1. split; [congruence|]. split; [congruence|]. split; [congruence|].
  unfold createParser. rewrite (bind_ok _ _ sys v sys0 Hw). js_step.
  rewrite (bind_ok _ _ sys0 (Some l) sys1 Hget). js_step.
  assert (Ho1 : Language.heap (store (world sys1)) !! l = Some o) by congruence.
  rewrite (bind_ok _ _ sys1 (Language.grammar o) sys1).
  - destruct (Language.grammar o); reflexivity.
  - rewrite (bind_ok _ _ sys1 o sys1 (in_store_this l o sys1 Ho1)). reflexivity.
Qed.

(** A parser comes out of [createParser] only for a handle that was in the
    cache with its grammar loaded. *)
Lemma createParser_ok lang p sys sys' :
  createParser host lang sys = (Ok p, sys') ->
  exists l o g,
    languages (api sys) !! lang = Some l /\
    Language.heap (store (world sys)) !! l = Some o /\
    Language.grammar o = Some g /\
    p = {| parser_ref := parsers_created (api sys); parser_language := Some g |}.
Proof.
  unfold createParser. intros H.
  destruct (InitFacts.waitForInit_run host sys) as (v & sys0 & Hw & H1 & H2 & _ & H4).
  rewrite (bind_ok _ _ sys v sys0 Hw) in H. js_step.
  apply bind_inv_ok in H as (language & sys1 & Hget & H).
  apply bind_inv_ok in H as (grammar & sys2 & Hgrammar & H).
  destruct grammar as [g|]; [|discriminate].
  destruct language as [l|]; [|discriminate].
  apply bind_inv_ok in Hgrammar as (o & sys3 & Hthis & Hret).
  injection Hret as Hg ->.
  apply in_store_this_inv in Hthis as [Ho ->].
  destruct (getLanguage_Some lang l sys0 sys1 Hget) as [(Hl & Hworld & Hcreated)|(o' & Ho' & Hg')].
  - exists l, o, g. split; [congruence|]. split; [congruence|]. split; [exact Hg|].
    apply bind_inv_ok in H as (p0 & sys4 & Hnew & H).
    apply bind_inv_ok in H as (p1 & sys5 & Hset & Hret). injection Hret as -> ->.
    unfold new_Parser in Hnew. destruct (engine_init host); [|discriminate].
    injection Hnew as <- <-.
    unfold setLanguage in Hset. destruct (engine_compatible host g); [|discriminate].
    injection Hset as <- <-. simpl. congruence.
  - congruence.
Qed.

(** The facade's [getLanguage] and [createParser] do not call the loader. *)
Lemma preserves_loads_in_world n {A} (m : M World A) :
  preserves (world_loads_are n) m -> preserves (system_loads_are n) (in_world m).
Proof.
  intros Hm. unfold in_world.
  apply (preserves_zoom (system_loads_are n) world set_world (world_loads_are n)); auto.
Qed.

Lemma preserves_loads_api n (f : Api -> Api) :
  preserves (system_loads_are n) (modify (set_api f)).
Proof. apply preserves_modify. intros sys H. exact H. Qed.

Lemma preserves_loads_waitForInit n : preserves (system_loads_are n) (waitForInit host).
Proof.
  intros sys H.
  destruct (InitFacts.waitForInit_run host sys) as (v & sys1 & Hw & H1 & _).
  rewrite Hw. simpl. unfold system_loads_are. rewrite H1. exact H.
Qed.

Lemma preserves_loads_getLanguage n lang forceReload :
  preserves (system_loads_are n) (getLanguage host lang forceReload).
Proof.
  unfold getLanguage. apply preserves_bind; [apply preserves_loads_waitForInit|].
  intros _. destruct (String.eqb lang ""); [apply preserves_throw|].
  apply preserves_bind; [apply preserves_gets|]. intros cached.
  destruct (if forceReload then None else cached); [apply preserves_ret|].
  apply preserves_try_catch.
  - apply preserves_bind.
    { apply preserves_loads_in_world, GetLanguageFacts.preserves_getLanguage. }
    intros [l|]; [|apply preserves_ret].
    apply preserves_bind; [apply preserves_loads_api | intros _; apply preserves_ret].
  - intros e. apply preserves_bind; [apply preserves_loads_api|].
    intros _. apply preserves_ret.
Qed.

Lemma preserves_loads_createParser n lang :
  preserves (system_loads_are n) (createParser host lang).
Proof.
  unfold createParser. apply preserves_bind; [apply preserves_loads_waitForInit|].
  intros _. apply preserves_bind; [apply preserves_loads_getLanguage|]. intros language.
  apply preserves_bind.
  - destruct language as [l|]; [|apply preserves_ret].
    apply preserves_bind; [|intros o; apply preserves_ret].
    unfold in_store. apply preserves_loads_in_world, GetLanguageFacts.preserves_in_store.
    apply LoadFacts.preserves_this.
  - intros [g|]; [|apply preserves_throw].
    apply preserves_bind.
    + unfold new_Parser. destruct (engine_init host); [|apply preserves_throw].
      intros sys H. exact H.
    + intros p0. apply preserves_bind; [|intros p1; apply preserves_ret].
      unfold setLanguage. destruct (engine_compatible host g);
        [apply preserves_ret | apply preserves_throw].
Qed.
End WithHost.
End ParserFacts.

(** C4 (as the code has it) -- [createParser lang] never calls the engine's
    loader.  It returns a parser only when the handle of [lang] is already
    in the facade's cache with its compiled grammar loaded, and the parser
    is then a new one bound to that grammar.  With a cached handle whose
    grammar is not loaded it throws "Cannot create parser"; with a cached
    handle whose grammar is loaded, an initialized engine and a compatible
    grammar, it returns the new parser and does not cache it. *)
Theorem createParser_requires_loaded_grammar (host : Host) (lang : string) (sys : System) :
  Language.loads (store (world (snd (TreeSitterAPI.createParser host lang sys))))
    = Language.loads (store (world sys)) /\
  (forall p sys',
      TreeSitterAPI.createParser host lang sys = (Ok p, sys') ->
      exists l o g,
        languages (api sys) !! lang = Some l /\
        Language.heap (store (world sys)) !! l = Some o /\
        Language.grammar o = Some g /\
        p = {| parser_ref := parsers_created (api sys); parser_language := Some g |}) /\
  (forall l o,
      lang <> "" ->
      languages (api sys) !! lang = Some l ->
      Language.heap (store (world sys)) !! l = Some o ->
      Language.grammar o = None ->
      fst (TreeSitterAPI.createParser host lang sys) =
        Throw (Error ("Cannot create parser: Language " +:+ lang
                      +:+ " not available or grammar not loaded"))) /\
  (forall l o g,
      lang <> "" ->
      languages (api sys) !! lang = Some l ->
      Language.heap (store (world sys)) !! l = Some o ->
      Language.grammar o = Some g ->
      engine_init host = true ->
      engine_compatible host g = true ->
      exists sys',
        TreeSitterAPI.createParser host lang sys =
          (Ok {| parser_ref := parsers_created (api sys); parser_language := Some g |}, sys') /\
        parsers_created (api sys') = S (parsers_created (api sys)) /\
        parser (api sys') = parser (api sys) /\
        world sys' = world sys).
Proof.
  split; [|split; [|split]].
  - exact (ParserFacts.preserves_loads_createParser host _ lang sys eq_refl).
  - intros p sys'. exact (ParserFacts.createParser_ok host lang p sys sys').
  - intros l o Hlang Hl Ho Hg.
    destruct (ParserFacts.createParser_cached host lang l o sys Hlang Hl Ho)
      as (sys1 & _ & _ & _ & Hrun).
    rewrite Hrun, Hg. reflexivity.
  - intros l o g Hlang Hl Ho Hg Hinit Hcompat.
    destruct (ParserFacts.createParser_cached host lang l o sys Hlang Hl Ho)
      as (sys1 & H1 & H2 & H3 & Hrun).
    rewrite Hrun, Hg. unfold bind, TreeSitterAPI.new_Parser, TreeSitterAPI.setLanguage.
    rewrite Hinit. cbn [parser_ref]. rewrite Hcompat.
    eexists. split; [rewrite H3; reflexivity|]. simpl. auto.
Qed.

(** The theorem on a facade that holds the handle of [json]: with its
    grammar loaded a parser comes out, with its grammar not loaded an error. *)
Lemma createParser_requires_loaded_grammar_witness :
  "json" <> "" /\
  (languages (api Examples.system_loaded) !! "json" = Some 0 /\
   Language.heap (store (world Examples.system_loaded)) !! 0 = Some Examples.handle_loaded /\
   Language.grammar Examples.handle_loaded = Some Examples.grammar_json /\
   engine_init Examples.host_ok = true /\
   engine_compatible Examples.host_ok Examples.grammar_json = true /\
   exists sys',
     TreeSitterAPI.createParser Examples.host_ok "json" Examples.system_loaded =
       (Ok {| parser_ref := 0; parser_language := Some Examples.grammar_json |}, sys')) /\
  (languages (api Examples.system_cached) !! "json" = Some 0 /\
   Language.heap (store (world Examples.system_cached)) !! 0 = Some Examples.handle_json /\
   Language.grammar Examples.handle_json = None /\
   fst (TreeSitterAPI.createParser Examples.host_ok "json" Examples.system_cached) =
     Throw (Error "Cannot create parser: Language json not available or grammar not loaded")).
Proof.
  assert (Hlang : "json" <> "") by discriminate.
  split; [exact Hlang|]. split.
  - do 5 (split; [reflexivity|]).
    destruct (proj2 (proj2 (proj2
               (createParser_requires_loaded_grammar Examples.host_ok "json"
                  Examples.system_loaded)))
               0 Examples.handle_loaded Examples.grammar_json
               Hlang eq_refl eq_refl eq_refl eq_refl eq_refl) as (sys' & H & _).
    exists sys'. exact H.
  - do 3 (split; [reflexivity|]).
    exact (proj1 (proj2 (proj2
             (createParser_requires_loaded_grammar Examples.host_ok "json"
                Examples.system_cached)))
             0 Examples.handle_json Hlang eq_refl eq_refl eq_refl).
Defined.

(** C4 fails as stated: the package [json] is installed, [getLanguage]
    constructs its handle, the handle's grammar is not loaded and the engine
    would load it, yet [createParser] throws, before and after the handle
    is cached, and the loader has not been called. *)
Lemma createParser_does_not_load :
  let sys := Examples.system_of Examples.world_json in
  let cached := snd (TreeSitterAPI.getLanguage Examples.host_ok "json" false sys) in
  fst (TreeSitterAPI.isLanguageAvailable Examples.host_ok "json" sys) = Ok true /\
  fst (TreeSitterAPI.getLanguage Examples.host_ok "json" false sys) = Ok (Some 0) /\
  Language.grammar <$> Language.heap (store (world cached)) !! 0 = Some None /\
  is_ok (fst (Language.loadGrammar Examples.host_ok 0 (store (world cached)))) = true /\
  is_ok (fst (TreeSitterAPI.createParser Examples.host_ok "json" sys)) = false /\
  fst (TreeSitterAPI.createParser Examples.host_ok "json" cached) =
    Throw (Error "Cannot create parser: Language json not available or grammar not loaded") /\
  Language.loads
    (store (world (snd (TreeSitterAPI.createParser Examples.host_ok "json" cached)))) = 0.
Proof. vm_compute. repeat split. Qed.

(** * The options of [parse] *)

Module ParseFacts.
Import TreeSitterAPI.

Section WithHost.
Variable host : Host.

Lemma settled_in_world {A} (m : M World A) : preserves init_settled (in_world m).
Proof.
  intros sys H. unfold in_world, zoom. destruct (m (world sys)) as [r w']. exact H.
Qed.

Lemma settled_modify (f : Api -> Api) :
  (forall a, initPromise (f a) = initPromise a) ->
  preserves init_settled (modify (set_api f)).
Proof.
  intros Hf. apply preserves_modify. intros sys H. unfold init_settled. simpl.
  rewrite Hf. exact H.
Qed.

Lemma settled_waitForInit : preserves init_settled (waitForInit host).
Proof.
  intros sys H. unfold waitForInit, bind, gets. unfold init_settled in H.
  destruct (initPromise (api sys)) eqn:E; [congruence|]. simpl.
  unfold init_settled. rewrite E. discriminate.
Qed.

(** Once [waitForInit] has returned, the initialization is over. *)
Lemma waitForInit_settles sys : init_settled (snd (waitForInit host sys)).
Proof.
  unfold waitForInit, bind, gets.
  destruct (initPromise (api sys)) eqn:E.
  - destruct (total_run (initialize host) sys (InitFacts.total_initialize host)) as [v Hv].
    destruct (initialize host sys) as [r sys1]. simpl in Hv. subst r.
    simpl. unfold init_settled. simpl. discriminate.
  - simpl. unfold init_settled. rewrite E. discriminate.
Qed.

Lemma settled_getLanguage lang forceReload :
  preserves init_settled (getLanguage host lang forceReload).
Proof.
  unfold getLanguage. apply preserves_bind; [apply settled_waitForInit|]. intros _.
  destruct (String.eqb lang ""); [apply preserves_throw|].
  apply preserves_bind; [apply preserves_gets|]. intros cached.
  destruct (if forceReload then None else cached); [apply preserves_ret|].
  apply preserves_try_catch.
  - apply preserves_bind; [apply settled_in_world|].
    intros [l|]; [|apply preserves_ret].
    apply preserves_bind; [apply settled_modify; reflexivity | intros _; apply preserves_ret].
  - intros e. apply preserves_bind; [apply settled_modify; reflexivity|].
    intros _. apply preserves_ret.
Qed.

Lemma settled_createParser lang : preserves init_settled (createParser host lang).
Proof.
  unfold createParser. apply preserves_bind; [apply settled_waitForInit|]. intros _.
  apply preserves_bind; [apply settled_getLanguage|]. intros language.
  apply preserves_bind.
  - destruct language as [l|]; [|apply preserves_ret].
    apply preserves_bind; [apply settled_in_world | intros o; apply preserves_ret].
  - intros [g|]; [|apply preserves_throw].
    apply preserves_bind.
    + unfold new_Parser. destruct (engine_init host); [|apply preserves_throw].
      intros sys H. exact H.
    + intros p0. apply preserves_bind; [|intros p1; apply preserves_ret].
      unfold setLanguage. destruct (engine_compatible host g);
        [apply preserves_ret | apply preserves_throw].
Qed.

(** With an options object, [parse] first awaits the initialization. *)
Lemma parse_awaits_init lang code forceReload sys :
  init_settled (snd (parse host lang code (opt_object forceReload) sys)).
Proof.
  unfold parse.
  pose proof (waitForInit_settles sys) as H.
  unfold bind at 1. destruct (waitForInit host sys) as [[v|e] sys1]; [|exact H].
  simpl in H. revert sys1 H. apply preserves_try_catch.
  - apply preserves_bind; [apply preserves_gets|]. intros cached.
    destruct (if default false forceReload then None else cached); [apply preserves_ret|].
    destruct (negb _ && _); [apply preserves_throw|].
    apply preserves_bind; [apply settled_createParser|]. intros p.
    apply preserves_bind; [apply settled_modify; reflexivity | intros _; apply preserves_ret].
  - intros e. apply preserves_bind; [apply settled_modify; reflexivity|].
    intros _. apply preserves_throw.
Qed.
End WithHost.
End ParseFacts.

(** C10 -- The options argument of [parse] is required.  Called with
    [undefined] in its place, [parse] throws a [TypeError] and the state of
    the system is the one before the call: the initialization has not been
    awaited, no parser looked up or created, no event emitted.  The same
    holds for [null].  Called with an object, [{}] included, it behaves as
    with [forceReload = false] and does await the initialization. *)
Theorem parse_requires_options (host : Host) (lang code : string) (sys : System) :
  TreeSitterAPI.parse host lang code opt_undefined sys =
    (Throw (TypeError
       "Cannot destructure property 'forceReload' of 'undefined' as it is undefined."),
     sys) /\
  (exists message,
      TreeSitterAPI.parse host lang code opt_null sys = (Throw (TypeError message), sys)) /\
  TreeSitterAPI.parse host lang code (opt_object None) sys =
    TreeSitterAPI.parse host lang code (opt_object (Some false)) sys /\
  (forall forceReload,
      init_settled (snd (TreeSitterAPI.parse host lang code (opt_object forceReload) sys))).
Proof.
  split; [reflexivity|]. split; [eexists; reflexivity|]. split; [reflexivity|].
  intros forceReload. apply ParseFacts.parse_awaits_init.
Qed.

(** * More on the tree of files *)

Module TreeFacts.
Import Fs.

Lemma alter_path_cons2 f x y q children :
  alter_path f (x :: y :: q) (Dir children) =
    Dir (alter (alter_path f (y :: q)) x children).
Proof. reflexivity. Qed.

(** An alteration at [q] is not seen from a location apart from [q]. *)
Lemma lookup_alter_path_apart f q : forall p n,
  apart p q -> lookup_path p (alter_path f q n) = lookup_path p n.
Proof.
  induction q as [|x q IH]; intros p n [Hpq Hqp].
  - reflexivity.
  - destruct n as [d|children]; [destruct q; reflexivity|].
    destruct p as [|z p]; [exfalso; apply Hpq, prefix_nil|].
    destruct (decide (z = x)) as [->|Hzx].
    + assert (Hapart : apart p q).
      { split; intros H; [apply Hpq | apply Hqp]; apply prefix_cons, H. }
      destruct q as [|y q].
      * exfalso. apply Hqp. apply prefix_cons, prefix_nil.
      * rewrite alter_path_cons2. simpl lookup_path.
        rewrite lookup_alter_eq. destruct (children !! x) as [c|]; [|reflexivity].
        simpl. apply IH, Hapart.
    + destruct q as [|y q].
      * simpl. rewrite lookup_partial_alter_ne by congruence. reflexivity.
      * rewrite alter_path_cons2. simpl lookup_path.
        rewrite lookup_alter_ne by congruence. reflexivity.
Qed.

(** Writing an entry at [q] removes no entry, except those strictly below
    [q]. *)
Lemma lookup_alter_path_kept f q : forall p n,
  (forall o, is_Some (f o)) ->
  (forall r, r <> [] -> p <> q ++ r) ->
  is_Some (lookup_path p n) -> is_Some (lookup_path p (alter_path f q n)).
Proof.
  induction q as [|x q IH]; intros p n Hf Hbelow Hp.
  - exact Hp.
  - destruct n as [d|children]; [destruct q; exact Hp|].
    destruct p as [|z p]; [simpl; eauto|].
    simpl in Hp.
    destruct (decide (z = x)) as [->|Hzx].
    + destruct q as [|y q].
      * simpl. rewrite lookup_partial_alter_eq.
        destruct (Hf (children !! x)) as [c Hc]. rewrite Hc. simpl.
        destruct p as [|z' p]; [simpl; eauto|].
        exfalso. apply (Hbelow (z' :: p)); [discriminate | reflexivity].
      * rewrite alter_path_cons2. simpl lookup_path. rewrite lookup_alter_eq.
        destruct (children !! x) as [c|]; [|destruct Hp; discriminate].
        simpl in *. apply IH; [exact Hf | | exact Hp].
        intros r Hr ->. apply (Hbelow r Hr). reflexivity.
    + destruct q as [|y q].
      * simpl. rewrite lookup_partial_alter_ne by congruence. exact Hp.
      * rewrite alter_path_cons2. simpl lookup_path.
        rewrite lookup_alter_ne by congruence. exact Hp.
Qed.

(** An entry written under an existing directory is found there. *)
Lemma lookup_alter_path_written x q : forall n,
  q <> [] -> (exists children, lookup_path (dirname q) n = Some (Dir children)) ->
  lookup_path q (alter_path (fun _ => Some x) q n) = Some x.
Proof.
  induction q as [|y q IH]; intros n Hq [children Hdir]; [congruence|].
  destruct q as [|z q].
  - simpl in Hdir. injection Hdir as ->. simpl. rewrite lookup_partial_alter_eq. reflexivity.
  - change (dirname (y :: z :: q)) with (y :: dirname (z :: q)) in Hdir.
    destruct n as [d|ch]; [discriminate|].
    rewrite alter_path_cons2.
    change (lookup_path (y :: z :: q) (Dir ?c)) with (c !! y ≫= lookup_path (z :: q)).
    rewrite lookup_alter_eq. simpl in Hdir.
    destruct (ch !! y) as [c|]; [|discriminate]. simpl in *.
    apply IH; [discriminate | eauto].
Qed.

(** Below a location that is apart from [p], everything is apart from [p]. *)
Lemma apart_below p q r : apart p q -> apart p (q ++ r).
Proof.
  intros [Hpq Hqp]. split; intros H.
  - destruct (prefix_weak_total p q (q ++ r) H (prefix_app_r q q r (reflexivity q)));
      contradiction.
  - apply Hqp. etransitivity; [|exact H]. apply prefix_app_r. reflexivity.
Qed.

(** An existing entry has all its ancestors. *)
Lemma lookup_path_prefix p q n :
  is_Some (lookup_path (p ++ q) n) -> is_Some (lookup_path p n).
Proof.
  rewrite FsFacts.lookup_path_app. destruct (lookup_path p n); [eauto|].
  intros [? ?]; discriminate.
Qed.
End TreeFacts.

Lemma preserves_for_of_in {S A} (I : S -> Prop) (xs : list A) (body : A -> M S unit) :
  (forall x, x ∈ xs -> preserves I (body x)) -> preserves I (for_of xs body).
Proof.
  induction xs as [|x xs IH]; intros Hbody; simpl.
  - apply preserves_ret.
  - apply preserves_bind; [apply Hbody; left|].
    intros _. apply IH. intros y Hy. apply Hbody. right. exact Hy.
Qed.

(** A bind whose continuation may rely on a property [V] of the value. *)
Lemma preserves_bind_value {S A B} (I : S -> Prop) (V : A -> Prop)
    (m : M S A) (k : A -> M S B) :
  preserves I m ->
  (forall s a s', m s = (Ok a, s') -> V a) ->
  (forall a, V a -> preserves I (k a)) ->
  preserves I (bind m k).
Proof.
  intros Hm HV Hk s Hs. specialize (Hm s Hs). unfold bind.
  destruct (m s) as [[a|e] s1] eqn:E; simpl in *.
  - apply (Hk a (HV s a s1 E)), Hm.
  - exact Hm.
Qed.

(** * What the operations of the filesystem keep *)

Module OpFacts.
Import Fs.

Section WithHost.
Variable host : Host.

(** The writing operations change the tree only. *)
Lemma createDirectory_blind (I : World -> Prop) parent name :
  fs_blind I -> preserves I (createDirectory host parent name).
Proof.
  intros HI. unfold createDirectory. apply preserves_bind; [apply preserves_get|]. intros w.
  destruct (fs_rejects host _); [apply preserves_throw|].
  destruct (lookup_path _ (fs w)) as [[d|c]|]; try apply preserves_throw.
  destruct (lookup_path _ (fs w)) as [[d'|c']|];
    first [apply preserves_throw | apply preserves_ret | idtac].
  apply preserves_modify. intros w1. apply HI.
Qed.

Lemma createFile_blind (I : World -> Prop) folder name content :
  fs_blind I -> preserves I (createFile host folder name content).
Proof.
  intros HI. unfold createFile. apply preserves_bind; [apply preserves_get|]. intros w.
  destruct (fs_rejects host _); [apply preserves_throw|].
  destruct (lookup_path _ (fs w)) as [[d|c]|]; try apply preserves_throw.
  destruct (lookup_path _ (fs w)) as [[d'|c']|]; try apply preserves_throw;
    apply preserves_modify; intros w1; apply HI.
Qed.

Lemma delete_blind (I : World -> Prop) p :
  fs_blind I -> preserves I (delete_ host p).
Proof.
  intros HI. unfold delete_. apply preserves_bind; [apply preserves_get|]. intros w.
  destruct (fs_rejects host _); [apply preserves_throw|].
  destruct p; [apply preserves_throw|].
  destruct (lookup_path _ (fs w)); [|apply preserves_throw].
  apply preserves_modify. intros w1. apply HI.
Qed.

(** A writing operation whose target is apart from [p] leaves the entry at
    [p] alone. *)
Lemma entry_is_alter p n f q :
  apart p q -> preserves (entry_is p n) (modify (set_fs (alter_path f q))).
Proof.
  intros Hapart. apply preserves_modify. intros w H. unfold entry_is. simpl.
  rewrite TreeFacts.lookup_alter_path_apart by exact Hapart. exact H.
Qed.

Lemma delete_apart p n q :
  apart p q -> preserves (entry_is p n) (delete_ host q).
Proof.
  intros Hapart. unfold delete_.
  apply preserves_bind; [apply preserves_get|]. intros w.
  destruct (fs_rejects host _); [apply preserves_throw|].
  destruct q as [|x q]; [apply preserves_throw|].
  destruct (lookup_path _ (fs w)); [|apply preserves_throw].
  apply entry_is_alter, Hapart.
Qed.

(** Creating a directory or a file removes no entry. *)
Lemma createDirectory_keeps p parent name :
  preserves (entry_exists p) (createDirectory host parent name).
Proof.
  unfold createDirectory. intros w Hp. unfold bind, get.
  destruct (fs_rejects host _); [exact Hp|].
  destruct (lookup_path (dirname _) (fs w)) as [[d|c]|]; try exact Hp.
  destruct (lookup_path (Url.join parent name) (fs w)) as [[d'|c']|] eqn:E; try exact Hp.
  simpl. unfold entry_exists. simpl.
  apply TreeFacts.lookup_alter_path_kept; [eauto | | exact Hp].
  intros r _ ->. apply TreeFacts.lookup_path_prefix in Hp.
  rewrite E in Hp. destruct Hp; discriminate.
Qed.

Lemma createFile_keeps p folder name content :
  preserves (entry_exists p) (createFile host folder name content).
Proof.
  unfold createFile. intros w Hp. unfold bind, get.
  destruct (fs_rejects host _); [exact Hp|].
  destruct (lookup_path (dirname _) (fs w)) as [[d|c]|]; try exact Hp.
  assert (Hkept : forall o, lookup_path (Url.join folder name) (fs w) = o ->
            (forall c', o <> Some (Dir c')) ->
            entry_exists p (set_fs (alter_path (fun _ => Some (File content))
                                      (Url.join folder name)) w)).
  { intros o E Ho. unfold entry_exists. simpl.
    apply TreeFacts.lookup_alter_path_kept; [eauto | | exact Hp].
    intros r Hr ->. unfold entry_exists in Hp.
    rewrite FsFacts.lookup_path_app, E in Hp.
    destruct o as [[d'|c']|]; [|exfalso; exact (Ho c' eq_refl)|destruct Hp; discriminate].
    destruct r; [exfalso; apply Hr; reflexivity|]. destruct Hp; discriminate. }
  destruct (lookup_path (Url.join folder name) (fs w)) as [[d'|c']|] eqn:E.
  - apply (Hkept _ eq_refl). discriminate.
  - exact Hp.
  - apply (Hkept _ eq_refl). discriminate.
Qed.

(** A directory that [createDirectory] has created, or found, is there. *)
Lemma createDirectory_ok parent name w w' :
  createDirectory host parent name w = (Ok tt, w') ->
  exists children, lookup_path (Url.join parent name) (fs w') = Some (Dir children).
Proof.
  unfold createDirectory, bind, get. destruct (fs_rejects host _); [discriminate|].
  destruct (lookup_path (dirname _) (fs w)) as [[d|c]|] eqn:Edir; try discriminate.
  destruct (lookup_path (Url.join parent name) (fs w)) as [[d'|c']|] eqn:E;
    try discriminate; intros [= <-].
  - eauto.
  - exists ∅. simpl. apply TreeFacts.lookup_alter_path_written; [|eauto].
    intros Hnil. rewrite Hnil in E. simpl in E. discriminate.
Qed.
End WithHost.
End OpFacts.

(** * What the installer writes, and where *)

Module InstallFacts.
Import Manager.

Section Alter.
Variable host : Host.
Variables (root : path) (I : World -> Prop).
Hypothesis Halter : forall f q w, root `prefix_of` q -> I w -> I (set_fs (Fs.alter_path f q) w).

Lemma createDirectory_under parent name :
  root `prefix_of` Url.join parent name ->
  preserves I (Fs.createDirectory host parent name).
Proof.
  intros Hroot. unfold Fs.createDirectory.
  apply preserves_bind; [apply preserves_get|]. intros w.
  destruct (fs_rejects host _); [apply preserves_throw|].
  destruct (Fs.lookup_path _ (fs w)) as [[d|c]|]; try apply preserves_throw.
  destruct (Fs.lookup_path _ (fs w)) as [[d'|c']|];
    first [apply preserves_throw | apply preserves_ret | idtac].
  apply preserves_modify. intros w1. apply Halter, Hroot.
Qed.

Lemma createFile_under folder name content :
  root `prefix_of` folder ->
  preserves I (Fs.createFile host folder name content).
Proof.
  intros Hroot.
  assert (Htarget : root `prefix_of` Url.join folder name).
  { etransitivity; [exact Hroot|]. apply prefix_app_r. reflexivity. }
  unfold Fs.createFile.
  apply preserves_bind; [apply preserves_get|]. intros w.
  destruct (fs_rejects host _); [apply preserves_throw|].
  destruct (Fs.lookup_path _ (fs w)) as [[d|c]|]; try apply preserves_throw.
  destruct (Fs.lookup_path _ (fs w)) as [[d'|c']|]; try apply preserves_throw;
    apply preserves_modify; intros w1; apply Halter, Htarget.
Qed.

Lemma delete_under q :
  root `prefix_of` q -> preserves I (Fs.delete_ host q).
Proof.
  intros Hroot. unfold Fs.delete_.
  apply preserves_bind; [apply preserves_get|]. intros w.
  destruct (fs_rejects host _); [apply preserves_throw|].
  destruct q as [|x q]; [apply preserves_throw|].
  destruct (Fs.lookup_path _ (fs w)); [|apply preserves_throw].
  apply preserves_modify. intros w1. apply Halter, Hroot.
Qed.

End Alter.

Section Under.
Variable host : Host.
Variables (root : path) (I : World -> Prop).
Hypothesis Hlog : forall url w, I w -> I (log_request url w).
Hypothesis Hdir : forall parent name,
  root `prefix_of` Url.join parent name -> preserves I (Fs.createDirectory host parent name).
Hypothesis Hfile : forall folder name content,
  root `prefix_of` folder -> preserves I (Fs.createFile host folder name content).

Lemma _fetch_under url : preserves I (_fetch host url).
Proof.
  unfold _fetch. apply preserves_bind; [apply preserves_modify, Hlog|]. intros _.
  destruct (http_get host url); [apply preserves_ret | apply preserves_throw].
Qed.

Lemma _downloadFile_under url folder :
  root `prefix_of` folder -> preserves I (_downloadFile host url folder).
Proof.
  intros Hroot. unfold _downloadFile.
  apply preserves_try_catch; [|intros e; apply preserves_throw].
  apply preserves_bind; [apply preserves_modify, Hlog|]. intros _.
  apply preserves_bind.
  - destruct (remote_read host url _) as [[c|]| |];
      first [apply preserves_ret | apply preserves_throw].
  - intros content. apply preserves_bind; [apply Hfile, Hroot|].
    intros _. apply preserves_ret.
Qed.

(** The loop of [_download] over the wanted items. *)
Lemma download_items_under lang items (globalMeta : GlobalMeta)
    (meta_files : list ManifestEntry) :
  (forall item, item ∈ items -> root `prefix_of` dest item) ->
  preserves I
    (for_of items (fun item =>
       let pattern := pattern item in
       let isDirectory := endsWith pattern "/" in
       let! dest :=
         if isDirectory
         then Fs.createDirectory host (dest item) (slice_but_last pattern) ;;;
              ret (Url.join (dest item) pattern)
         else ret (dest item) in
       let! matchingFiles :=
         of_result (filter_files (prefix globalMeta) pattern meta_files) in
       let baseUrl := buildUrl lang "" (version globalMeta) in
       for_of matchingFiles (fun file =>
         let fileUrl := Url.join_url baseUrl [snd file] in
         _downloadFile host fileUrl dest ;;; ret tt))).
Proof.
  intros Hitems.
  apply preserves_for_of_in. intros item Hitem. specialize (Hitems item Hitem).
  assert (Hsub : root `prefix_of` Url.join (dest item) (pattern item)).
  { etransitivity; [exact Hitems|]. apply prefix_app_r. reflexivity. }
  assert (Hsub' : root `prefix_of` Url.join (dest item) (slice_but_last (pattern item))).
  { etransitivity; [exact Hitems|]. apply prefix_app_r. reflexivity. }
  apply (preserves_bind_value I (fun d => root `prefix_of` d)).
  - destruct (endsWith (pattern item) "/"); [|apply preserves_ret].
    apply preserves_bind; [apply Hdir, Hsub'|].
    intros _. apply preserves_ret.
  - intros w d w'. destruct (endsWith (pattern item) "/").
    + intros H. apply bind_inv_ok in H as ([] & w1 & _ & H). injection H as <- _.
      exact Hsub.
    + intros [= <- _]. exact Hitems.
  - intros dest_ Hdest.
    apply preserves_bind; [apply preserves_of_result|]. intros matchingFiles.
    apply preserves_for_of. intros file.
    apply preserves_bind; [|intros _; apply preserves_ret].
    apply _downloadFile_under, Hdest.
Qed.

Lemma _download_under lang items :
  (forall item, item ∈ items -> root `prefix_of` dest item) ->
  preserves I (_download host lang items).
Proof.
  intros Hitems. unfold _download.
  apply preserves_try_catch; [|intros e; apply preserves_throw].
  apply preserves_bind; [apply _fetch_under|]. intros response.
  destruct (negb _); [apply preserves_throw|].
  destruct (JSON_parse host _) as [globalMeta|]; [|apply preserves_throw].
  destruct (files globalMeta) as [meta_files|]; [|apply preserves_throw].
  apply preserves_bind; [|intros _; apply preserves_ret].
  apply download_items_under, Hitems.
Qed.

(** [installLanguage], for an invariant that entries at or below the
    package directory do not affect. *)
Lemma installLanguage_under lang :
  root = langPath host lang ->
  preserves I (Fs.delete_ host (langPath host lang)) ->
  preserves I (installLanguage host lang).
Proof.
  intros Hroot Hdel. unfold installLanguage. fold (langPath host lang).
  assert (Hpre : root `prefix_of` langPath host lang) by (rewrite Hroot; reflexivity).
  apply preserves_bind; [apply preserves_gets|]. intros present.
  destruct present; [apply preserves_ret|].
  apply preserves_try_catch.
  - apply preserves_bind; [apply Hdir; exact Hpre|]. intros _.
    apply preserves_bind; [|intros b; apply preserves_ret].
    apply _download_under. intros item Hitem.
    repeat (apply elem_of_cons in Hitem as [->|Hitem]; [exact Hpre|]). inversion Hitem.
  - intros e. apply preserves_bind; [apply preserves_gets|]. intros present.
    apply preserves_bind; [|intros _; apply preserves_throw].
    destruct present; [exact Hdel | apply preserves_ret].
Qed.

End Under.

Lemma uninstallLanguage_preserves host (I : World -> Prop) lang :
  preserves I (Fs.delete_ host (langPath host lang)) ->
  preserves I (uninstallLanguage host lang).
Proof.
  intros Hdel. unfold uninstallLanguage. fold (langPath host lang).
  apply preserves_bind; [apply preserves_gets|]. intros present.
  destruct (negb present); [apply preserves_ret|].
  apply preserves_try_catch; [|intros e; apply preserves_throw].
  apply preserves_bind; [exact Hdel|]. intros _. apply preserves_ret.
Qed.

(** The entry at a location apart from the package directory, and the
    store of handles, through an install. *)
Lemma installLanguage_apart host lang p n :
  apart p (langPath host lang) ->
  preserves (entry_is p n) (installLanguage host lang).
Proof.
  intros Hapart.
  assert (Halter : forall f q w, langPath host lang `prefix_of` q ->
            entry_is p n w -> entry_is p n (set_fs (Fs.alter_path f q) w)).
  { intros f q w [r ->] H. unfold entry_is. simpl.
    rewrite TreeFacts.lookup_alter_path_apart; [exact H|].
    apply TreeFacts.apart_below, Hapart. }
  apply (installLanguage_under host (langPath host lang)); try reflexivity.
  - intros url w H. exact H.
  - intros parent name. apply createDirectory_under, Halter.
  - intros folder name content. apply createFile_under, Halter.
  - apply (delete_under host (langPath host lang)); [exact Halter | reflexivity].
Qed.

(** What does not look at the tree and is kept by a request is kept by an
    install. *)
Lemma installLanguage_blind host lang (I : World -> Prop) :
  fs_blind I -> (forall url w, I w -> I (log_request url w)) ->
  preserves I (installLanguage host lang).
Proof.
  intros Hblind Hlog.
  apply (installLanguage_under host (langPath host lang)); try reflexivity.
  - exact Hlog.
  - intros parent name _. apply OpFacts.createDirectory_blind, Hblind.
  - intros folder name content _. apply OpFacts.createFile_blind, Hblind.
  - apply OpFacts.delete_blind, Hblind.
Qed.

(** What does not look at the tree and is kept by a request is kept by the
    loop of [_download]. *)
Lemma download_items_blind host lang items globalMeta meta_files (I : World -> Prop) :
  fs_blind I -> (forall url w, I w -> I (log_request url w)) ->
  preserves I
    (for_of items (fun item =>
       let pattern := pattern item in
       let isDirectory := endsWith pattern "/" in
       let! dest :=
         if isDirectory
         then Fs.createDirectory host (dest item) (slice_but_last pattern) ;;;
              ret (Url.join (dest item) pattern)
         else ret (dest item) in
       let! matchingFiles :=
         of_result (filter_files (prefix globalMeta) pattern meta_files) in
       let baseUrl := buildUrl lang "" (version globalMeta) in
       for_of matchingFiles (fun file =>
         let fileUrl := Url.join_url baseUrl [snd file] in
         _downloadFile host fileUrl dest ;;; ret tt))).
Proof.
  intros Hblind Hlog.
  apply (download_items_under host [] I Hlog).
  - intros parent name _. apply OpFacts.createDirectory_blind, Hblind.
  - intros folder name content _. apply OpFacts.createFile_blind, Hblind.
  - intros item _. apply prefix_nil.
Qed.

(** [_download] removes no entry. *)
Lemma _download_keeps host lang items p :
  preserves (entry_exists p) (_download host lang items).
Proof.
  apply (_download_under host [] (entry_exists p)).
  - intros url w H. exact H.
  - intros parent name _. apply OpFacts.createDirectory_keeps.
  - intros folder name content _. apply OpFacts.createFile_keeps.
  - intros item _. apply prefix_nil.
Qed.

(** The run of an [installLanguage] that returns [true]. *)
Lemma installLanguage_true_run host lang w w' :
  installLanguage host lang w = (Ok true, w') ->
  Fs.lookup_path (langPath host lang) (fs w) = None /\
  exists w1,
    Fs.createDirectory host (TREE_SITTER_PATH host) lang w = (Ok tt, w1) /\
    entry_exists (langPath host lang) w'.
Proof.
  unfold installLanguage. fold (langPath host lang). intros H.
  apply bind_inv_ok in H as (present & w0 & Hex & H).
  rewrite FsFacts.exists_run in Hex. injection Hex as <- <-.
  destruct (bool_decide _) eqn:Hpresent; [discriminate|].
  apply bool_decide_eq_false in Hpresent.
  split.
  { destruct (Fs.lookup_path _ (fs w)); [exfalso; apply Hpresent; eauto | reflexivity]. }
  apply try_catch_inv_ok in H.
  - apply bind_inv_ok in H as ([] & w1 & Hdir & H).
    apply bind_inv_ok in H as (success & w2 & Hdl & Hret). injection Hret as -> ->.
    exists w1. split; [exact Hdir|].
    match type of Hdl with _download _ _ ?items _ = _ =>
      pose proof (_download_keeps host lang items (langPath host lang) w1) as Hkeep end.
    rewrite Hdl in Hkeep. apply Hkeep.
    destruct (OpFacts.createDirectory_ok host _ _ _ _ Hdir) as [children Hc].
    unfold entry_exists. fold (langPath host lang) in Hc. rewrite Hc. eauto.
  - intros e s1. unfold bind. rewrite FsFacts.exists_run.
    destruct (bool_decide _); [|reflexivity].
    destruct (Fs.delete_ host _ s1) as [[[]|e'] s2]; reflexivity.
Qed.
End InstallFacts.

(** * Failures, frame and composition of [loadGrammar] *)

Module LoadFailureFacts.
Import Language.

Lemma loadGrammar_no_module host l o s :
  heap s !! l = Some o -> grammar o = None -> truthy (wasm o) = false ->
  loadGrammar host l s =
    (Throw (Error ("No WASM file available for language '" +:+ name o +:+ "'")), s).
Proof.
  intros Hl Hg Ht. unfold loadGrammar.
  rewrite (bind_ok _ _ s o s) by (apply LanguageFacts.this_handle; exact Hl).
  rewrite Hg, Ht. reflexivity.
Qed.

Lemma loadGrammar_refused host l o s :
  heap s !! l = Some o -> grammar o = None -> truthy (wasm o) = true ->
  engine_accepts host (bytes_of (_toArrayBuffer host (wasm o))) = false ->
  loadGrammar host l s =
    (Throw (Error ("Failed to load grammar for language '" +:+ name o +:+ "': "
                   +:+ "Language.load failed")),
     {| heap := heap s; loads := S (loads s) |}).
Proof.
  intros Hl Hg Ht Hacc. unfold loadGrammar.
  rewrite (bind_ok _ _ s o s) by (apply LanguageFacts.this_handle; exact Hl).
  rewrite Hg, Ht. simpl. unfold try_catch, bind, Parser_Language_load.
  rewrite Hacc. reflexivity.
Qed.
End LoadFailureFacts.



(** X2 -- Frame of [loadGrammar]: however it ends, it writes nothing but
    the compiled-grammar slot of the handle it is called on.  The name,
    config, module content, queries and extensions of that handle and every
    other handle of the store are as before; the slot holds the grammar that
    was returned, or stays empty when the call failed; the engine's loader
    is called at most once. *)
Theorem loadGrammar_frame (host : Host) (s : Language.Store) (l : Language.loc)
    (o : Language.Instance) :
  Language.heap s !! l = Some o ->
  exists r s' o',
    Language.loadGrammar host l s = (r, s') /\
    Language.heap s' !! l = Some o' /\
    Language.name o' = Language.name o /\
    Language.config o' = Language.config o /\
    Language.wasm o' = Language.wasm o /\
    Language.queries o' = Language.queries o /\
    Language.extensions o' = Language.extensions o /\
    (forall g, r = Ok g -> Language.grammar o' = Some g) /\
    (forall e, r = Throw e -> Language.grammar o' = None) /\
    (forall l', l' <> l -> Language.heap s' !! l' = Language.heap s !! l') /\
    Language.loads s <= Language.loads s' <= S (Language.loads s).
Proof.
  intros Hl.
  destruct (Language.grammar o) as [g|] eqn:Hg.
  { exists (Ok g), s, o.
    split; [apply (LanguageFacts.loadGrammar_cached host l o g s Hl Hg)|].
    do 6 (split; [first [reflexivity | assumption]|]).
    split; [intros g' [= <-]; exact Hg|].
    split; [intros e; discriminate|].
    split; [reflexivity | lia]. }
  destruct (truthy (Language.wasm o)) eqn:Ht.
  - destruct (engine_accepts host
                (Language.bytes_of (Language._toArrayBuffer host (Language.wasm o))))
      eqn:Hacc.
    + eexists _, _, _.
      split; [apply (LanguageFacts.loadGrammar_fresh host l o s Hl Hg Ht Hacc)|].
      split; [apply (LanguageFacts.heap_update_eq l _ o); exact Hl|].
      do 5 (split; [reflexivity|]).
      split; [intros g' [= <-]; reflexivity|].
      split; [intros e; discriminate|].
      split; [|simpl; lia].
      intros l' Hne. simpl. apply lookup_alter_ne. congruence.
    + eexists _, _, o.
      split; [apply (LoadFailureFacts.loadGrammar_refused host l o s Hl Hg Ht Hacc)|].
      do 6 (split; [first [reflexivity | assumption]|]).
      split; [intros g; discriminate|].
      split; [intros e _; exact Hg|].
      split; [reflexivity | simpl; lia].
  - eexists _, s, o.
    split; [apply (LoadFailureFacts.loadGrammar_no_module host l o s Hl Hg Ht)|].
    do 6 (split; [first [reflexivity | assumption]|]).
    split; [intros g; discriminate|].
    split; [intros e _; exact Hg|].
    split; [reflexivity | lia].
Qed.

Lemma loadGrammar_frame_witness :
  Language.heap Examples.store_foo !! 1 = Some Examples.handle_foo_bar /\
  exists r s',
    Language.loadGrammar Examples.host_ok 1 Examples.store_foo = (r, s') /\
    Language.heap s' !! 0 = Some Examples.handle_foo.
Proof.
  assert (H1 : Language.heap Examples.store_foo !! 1 = Some Examples.handle_foo_bar)
    by reflexivity.
  split; [exact H1|].
  destruct (loadGrammar_frame Examples.host_ok _ _ _ H1)
    as (r & s' & o' & Hrun & _ & _ & _ & _ & _ & _ & _ & _ & Hframe & _).
  exists r, s'. split; [exact Hrun|].
  etransitivity; [apply (Hframe 0); discriminate | reflexivity].
Defined.

(** * The constructor without a map of modules *)

(** X3 -- The constructor on something that is not a map of module files.
    Given a binary buffer, a handle that is not an extension keeps the buffer
    as its module and gets an empty extensions mapping; given [undefined] it
    throws a [TypeError], since the keys of the module content are
    enumerated; an extension handle ([isExtension = true]) is never scanned:
    whatever the content, it is stored as it is, with no extensions mapping,
    and the constructor does not throw. *)
Theorem new_Language_without_module_map (host : Host) (n : string) (cfg : Json)
    (q : gmap string string) (s : Language.Store) :
  let l := fresh (dom (Language.heap s)) in
  (forall b,
      Language.new_Language host n cfg (JsArrayBuffer b) q false s =
        (Ok l, Language.set_heap
                 (insert l {| Language.name := n; Language.config := cfg;
                              Language.wasm := JsArrayBuffer b; Language.queries := q;
                              Language.grammar := None;
                              Language.extensions := Some ∅ |}) s)) /\
  fst (Language.new_Language host n cfg JsUndefined q false s)
    = Throw (TypeError "Cannot convert undefined or null to object") /\
  (forall v,
      Language.new_Language host n cfg v q true s =
        (Ok l, Language.set_heap
                 (insert l {| Language.name := n; Language.config := cfg;
                              Language.wasm := v; Language.queries := q;
                              Language.grammar := None;
                              Language.extensions := None |}) s)).
Proof.
  intros l. split; [|split].
  - intros b. unfold Language.new_Language, Language.construct.
    unfold bind at 1. unfold Language.alloc at 1. fold l. js_step.
    unfold bind at 1. unfold Language.initializeExtensions_with.
    erewrite bind_ok; [|apply LanguageFacts.this_handle; simpl; apply lookup_insert_eq].
    reflexivity.
  - unfold Language.new_Language, Language.construct.
    unfold bind at 1. unfold Language.alloc at 1. fold l. js_step.
    unfold bind at 1. unfold Language.initializeExtensions_with.
    erewrite bind_ok; [|apply LanguageFacts.this_handle; simpl; apply lookup_insert_eq].
    reflexivity.
  - intros v. apply ConstructorFacts.construct_extension.
Qed.

(** * Constructed handles and the engine *)

Module ModuleFacts.
Import Language.




End ModuleFacts.




(** * Queries of constructed handles *)

Module QueryFacts.
Import Language.

End QueryFacts.


(** * Installing and uninstalling are local *)

(** X7 -- Installing or uninstalling a package touches nothing outside its
    directory.  However [installLanguage lang] or [uninstallLanguage lang]
    ends (a result, or an error after a partial download and its clean-up),
    the entry at every location that is neither inside the package directory
    of [lang] nor above it is what it was, no handle of the store is changed,
    the requests sent before are still on record, and an uninstall sends no
    request at all. *)
Theorem package_operations_are_local (host : Host) (lang : string) (p : path) (w : World) :
  apart p (Manager.langPath host lang) ->
  (Fs.lookup_path p (fs (snd (Manager.installLanguage host lang w))) = Fs.lookup_path p (fs w) /\
   store (snd (Manager.installLanguage host lang w)) = store w /\
   requests w `prefix_of` requests (snd (Manager.installLanguage host lang w))) /\
  (Fs.lookup_path p (fs (snd (Manager.uninstallLanguage host lang w)))
     = Fs.lookup_path p (fs w) /\
   store (snd (Manager.uninstallLanguage host lang w)) = store w /\
   requests (snd (Manager.uninstallLanguage host lang w)) = requests w).
Proof.
  intros Hapart. split; [split; [|split] | split; [|split]].
  - apply (InstallFacts.installLanguage_apart host lang p (fs w) Hapart w). reflexivity.
  - apply (InstallFacts.installLanguage_blind host lang (fun w' => store w' = store w)).
    + intros f w1 H. exact H.
    + intros url w1 H. exact H.
    + reflexivity.
  - apply (InstallFacts.installLanguage_blind host lang
             (fun w' => requests w `prefix_of` requests w')).
    + intros f w1 H. exact H.
    + intros url w1 H. simpl. etransitivity; [exact H | apply prefix_app_r; reflexivity].
    + reflexivity.
  - apply (InstallFacts.uninstallLanguage_preserves host (entry_is p (fs w)) lang);
      [|reflexivity].
    apply OpFacts.delete_apart, Hapart.
  - apply (InstallFacts.uninstallLanguage_preserves host (fun w' => store w' = store w) lang);
      [|reflexivity].
    apply OpFacts.delete_blind. intros f w1 H. exact H.
  - apply (InstallFacts.uninstallLanguage_preserves host
             (fun w' => requests w' = requests w) lang); [|reflexivity].
    apply OpFacts.delete_blind. intros f w1 H. exact H.
Qed.

Lemma package_operations_are_local_witness :
  apart ["data"; "tree-sitter"; "json"] (Manager.langPath Examples.host_timeout "foo") /\
  Fs.lookup_path ["data"; "tree-sitter"; "json"]
    (fs (snd (Manager.installLanguage Examples.host_timeout "foo" Examples.world_json)))
    = Some Examples.package_json /\
  Fs.lookup_path ["data"; "tree-sitter"; "json"]
    (fs (snd (Manager.uninstallLanguage Examples.host_timeout "foo" Examples.world_json)))
    = Some Examples.package_json.
Proof.
  assert (H : apart ["data"; "tree-sitter"; "json"]
                (Manager.langPath Examples.host_timeout "foo")).
  { split; intros [k Hk]; vm_compute in Hk; discriminate Hk. }
  split; [exact H|].
  destruct (package_operations_are_local Examples.host_timeout "foo" _ Examples.world_json H)
    as [(Hi & _ & _) (Hu & _ & _)].
  split; [rewrite Hi | rewrite Hu]; reflexivity.
Defined.

(** X8 -- A successful install makes the package available.  When
    [installLanguage lang] returns [true], there was no entry at the package
    directory of [lang] before and there is one now, so
    [isLanguageAvailable lang] returns [true] and installing [lang] again
    returns [false] without changing anything. *)
Theorem install_success_is_available (host : Host) (lang : string) (w w' : World) :
  Manager.installLanguage host lang w = (Ok true, w') ->
  Manager.isLanguageAvailable host lang w = (Ok false, w) /\
  Manager.isLanguageAvailable host lang w' = (Ok true, w') /\
  Manager.installLanguage host lang w' = (Ok false, w').
Proof.
  intros H. destruct (InstallFacts.installLanguage_true_run host lang w w' H)
    as (Habsent & w1 & _ & Hpresent).
  rewrite !ManagerFacts.isLanguageAvailable_run.
  rewrite Habsent.
  rewrite (bool_decide_eq_true_2 _ Hpresent).
  split; [|split].
  - rewrite bool_decide_eq_false_2; [reflexivity|]. intros [x Hx]. discriminate.
  - reflexivity.
  - apply ManagerFacts.installLanguage_present, Hpresent.
Qed.

Lemma install_success_is_available_witness :
  Manager.installLanguage Examples.host_ok "json" Examples.world_empty
    = (Ok true, snd (Manager.installLanguage Examples.host_ok "json" Examples.world_empty)) /\
  Manager.isLanguageAvailable Examples.host_ok "json"
    (snd (Manager.installLanguage Examples.host_ok "json" Examples.world_empty))
    = (Ok true, snd (Manager.installLanguage Examples.host_ok "json" Examples.world_empty)).
Proof.
  assert (H : Manager.installLanguage Examples.host_ok "json" Examples.world_empty
    = (Ok true, snd (Manager.installLanguage Examples.host_ok "json" Examples.world_empty))).
  { vm_compute. reflexivity. }
  split; [exact H|].
  apply (install_success_is_available Examples.host_ok "json" _ _ H).
Defined.

(** * What the manager reads *)

Module ReadFacts.
Import Manager.

Section WithHost.
Variable host : Host.

Lemma lsDir_inv p w l w' :
  Fs.lsDir host p w = (Ok l, w') ->
  w' = w /\ fs_rejects host (OpLsDir p) = false /\
  exists children,
    Fs.lookup_path p (fs w) = Some (Dir children) /\
    l = Fs.to_entry p <$> map_to_list children.
Proof.
  unfold Fs.lsDir, bind, get. destruct (fs_rejects host _); [discriminate|].
  destruct (Fs.lookup_path p (fs w)) as [[d|children]|]; try discriminate.
  intros [= <- <-]. eauto.
Qed.

Lemma lsDir_run p w children :
  fs_rejects host (OpLsDir p) = false ->
  Fs.lookup_path p (fs w) = Some (Dir children) ->
  Fs.lsDir host p w = (Ok (Fs.to_entry p <$> map_to_list children), w).
Proof. intros Hr Hl. unfold Fs.lsDir, bind, get. rewrite Hr, Hl. reflexivity. Qed.

Lemma readFile_json_inv p w j w' :
  Fs.readFile_json host p w = (Ok j, w') ->
  w' = w /\ exists d, Fs.lookup_path p (fs w) = Some (File d) /\ fs_read_json host d = Some j.
Proof.
  unfold Fs.readFile_json, bind, get. destruct (fs_rejects host _); [discriminate|].
  destruct (Fs.lookup_path p (fs w)) as [[d|children]|]; try discriminate.
  destruct (fs_read_json host d) eqn:E; [|discriminate].
  intros [= <- <-]. eauto.
Qed.

Lemma readFile_utf8_inv p w t w' :
  Fs.readFile_utf8 host p w = (Ok t, w') ->
  w' = w /\ exists d, Fs.lookup_path p (fs w) = Some (File d) /\ fs_read_text host d = Some t.
Proof.
  unfold Fs.readFile_utf8, bind, get. destruct (fs_rejects host _); [discriminate|].
  destruct (Fs.lookup_path p (fs w)) as [[d|children]|]; try discriminate.
  destruct (fs_read_text host d) eqn:E; [|discriminate].
  intros [= <- <-]. eauto.
Qed.

(** The entry of a directory listing with a given name. *)
Lemma entry_in_listing p (children : gmap string node) e :
  e ∈ Fs.to_entry p <$> map_to_list children ->
  exists k nd, children !! k = Some nd /\ e = Fs.to_entry p (k, nd).
Proof.
  intros H. apply list_elem_of_fmap in H as [[k nd] [-> Hin]].
  apply elem_of_map_to_list in Hin. exists k, nd. split; [exact Hin | reflexivity].
Qed.

Lemma listing_has_entry p (children : gmap string node) k nd :
  children !! k = Some nd -> Fs.to_entry p (k, nd) ∈ Fs.to_entry p <$> map_to_list children.
Proof.
  intros H. apply list_elem_of_fmap. exists (k, nd). split; [reflexivity|].
  apply elem_of_map_to_list, H.
Qed.

Lemma find_name_Some p (children : gmap string node) name_ e :
  List.find (fun file => String.eqb (entry_name file) name_)
            (Fs.to_entry p <$> map_to_list children) = Some e ->
  exists nd, children !! name_ = Some nd /\ e = Fs.to_entry p (name_, nd).
Proof.
  intros H. apply List.find_some in H as [Hin Hname].
  apply String.eqb_eq in Hname. apply list_elem_of_In in Hin.
  destruct (entry_in_listing p children e Hin) as (k & nd & H1 & ->).
  simpl in Hname. subst k. eauto.
Qed.

Lemma find_name_absent p (children : gmap string node) name_ :
  children !! name_ = None ->
  List.find (fun file => String.eqb (entry_name file) name_)
            (Fs.to_entry p <$> map_to_list children) = None.
Proof.
  intros H. destruct (List.find _ _) as [e|] eqn:E; [|reflexivity].
  apply find_name_Some in E as (nd & H1 & _). congruence.
Qed.

Lemma find_directory_Some p (children : gmap string node) name_ e :
  List.find (fun file => String.eqb (entry_name file) name_ && isDirectory file)
            (Fs.to_entry p <$> map_to_list children) = Some e ->
  exists c, children !! name_ = Some (Dir c) /\ entry_url e = p ++ [name_].
Proof.
  intros H. apply List.find_some in H as [Hin Hname].
  apply andb_true_iff in Hname as [Hname Hdir].
  apply String.eqb_eq in Hname. apply list_elem_of_In in Hin.
  destruct (entry_in_listing p children e Hin) as (k & nd & H1 & ->).
  simpl in Hname, Hdir. subst k.
  destruct nd as [d|c]; [discriminate|]. eauto.
Qed.

Lemma find_directory_None p (children : gmap string node) name_ c :
  List.find (fun file => String.eqb (entry_name file) name_ && isDirectory file)
            (Fs.to_entry p <$> map_to_list children) = None ->
  children !! name_ <> Some (Dir c).
Proof.
  intros H E.
  pose proof (listing_has_entry p children name_ _ E) as Hin.
  apply list_elem_of_In in Hin.
  pose proof (List.find_none _ _ H _ Hin) as Hf. simpl in Hf.
  rewrite String.eqb_refl in Hf. discriminate.
Qed.

(** The entry at a child of a directory. *)
Lemma lookup_child p n (children : gmap string node) k :
  Fs.lookup_path p n = Some (Dir children) ->
  Fs.lookup_path (p ++ [k]) n = children !! k.
Proof.
  intros H. rewrite FsFacts.lookup_path_app, H. simpl.
  destruct (children !! k); reflexivity.
Qed.

(** What [read_queries] has collected when it returns. *)
Lemma read_queries_inv files_ : forall acc w q w',
  read_queries host files_ acc w = (Ok q, w') ->
  w' = w /\
  (forall k text, q !! k = Some text ->
     acc !! k = Some text \/
     exists file, file ∈ files_ /\ entry_name file = k /\ isDirectory file = false /\
       endsWith k ".scm" = true /\
       Fs.readFile_utf8 host (entry_url file) w = (Ok text, w)) /\
  (forall k, is_Some (acc !! k) -> is_Some (q !! k)) /\
  (forall file, file ∈ files_ -> isDirectory file = false ->
     endsWith (entry_name file) ".scm" = true -> is_Some (q !! entry_name file)).
Proof.
  induction files_ as [|file rest IH]; intros acc w q w' H; simpl in H.
  - injection H as <- <-. split; [reflexivity|]. split; [auto|]. split; [auto|].
    intros file Hin. inversion Hin.
  - destruct (negb (isDirectory file) && endsWith (entry_name file) ".scm") eqn:Hsel.
    + apply bind_inv_ok in H as (content & w1 & Hread & H).
      destruct (readFile_utf8_inv _ _ _ _ Hread) as [-> _].
      destruct (IH _ _ _ _ H) as (-> & Hsound & Hkeep & Hall).
      apply andb_true_iff in Hsel as [Hd Hs]. apply negb_true_iff in Hd.
      split; [reflexivity|]. split; [|split].
      * intros k text Hk. destruct (Hsound k text Hk) as [Hacc|(f & Hf & Hrest)].
        -- destruct (decide (k = entry_name file)) as [->|Hne].
           ++ rewrite lookup_insert_eq in Hacc. injection Hacc as <-.
              right. exists file. split; [left|]. auto.
           ++ rewrite lookup_insert_ne in Hacc by congruence. left. exact Hacc.
        -- right. exists f. split; [right; exact Hf | exact Hrest].
      * intros k Hk. apply Hkeep.
        destruct (decide (k = entry_name file)) as [->|Hne].
        -- rewrite lookup_insert_eq. eauto.
        -- rewrite lookup_insert_ne by congruence. exact Hk.
      * intros f Hf Hfd Hfs. apply elem_of_cons in Hf as [->|Hf].
        -- apply Hkeep. rewrite lookup_insert_eq. eauto.
        -- apply Hall; assumption.
    + destruct (IH _ _ _ _ H) as (-> & Hsound & Hkeep & Hall).
      split; [reflexivity|]. split; [|split].
      * intros k text Hk. destruct (Hsound k text Hk) as [Hacc|(f & Hf & Hrest)].
        -- left. exact Hacc.
        -- right. exists f. split; [right; exact Hf | exact Hrest].
      * exact Hkeep.
      * intros f Hf Hfd Hfs. apply elem_of_cons in Hf as [->|Hf].
        -- rewrite Hfd, Hfs in Hsel. discriminate.
        -- apply Hall; assumption.
Qed.

(** Reading changes nothing. *)
Lemma reads_only {A} (m : M World A) w :
  (forall I : World -> Prop, preserves I m) -> snd (m w) = w.
Proof. intros H. apply (H (fun w' => w' = w) w). reflexivity. Qed.
End WithHost.
End ReadFacts.

Lemma bind_inv_throw {S A B} (m : M S A) (k : A -> M S B) s e s' :
  bind m k s = (Throw e, s') ->
  m s = (Throw e, s') \/ exists a s1, m s = (Ok a, s1) /\ k a s1 = (Throw e, s').
Proof.
  unfold bind. destruct (m s) as [[a|e0] s1]; intros H.
  - right. eauto.
  - left. injection H as -> ->. reflexivity.
Qed.

Lemma run_state {A} (m : M World A) w r w' :
  (forall I : World -> Prop, preserves I m) -> m w = (r, w') -> w' = w.
Proof.
  intros Hm H. pose proof (Hm (fun w0 => w0 = w) w eq_refl) as Hw.
  rewrite H in Hw. exact Hw.
Qed.

(** * The manager's [getLanguage] *)

Module HandleFacts.
Import Manager.

Section WithHost.
Variable host : Host.

Lemma getLanguage_None_inv lang w w' :
  getLanguage host lang w = (Ok None, w') ->
  w' = w /\ Fs.lookup_path (langPath host lang) (fs w) = None.
Proof.
  unfold getLanguage. fold (langPath host lang). intros H.
  apply bind_inv_ok in H as (present & w0 & Hex & H).
  rewrite FsFacts.exists_run in Hex. injection Hex as <- <-.
  destruct (bool_decide _) eqn:Hpresent; simpl in H.
  - exfalso. apply try_catch_inv_ok in H; [|reflexivity].
    apply bind_inv_ok in H as (files_ & w1 & _ & H).
    destruct (List.find _ files_) as [configFile|]; [|discriminate].
    apply bind_inv_ok in H as (config_ & w2 & _ & H).
    apply bind_inv_ok in H as (queries_ & w3 & _ & H).
    apply bind_inv_ok in H as (language & w4 & _ & H).
    discriminate.
  - injection H as <-. split; [reflexivity|].
    apply bool_decide_eq_false in Hpresent.
    destruct (Fs.lookup_path _ (fs w)); [exfalso; apply Hpresent; eauto | reflexivity].
Qed.

Lemma getLanguage_throw_inv lang w e w' :
  getLanguage host lang w = (Throw e, w') ->
  w' = w /\
  is_Some (Fs.lookup_path (langPath host lang) (fs w)) /\
  exists message, e = Error ("Failed to load language " +:+ lang +:+ ": " +:+ message).
Proof.
  unfold getLanguage. fold (langPath host lang). intros H.
  apply bind_inv_throw in H as [H|(present & w0 & Hex & H)].
  { rewrite FsFacts.exists_run in H. discriminate. }
  rewrite FsFacts.exists_run in Hex. injection Hex as <- <-.
  destruct (bool_decide _) eqn:Hpresent; simpl in H; [|discriminate].
  apply bool_decide_eq_true in Hpresent.
  unfold try_catch in H.
  match type of H with
  | match ?body w with _ => _ end = _ => destruct (body w) as [[r|e0] w1] eqn:Hbody
  end; [discriminate|].
  unfold throw in H. injection H as <- <-.
  split; [|split; [exact Hpresent | eauto]].
  apply bind_inv_throw in Hbody as [H|(files_ & w2 & Hls & H)].
  { exact (run_state _ _ _ _ (fun I => GetLanguageFacts.preserves_lsDir host I _) H). }
  apply (run_state _ _ _ _ (fun I => GetLanguageFacts.preserves_lsDir host I _)) in Hls as ->.
  destruct (List.find _ files_) as [configFile|]; [|injection H as _ <-; reflexivity].
  apply bind_inv_throw in H as [H|(config_ & w3 & Hcfg & H)].
  { exact (run_state _ _ _ _ (fun I => GetLanguageFacts.preserves_readFile_json host I _) H). }
  apply (run_state _ _ _ _ (fun I => GetLanguageFacts.preserves_readFile_json host I _))
    in Hcfg as ->.
  assert (Hq : forall I : World -> Prop,
            preserves I
              (match List.find (fun file => String.eqb (entry_name file) "queries"
                                            && isDirectory file) files_ with
               | Some dir =>
                   let! queryFiles := Fs.lsDir host (entry_url dir) in
                   read_queries host queryFiles ∅
               | None => ret ∅
               end)).
  { intros I. destruct (List.find _ files_) as [dir|]; [|apply preserves_ret].
    apply preserves_bind; [apply GetLanguageFacts.preserves_lsDir|].
    intros queryFiles. apply GetLanguageFacts.preserves_read_queries. }
  apply bind_inv_throw in H as [H|(queries_ & w4 & Hqs & H)].
  { exact (run_state _ _ _ _ Hq H). }
  apply (run_state _ _ _ _ Hq) in Hqs as ->.
  apply bind_inv_throw in H as [H|(language & w5 & _ & H)]; [|discriminate].
  exfalso. apply zoom_inv in H as (s' & H & _).
  match type of H with
  | Language.new_Language _ ?n ?cfg (JsObject ?m) ?q false ?s = _ =>
      destruct (ConstructorFacts.new_Language_object host n cfg m q s) as (s1 & exts & Hrun & _)
  end.
  rewrite Hrun in H. discriminate.
Qed.

(** The run of a [getLanguage] that returns a handle. *)
Lemma getLanguage_Some_inv lang w l w' :
  getLanguage host lang w = (Ok (Some l), w') ->
  exists children d cfg q s',
    Fs.lookup_path (langPath host lang) (fs w) = Some (Dir children) /\
    children !! "tree-sitter.json" = Some (File d) /\
    fs_read_json host d = Some cfg /\
    (forall k text, q !! k = Some text <->
       endsWith k ".scm" = true /\
       exists qchildren qd,
         children !! "queries" = Some (Dir qchildren) /\
         qchildren !! k = Some (File qd) /\
         fs_read_text host qd = Some text) /\
    Language.new_Language host lang cfg
      (JsObject ((fun file => (entry_name file, JsString (Url.of_path (entry_url file))))
                 <$> List.filter (fun file => endsWith (entry_name file) ".wasm")
                       (Fs.to_entry (langPath host lang) <$> map_to_list children)))
      q false (store w) = (Ok l, s') /\
    w' = set_store s' w.
Proof.
  unfold getLanguage. fold (langPath host lang). intros H.
  apply bind_inv_ok in H as (present & w0 & Hex & H).
  rewrite FsFacts.exists_run in Hex. injection Hex as <- <-.
  destruct (bool_decide _) eqn:Hpresent; simpl in H; [|discriminate].
  apply try_catch_inv_ok in H; [|reflexivity].
  apply bind_inv_ok in H as (files_ & w1 & Hls & H).
  apply ReadFacts.lsDir_inv in Hls as (-> & _ & children & Hdir & ->).
  destruct (List.find _ _) as [configFile|] eqn:Hfind in H; [|discriminate].
  apply ReadFacts.find_name_Some in Hfind as (nd & Hnd & ->).
  apply bind_inv_ok in H as (cfg & w2 & Hcfg & H).
  apply ReadFacts.readFile_json_inv in Hcfg as (-> & d & Hd & Hjson).
  simpl in Hd. rewrite (ReadFacts.lookup_child _ _ _ _ Hdir) in Hd.
  apply bind_inv_ok in H as (q & w3 & Hq & H).
  apply bind_inv_ok in H as (language & w4 & Hnew & H).
  injection H as -> ->.
  assert (Hqueries : w3 = w /\
            forall k text, q !! k = Some text <->
              endsWith k ".scm" = true /\
              exists qchildren qd,
                children !! "queries" = Some (Dir qchildren) /\
                qchildren !! k = Some (File qd) /\
                fs_read_text host qd = Some text).
  { clear Hnew. destruct (List.find _ _) as [dir|] eqn:Hqdir in Hq.
    - apply ReadFacts.find_directory_Some in Hqdir as (c & Hc & Hurl).
      apply bind_inv_ok in Hq as (queryFiles & w5 & Hls & Hq).
      apply ReadFacts.lsDir_inv in Hls as (-> & _ & qchildren & Hqc & ->).
      rewrite Hurl, (ReadFacts.lookup_child _ _ _ _ Hdir), Hc in Hqc.
      injection Hqc as <-.
      assert (Hqp : Fs.lookup_path (entry_url dir) (fs w) = Some (Dir c)).
      { rewrite Hurl, (ReadFacts.lookup_child _ _ _ _ Hdir). exact Hc. }
      apply ReadFacts.read_queries_inv in Hq as (-> & Hsound & _ & Hall).
      split; [reflexivity|].
      assert (Hto : forall k text, q !! k = Some text ->
                endsWith k ".scm" = true /\
                exists qd, c !! k = Some (File qd) /\ fs_read_text host qd = Some text).
      { intros k text Hk. destruct (Hsound k text Hk) as [Hacc|(file & Hin & Hn & _ & Hs & Hread)].
        { rewrite lookup_empty in Hacc. discriminate. }
        split; [exact Hs|].
        apply ReadFacts.entry_in_listing in Hin as (k' & nd' & Hnd' & ->).
        simpl in Hn, Hread. subst k'.
        apply ReadFacts.readFile_utf8_inv in Hread as (_ & qd & Hqd & Htext).
        rewrite (ReadFacts.lookup_child _ _ _ _ Hqp) in Hqd.
        exists qd. split; assumption. }
      intros k text. split.
      + intros Hk. destruct (Hto k text Hk) as (Hs & qd & H1 & H2).
        split; [exact Hs|]. exists c, qd. auto.
      + intros (Hs & qchildren & qd & H1 & H2 & H3).
        rewrite Hc in H1. injection H1 as <-.
        destruct (Hall (Fs.to_entry (entry_url dir) (k, File qd))) as [text' Ht'].
        * apply ReadFacts.listing_has_entry, H2.
        * reflexivity.
        * exact Hs.
        * simpl in Ht'. destruct (Hto k text' Ht') as (_ & qd' & H1' & H2').
          rewrite H2 in H1'. injection H1' as <-. congruence.
    - injection Hq as <- <-. split; [reflexivity|].
      intros k text. split.
      + rewrite lookup_empty. discriminate.
      + intros (_ & qchildren & qd & H1 & _). exfalso.
        exact (ReadFacts.find_directory_None _ _ _ _ Hqdir H1). }
  destruct Hqueries as [-> Hqueries].
  apply zoom_inv in Hnew as (s' & Hnew & ->).
  exists children, d, cfg, q, s'.
  split; [exact Hdir|]. split; [congruence|]. split; [exact Hjson|].
  split; [exact Hqueries|]. split; [exact Hnew | reflexivity].
Qed.
End WithHost.
End HandleFacts.

(** X9 -- The manager's [getLanguage] only reads.  However it ends, the
    files and the requests on record are what they were, the engine's loader
    has not been called and every handle that existed is unchanged (a
    returned handle is a new one); when it throws or finds no package, the
    world is exactly as before. *)
Theorem getLanguage_reads_only (host : Host) (lang : string) (w : World) :
  exists r w',
    Manager.getLanguage host lang w = (r, w') /\
    fs w' = fs w /\
    requests w' = requests w /\
    Language.loads (store w') = Language.loads (store w) /\
    (forall l, is_Some (Language.heap (store w) !! l) ->
       Language.heap (store w') !! l = Language.heap (store w) !! l) /\
    (forall l, r = Ok (Some l) ->
       Language.heap (store w) !! l = None /\ is_Some (Language.heap (store w') !! l)) /\
    (r = Ok None \/ (exists e, r = Throw e) -> w' = w).
Proof.
  destruct (Manager.getLanguage host lang w) as [r w'] eqn:H. exists r, w'.
  split; [reflexivity|]. destruct r as [[l|]|e].
  - apply HandleFacts.getLanguage_Some_inv in H
      as (children & d & cfg & q & s' & _ & _ & _ & _ & Hnew & ->).
    match type of Hnew with
    | Language.new_Language _ ?n ?c (JsObject ?m) ?q0 false ?s = _ =>
        destruct (ConstructorFacts.new_Language_object host n c m q0 s)
          as (s1 & exts & Hrun & Hl & Hloads & Hkeep & _)
    end.
    rewrite Hrun in Hnew. injection Hnew as <- <-. simpl.
    do 2 (split; [reflexivity|]). split; [exact Hloads|]. split; [exact Hkeep|].
    split.
    + intros l0 [= <-]. split; [apply ConstructorFacts.fresh_unused | rewrite Hl; eauto].
    + intros [Hr|[e Hr]]; discriminate.
  - apply HandleFacts.getLanguage_None_inv in H as [-> _].
    do 4 (split; [reflexivity|]). split; [intros l; discriminate | reflexivity].
  - apply HandleFacts.getLanguage_throw_inv in H as [-> _].
    do 4 (split; [reflexivity|]). split; [intros l; discriminate | reflexivity].
Qed.

(** X10 -- Failures of the manager's [getLanguage].  It returns [undefined]
    exactly when there is no entry at the package directory.  Every error it
    throws is an [Error] whose message starts with "Failed to load language
    <lang>: ", and the world is then unchanged.  For a package directory
    that can be listed and holds no [tree-sitter.json], the message is
    "Failed to load language <lang>: Missing tree-sitter.json for language
    <lang>". *)
Theorem getLanguage_failures (host : Host) (lang : string) (w : World) :
  (Manager.getLanguage host lang w = (Ok None, w) <->
   Fs.lookup_path (Manager.langPath host lang) (fs w) = None) /\
  (forall e w',
      Manager.getLanguage host lang w = (Throw e, w') ->
      w' = w /\
      exists message,
        e = Error ("Failed to load language " +:+ lang +:+ ": " +:+ message)) /\
  (forall children,
      Fs.lookup_path (Manager.langPath host lang) (fs w) = Some (Dir children) ->
      children !! "tree-sitter.json" = None ->
      fs_rejects host (OpLsDir (Manager.langPath host lang)) = false ->
      Manager.getLanguage host lang w =
        (Throw (Error ("Failed to load language " +:+ lang
                       +:+ ": Missing tree-sitter.json for language " +:+ lang)), w)).
Proof.
  split; [|split].
  - split.
    + intros H. apply HandleFacts.getLanguage_None_inv in H as [_ H]. exact H.
    + intros H. unfold Manager.getLanguage. fold (Manager.langPath host lang).
      rewrite (bind_ok _ _ w false w); [reflexivity|].
      rewrite FsFacts.exists_run, H. rewrite bool_decide_eq_false_2; [reflexivity|].
      intros [x Hx]. discriminate.
  - intros e w' H. apply HandleFacts.getLanguage_throw_inv in H as (-> & _ & Hmsg). auto.
  - intros children Hdir Hnone Hls.
    unfold Manager.getLanguage. fold (Manager.langPath host lang).
    rewrite (bind_ok _ _ w true w).
    2:{ rewrite FsFacts.exists_run, Hdir. rewrite bool_decide_eq_true_2; eauto. }
    js_step. unfold try_catch.
    rewrite (bind_ok _ _ w _ w (ReadFacts.lsDir_run host _ w children Hls Hdir)).
    rewrite (ReadFacts.find_name_absent _ children "tree-sitter.json" Hnone).
    reflexivity.
Qed.

Lemma getLanguage_failures_witness :
  Fs.lookup_path (Manager.langPath Examples.host_ok "foo") (fs Examples.world_bare)
    = Some (Dir ∅) /\
  (∅ : gmap string node) !! "tree-sitter.json" = None /\
  fs_rejects Examples.host_ok (OpLsDir (Manager.langPath Examples.host_ok "foo")) = false /\
  Manager.getLanguage Examples.host_ok "foo" Examples.world_bare =
    (Throw (Error "Failed to load language foo: Missing tree-sitter.json for language foo"),
     Examples.world_bare).
Proof.
  assert (H1 : Fs.lookup_path (Manager.langPath Examples.host_ok "foo")
                 (fs Examples.world_bare) = Some (Dir ∅)) by reflexivity.
  assert (H2 : (∅ : gmap string node) !! "tree-sitter.json" = None) by reflexivity.
  assert (H3 : fs_rejects Examples.host_ok
                 (OpLsDir (Manager.langPath Examples.host_ok "foo")) = false) by reflexivity.
  do 3 (split; [assumption|]).
  destruct (getLanguage_failures Examples.host_ok "foo" Examples.world_bare) as (_ & _ & H).
  exact (H ∅ H1 H2 H3).
Defined.

(** X11 -- The handle the manager's [getLanguage] returns.  It is a new
    handle, not an extension and not loaded, named [lang]; its config is the
    decoded content of the package's [tree-sitter.json]; and its queries are
    exactly the [.scm] files of the package's [queries] directory, each
    under its file name with the text read from it: no other key is present,
    and there are no queries when the package has no such directory. *)
Theorem getLanguage_handle (host : Host) (lang : string) (w : World)
    (l : Language.loc) (w' : World) :
  Manager.getLanguage host lang w = (Ok (Some l), w') ->
  exists children d o,
    Fs.lookup_path (Manager.langPath host lang) (fs w) = Some (Dir children) /\
    children !! "tree-sitter.json" = Some (File d) /\
    Language.heap (store w) !! l = None /\
    Language.heap (store w') !! l = Some o /\
    Language.name o = lang /\
    fs_read_json host d = Some (Language.config o) /\
    Language.grammar o = None /\
    Language.isExtension o = false /\
    (forall k text,
        Language.queries o !! k = Some text <->
        endsWith k ".scm" = true /\
        exists qchildren qd,
          children !! "queries" = Some (Dir qchildren) /\
          qchildren !! k = Some (File qd) /\
          fs_read_text host qd = Some text).
Proof.
  intros H.
  apply HandleFacts.getLanguage_Some_inv in H
    as (children & d & cfg & q & s' & Hdir & Hd & Hjson & Hq & Hnew & ->).
  match type of Hnew with
  | Language.new_Language _ ?n ?c (JsObject ?m) ?q0 false ?s = _ =>
      destruct (ConstructorFacts.new_Language_object host n c m q0 s)
        as (s1 & exts & Hrun & Hl & _)
  end.
  rewrite Hrun in Hnew. injection Hnew as <- <-.
  eexists children, d, _. split; [exact Hdir|]. split; [exact Hd|].
  split; [apply ConstructorFacts.fresh_unused|]. split; [exact Hl|].
  split; [reflexivity|]. split; [exact Hjson|]. split; [reflexivity|].
  split; [reflexivity|]. exact Hq.
Qed.

Lemma getLanguage_handle_witness :
  Manager.getLanguage Examples.host_ok "json" Examples.world_json
    = (Ok (Some 0), snd (Manager.getLanguage Examples.host_ok "json" Examples.world_json)) /\
  exists o,
    Language.heap (store (snd (Manager.getLanguage Examples.host_ok "json"
                                 Examples.world_json))) !! 0 = Some o /\
    Language.name o = "json" /\
    Language.queries o !! "highlights.scm" = Some "(identifier) @variable".
Proof.
  assert (H : Manager.getLanguage Examples.host_ok "json" Examples.world_json
    = (Ok (Some 0), snd (Manager.getLanguage Examples.host_ok "json" Examples.world_json))).
  { vm_compute. reflexivity. }
  split; [exact H|].
  destruct (getLanguage_handle Examples.host_ok "json" _ _ _ H)
    as (children & d & o & Hdir & _ & _ & Hl & Hname & _ & _ & _ & Hq).
  exists o. split; [exact Hl|]. split; [exact Hname|].
  apply Hq. split; [reflexivity|].
  assert (Hc : children = {[ "tree-sitter.json" := File (DataJson (JObject []));
         "tree-sitter-json.wasm" := File (DataBinary [Byte.x00; Byte.x61; Byte.x73; Byte.x6d]);
         "queries" := Dir {[ "highlights.scm" := File (DataText "(identifier) @variable") ]} ]}).
  { assert (Hd : Fs.lookup_path (Manager.langPath Examples.host_ok "json")
                   (fs Examples.world_json) = Some Examples.package_json) by reflexivity.
    rewrite Hd in Hdir. injection Hdir as <-. reflexivity. }
  subst children. eexists _, _. split; [reflexivity|]. split; reflexivity.
Defined.

(** * The module files of a package *)

Module PackageFacts.
Import Manager.

Lemma NoDup_List_filter {A} (f : A -> bool) (l : list A) :
  NoDup l -> NoDup (List.filter f l).
Proof.
  induction 1 as [|x l Hx Hl IH]; simpl; [constructor|].
  destruct (f x); [|exact IH]. constructor; [|exact IH].
  intros Hin. apply Hx. apply list_elem_of_In in Hin.
  apply List.filter_In in Hin as [Hin _]. apply list_elem_of_In, Hin.
Qed.





End PackageFacts.



(** * Filtering the manifest *)

(** X13 -- The filter of the manifest.  It throws, a [TypeError], exactly
    when the manifest lists at least one file and either has no prefix or
    lists an entry without a path; on an empty list it returns the empty
    list even without a prefix.  When it returns, it has kept, in the order
    of the manifest, exactly the entries whose path matches the pattern
    once as many characters as the prefix has are cut from its front,
    whatever these characters are. *)
Theorem filter_files_spec (prefix_ : option string) (pattern_ : string)
    (files_ : list ManifestEntry) :
  (is_ok (Manager.filter_files prefix_ pattern_ files_) = false <->
   files_ <> [] /\
   (prefix_ = None \/ exists file, file ∈ files_ /\ entry_path file = None)) /\
  (forall e, Manager.filter_files prefix_ pattern_ files_ = Throw e ->
     exists message, e = TypeError message) /\
  (forall selected,
      Manager.filter_files prefix_ pattern_ files_ = Ok selected ->
      selected.*1 `sublist_of` files_ /\
      forall file file_path,
        (file, file_path) ∈ selected <->
        file ∈ files_ /\ entry_path file = Some file_path /\
        exists pre, prefix_ = Some pre /\
          Manager.matches (substring_from (String.length pre) file_path) pattern_ = true).
Proof.
  induction files_ as [|file rest (IHthrow & IHerr & IHsel)].
  - split; [|split].
    + simpl. split; [discriminate|]. intros [H _]. congruence.
    + discriminate.
    + intros selected [= <-]. split; [constructor|].
      intros f p. split; [intros H; inversion H | intros [H _]; inversion H].
  - simpl. destruct (entry_path file) as [file_path|] eqn:Hpath.
    2:{ split; [|split].
        - split; [|reflexivity]. intros _. split; [discriminate|].
          right. exists file. split; [left | exact Hpath].
        - intros e [= <-]. eauto.
        - discriminate. }
    destruct prefix_ as [pre|].
    2:{ split; [|split].
        - split; [|reflexivity]. intros _. split; [discriminate | left; reflexivity].
        - intros e [= <-]. eauto.
        - discriminate. }
    destruct (Manager.filter_files (Some pre) pattern_ rest) as [sel|e0] eqn:Hrest.
    + split; [|split].
      * simpl. split; [discriminate|].
        intros [_ [H|(f & Hf & Hnone)]]; [discriminate|].
        apply elem_of_cons in Hf as [->|Hf]; [congruence|].
        apply IHthrow. split; [intros ->; inversion Hf|]. right. eauto.
      * discriminate.
      * intros selected [= <-]. destruct (IHsel sel eq_refl) as [Hsub Hmem].
        split.
        { destruct (Manager.matches _ pattern_); simpl.
          - apply sublist_skip, Hsub.
          - apply sublist_cons, Hsub. }
        intros f p. split.
        { intros Hin.
          assert (Hcase : (f, p) = (file, file_path) /\
                          Manager.matches (substring_from (String.length pre) file_path)
                            pattern_ = true \/ (f, p) ∈ sel).
          { destruct (Manager.matches _ pattern_); [|right; exact Hin].
            apply elem_of_cons in Hin as [Heq|Hin]; [left; auto | right; exact Hin]. }
          destruct Hcase as [[[= -> ->] Hm]|Hin'].
          - split; [left|]. split; [exact Hpath|]. eauto.
          - apply Hmem in Hin' as (H1 & H2 & H3). split; [right; exact H1 | auto]. }
        { intros (Hf & Hp & pre' & [= <-] & Hm).
          apply elem_of_cons in Hf as [->|Hf].
          - rewrite Hpath in Hp. injection Hp as <-. rewrite Hm. left.
          - assert (Hin : (f, p) ∈ sel) by (apply Hmem; eauto 6).
            destruct (Manager.matches (substring_from (String.length pre) file_path)
                        pattern_); [right|]; exact Hin. }
    + split; [|split].
      * split; [|reflexivity]. intros _. split; [discriminate|].
        destruct (proj1 IHthrow eq_refl) as [_ [H|(f & Hf & Hnone)]]; [discriminate|].
        right. exists f. split; [right; exact Hf | exact Hnone].
      * intros e [= <-]. apply IHerr. reflexivity.
      * discriminate.
Qed.

Lemma filter_files_spec_witness :
  Manager.filter_files (Some "/") "*.wasm"
    [ {| entry_path := Some "/tree-sitter.json" |};
      {| entry_path := Some "/tree-sitter-json.wasm" |} ]
  = Ok [({| entry_path := Some "/tree-sitter-json.wasm" |}, "/tree-sitter-json.wasm")] /\
  ({| entry_path := Some "/tree-sitter-json.wasm" |}
     ∈ [ {| entry_path := Some "/tree-sitter.json" |};
         {| entry_path := Some "/tree-sitter-json.wasm" |} ] /\
   Manager.matches (substring_from (String.length "/") "/tree-sitter-json.wasm") "*.wasm"
     = true).
Proof.
  assert (H : Manager.filter_files (Some "/") "*.wasm"
    [ {| entry_path := Some "/tree-sitter.json" |};
      {| entry_path := Some "/tree-sitter-json.wasm" |} ]
  = Ok [({| entry_path := Some "/tree-sitter-json.wasm" |}, "/tree-sitter-json.wasm")])
    by reflexivity.
  split; [exact H|].
  destruct (filter_files_spec (Some "/") "*.wasm"
              [ {| entry_path := Some "/tree-sitter.json" |};
                {| entry_path := Some "/tree-sitter-json.wasm" |} ]) as (_ & _ & Hsel).
  destruct (Hsel _ H) as [_ Hmem].
  destruct (proj1 (Hmem {| entry_path := Some "/tree-sitter-json.wasm" |}
                     "/tree-sitter-json.wasm")) as (H1 & _ & pre & [= <-] & H3).
  { left. }
  split; [exact H1 | exact H3].
Defined.

(** * Writing operations, one by one *)

Module WriteFacts.
Section WithHost.
Variable host : Host.

Lemma createFile_inv folder name content w w' :
  Fs.createFile host folder name content w = (Ok tt, w') ->
  w' = set_fs (Fs.alter_path (fun _ => Some (File content)) (Url.join folder name)) w /\
  Fs.lookup_path (Url.join folder name) (fs w') = Some (File content).
Proof.
  unfold Fs.createFile, bind, get. destruct (fs_rejects host _); [discriminate|].
  destruct (Fs.lookup_path (Fs.dirname _) (fs w)) as [[d|c]|] eqn:Edir; try discriminate.
  assert (Hnil : Url.join folder name = [] ->
            Fs.lookup_path (Url.join folder name) (fs w) = Some (Dir c)).
  { intros Hnil. rewrite Hnil in Edir |- *. exact Edir. }
  destruct (Fs.lookup_path (Url.join folder name) (fs w)) as [[d'|c']|] eqn:E;
    try discriminate; intros [= <-]; (split; [reflexivity|]); simpl;
    (apply TreeFacts.lookup_alter_path_written; [|eauto]);
    intros H; specialize (Hnil H); discriminate.
Qed.

Lemma createFile_throw folder name content w e w' :
  Fs.createFile host folder name content w = (Throw e, w') -> w' = w.
Proof.
  unfold Fs.createFile, bind, get, Fs.reject, throw.
  destruct (fs_rejects host _); [intros [= _ <-]; reflexivity|].
  destruct (Fs.lookup_path (Fs.dirname _) (fs w)) as [[d|c]|];
    try (intros [= _ <-]; reflexivity).
  destruct (Fs.lookup_path (Url.join folder name) (fs w)) as [[d'|c']|];
    first [intros [= _ <-]; reflexivity | discriminate].
Qed.

Lemma createDirectory_throw parent name w e w' :
  Fs.createDirectory host parent name w = (Throw e, w') -> w' = w.
Proof.
  unfold Fs.createDirectory, bind, get, Fs.reject, throw.
  destruct (fs_rejects host _); [intros [= _ <-]; reflexivity|].
  destruct (Fs.lookup_path (Fs.dirname _) (fs w)) as [[d|c]|];
    try (intros [= _ <-]; reflexivity).
  destruct (Fs.lookup_path (Url.join parent name) (fs w)) as [[d'|c']|];
    first [intros [= _ <-]; reflexivity | discriminate].
Qed.

Lemma delete_throw p w e w' :
  Fs.delete_ host p w = (Throw e, w') -> w' = w.
Proof.
  unfold Fs.delete_, bind, get, Fs.reject, throw.
  destruct (fs_rejects host _); [intros [= _ <-]; reflexivity|].
  destruct p as [|x p]; [intros [= _ <-]; reflexivity|].
  destruct (Fs.lookup_path _ (fs w)); [discriminate | intros [= _ <-]; reflexivity].
Qed.

Lemma delete_inv p w w' :
  Fs.delete_ host p w = (Ok tt, w') ->
  p <> [] /\ w' = set_fs (Fs.alter_path (fun _ => None) p) w.
Proof.
  unfold Fs.delete_, bind, get, Fs.reject, throw.
  destruct (fs_rejects host _); [discriminate|].
  destruct p as [|x p]; [discriminate|].
  destruct (Fs.lookup_path _ (fs w)); [|discriminate].
  intros [= <-]. split; [discriminate | reflexivity].
Qed.
End WithHost.
End WriteFacts.

(** X14 -- One download.  [_downloadFile url folder] sends exactly one
    request, for [url], and touches no handle.  When it fails, whether the
    read timed out, failed, gave no content, or the file could not be
    created, nothing has been written.  When it returns, its result is the
    location of the file [basename url] in [folder]; that file now holds the
    content that was read, in the type chosen from the file's extension, and
    every entry apart from it is unchanged.  A read that times out gives the
    error "Download timeout", a read without content "Empty content from
    <url>". *)
Theorem downloadFile_outcomes (host : Host) (url : string) (folder : path) (w : World) :
  exists r w',
    Manager._downloadFile host url folder w = (r, w') /\
    requests w' = requests w ++ [url] /\
    store w' = store w /\
    (forall e, r = Throw e -> fs w' = fs w) /\
    (forall p, r = Ok p ->
       p = Url.join folder (Url.basename url) /\
       exists content,
         remote_read host url (Manager._getFileType (Url.extname (Url.basename url)))
           = Resolved (Some content) /\
         Fs.lookup_path p (fs w') = Some (File content) /\
         forall q, apart q p -> Fs.lookup_path q (fs w') = Fs.lookup_path q (fs w)) /\
    (remote_read host url (Manager._getFileType (Url.extname (Url.basename url))) = TimedOut ->
     r = Throw (Error "Download timeout")) /\
    (remote_read host url (Manager._getFileType (Url.extname (Url.basename url)))
       = Resolved None ->
     r = Throw (Error ("Empty content from " +:+ url))).
Proof.
  unfold Manager._downloadFile. rewrite try_catch_rethrow.
  unfold bind at 1. unfold modify at 1.
  destruct (remote_read host url _) as [[content|]| |] eqn:Hread.
  - unfold bind at 1. unfold ret at 1. unfold bind.
    destruct (Fs.createFile host folder (Url.basename url) content (log_request url w))
      as [[[]|e] w1] eqn:Hcreate.
    + apply WriteFacts.createFile_inv in Hcreate as [-> Hfile].
      eexists _, _. split; [reflexivity|]. simpl.
      split; [reflexivity|]. split; [reflexivity|]. split; [discriminate|].
      split; [|split; discriminate].
      intros p [= <-]. split; [reflexivity|]. exists content.
      split; [reflexivity|]. split; [exact Hfile|].
      intros q Hq. apply TreeFacts.lookup_alter_path_apart, Hq.
    + apply WriteFacts.createFile_throw in Hcreate as ->.
      eexists _, _. split; [reflexivity|]. simpl.
      split; [reflexivity|]. split; [reflexivity|]. split; [reflexivity|].
      split; [discriminate|]. split; discriminate.
  - eexists _, _. split; [reflexivity|]. simpl.
    split; [reflexivity|]. split; [reflexivity|]. split; [reflexivity|].
    split; [discriminate|]. split; [discriminate | reflexivity].
  - eexists _, _. split; [reflexivity|]. simpl.
    split; [reflexivity|]. split; [reflexivity|]. split; [reflexivity|].
    split; [discriminate|]. split; discriminate.
  - eexists _, _. split; [reflexivity|]. simpl.
    split; [reflexivity|]. split; [reflexivity|]. split; [reflexivity|].
    split; [discriminate|]. split; [reflexivity | discriminate].
Qed.

(** * The manifest comes first *)

(** X15 -- [_download] asks for the manifest before anything else.  Its
    first request is for [<package URL>?meta], it touches no handle, and it
    never returns [false].  When the manifest cannot be used (the request is
    rejected, its status is not 200, its body does not parse, or it has no
    list of files), [_download] throws with that one request sent and
    nothing written; for a status other than 200 the error is "failed while
    fetch metadata, code:", and for a manifest without a list of files it is
    a [ReferenceError], because the message of the intended error names
    [baseUrl], which is not in scope there. *)
Theorem download_manifest_first (host : Host) (lang : string) (items : list WantedItem)
    (w : World) :
  let metaUrl := Manager.buildUrl lang "" None +:+ "?meta" in
  exists r w',
    Manager._download host lang items w = (r, w') /\
    store w' = store w /\
    (requests w ++ [metaUrl]) `prefix_of` requests w' /\
    (forall b, r = Ok b -> b = true) /\
    ((forall response globalMeta meta_files,
         http_get host metaUrl = Some response -> status response = 200%Z ->
         JSON_parse host (data response) = Some globalMeta ->
         files globalMeta = Some meta_files -> False) ->
     (exists e, r = Throw e) /\ fs w' = fs w /\ requests w' = requests w ++ [metaUrl]) /\
    (forall response,
        http_get host metaUrl = Some response -> status response <> 200%Z ->
        r = Throw (Error "failed while fetch metadata, code:")) /\
    (forall response globalMeta,
        http_get host metaUrl = Some response -> status response = 200%Z ->
        JSON_parse host (data response) = Some globalMeta ->
        files globalMeta = None ->
        r = Throw (ReferenceError "baseUrl is not defined")).
Proof.
  intros metaUrl. unfold Manager._download. rewrite try_catch_rethrow.
  fold metaUrl. unfold bind at 1. unfold Manager._fetch.
  unfold bind at 1. unfold modify at 1.
  destruct (http_get host metaUrl) as [response|] eqn:Hget.
  2:{ eexists _, _. split; [reflexivity|]. simpl.
      split; [reflexivity|]. split; [reflexivity|]. split; [discriminate|].
      split; [eauto|]. split; discriminate. }
  unfold ret at 1.
  destruct (status response =? 200)%Z eqn:Hstatus; js_step.
  2:{ eexists _, _. split; [reflexivity|]. simpl.
      split; [reflexivity|]. split; [reflexivity|]. split; [discriminate|].
      split; [eauto|]. split; [reflexivity|].
      intros response' globalMeta [= <-] H200. apply Z.eqb_neq in Hstatus. contradiction. }
  apply Z.eqb_eq in Hstatus.
  destruct (JSON_parse host (data response)) as [globalMeta|] eqn:Hparse.
  2:{ eexists _, _. split; [reflexivity|]. simpl.
      split; [reflexivity|]. split; [reflexivity|]. split; [discriminate|].
      split; [eauto|]. split.
      - intros response' [= <-] Hne. contradiction.
      - intros response' globalMeta [= <-] _ Hp _. congruence. }
  destruct (files globalMeta) as [meta_files|] eqn:Hfiles.
  2:{ eexists _, _. split; [reflexivity|]. simpl.
      split; [reflexivity|]. split; [reflexivity|]. split; [discriminate|].
      split; [eauto|]. split.
      - intros response' [= <-] Hne. contradiction.
      - reflexivity. }
  match goal with
  | |- context [bind (for_of items ?body)] => set (loop := for_of items body)
  end.
  assert (Hstore : preserves (fun w' => store w' = store w) loop).
  { apply InstallFacts.download_items_blind.
    - intros f w1 H. exact H.
    - intros url w1 H. exact H. }
  assert (Hreq : preserves (fun w' => (requests w ++ [metaUrl]) `prefix_of` requests w') loop).
  { apply InstallFacts.download_items_blind.
    - intros f w1 H. exact H.
    - intros url w1 H. simpl. etransitivity; [exact H | apply prefix_app_r; reflexivity]. }
  unfold bind.
  match goal with
  | |- context [loop ?s] =>
      pose proof (Hstore s eq_refl) as Hs;
      pose proof (Hreq s (reflexivity _)) as Hr;
      destruct (loop s) as [[[]|e] w1]
  end; simpl in Hs, Hr.
  - eexists _, _. split; [reflexivity|]. split; [exact Hs|]. split; [exact Hr|].
    split; [intros b [= <-]; reflexivity|]. split.
    { intros Hbad. exfalso. exact (Hbad _ _ _ eq_refl Hstatus Hparse Hfiles). }
    split.
    + intros response' [= <-] Hne. contradiction.
    + intros response' globalMeta' [= <-] _ Hp Hf. congruence.
  - eexists _, _. split; [reflexivity|]. split; [exact Hs|]. split; [exact Hr|].
    split; [discriminate|]. split.
    { intros Hbad. exfalso. exact (Hbad _ _ _ eq_refl Hstatus Hparse Hfiles). }
    split.
    + intros response' [= <-] Hne. contradiction.
    + intros response' globalMeta' [= <-] _ Hp Hf. congruence.
Qed.

(** * Listing the installed packages *)

(** X16 -- [getAvailableLanguages] never throws and changes nothing.  When
    the store directory can be listed, the result holds exactly the names of
    its sub-directories, each once: a file of the store directory, such as
    the configuration file, is not listed.  When the store directory is
    missing, is a file, or its listing is refused, the result is the empty
    list. *)
Theorem getAvailableLanguages_lists_directories (host : Host) (w : World) :
  exists names,
    Manager.getAvailableLanguages host w = (Ok names, w) /\
    (forall children,
        Fs.lookup_path (Manager.TREE_SITTER_PATH host) (fs w) = Some (Dir children) ->
        fs_rejects host (OpLsDir (Manager.TREE_SITTER_PATH host)) = false ->
        NoDup names /\
        forall lang, lang ∈ names <-> exists c, children !! lang = Some (Dir c)) /\
    ((forall children,
         Fs.lookup_path (Manager.TREE_SITTER_PATH host) (fs w) <> Some (Dir children)) \/
     fs_rejects host (OpLsDir (Manager.TREE_SITTER_PATH host)) = true ->
     names = []).
Proof.
  unfold Manager.getAvailableLanguages, try_catch, bind.
  destruct (Fs.lsDir host (Manager.TREE_SITTER_PATH host) w) as [[dirs|e] w1] eqn:Hls.
  - apply ReadFacts.lsDir_inv in Hls as (-> & Hrej & children & Hdir & ->).
    eexists. split; [reflexivity|]. split.
    + intros children' Hdir' _. rewrite Hdir in Hdir'. injection Hdir' as <-.
      split.
      * apply (NoDup_fmap_2_strong entry_name).
        -- intros e1 e2 H1 H2 Heq.
           apply list_elem_of_In, List.filter_In in H1 as [H1 _].
           apply list_elem_of_In, List.filter_In in H2 as [H2 _].
           apply list_elem_of_In, ReadFacts.entry_in_listing in H1 as (k1 & n1 & Hk1 & ->).
           apply list_elem_of_In, ReadFacts.entry_in_listing in H2 as (k2 & n2 & Hk2 & ->).
           simpl in Heq. subst k2. congruence.
        -- apply PackageFacts.NoDup_List_filter.
           apply (NoDup_fmap_2_strong (Fs.to_entry _)).
           ++ intros [k1 n1] [k2 n2] H1 H2 [= -> _].
              apply elem_of_map_to_list in H1, H2. f_equal. congruence.
           ++ apply NoDup_map_to_list.
      * intros lang. split.
        -- intros Hin. apply list_elem_of_fmap in Hin as (e & -> & Hin).
           apply list_elem_of_In, List.filter_In in Hin as [Hin Hd].
           apply list_elem_of_In, ReadFacts.entry_in_listing in Hin as (k & nd & Hk & ->).
           simpl in *. destruct nd as [d|c]; [discriminate|]. eauto.
        -- intros [c Hc]. apply list_elem_of_fmap.
           exists (Fs.to_entry (Manager.TREE_SITTER_PATH host) (lang, Dir c)).
           split; [reflexivity|]. apply list_elem_of_In, List.filter_In.
           split; [|reflexivity].
           apply list_elem_of_In, ReadFacts.listing_has_entry, Hc.
    + intros [Hno|Hr]; [exfalso; exact (Hno _ Hdir) | congruence].
  - pose proof Hls as Hstate.
    apply (run_state _ _ _ _ (fun I => GetLanguageFacts.preserves_lsDir host I _)) in Hstate
      as ->.
    eexists. split; [reflexivity|]. split; [|reflexivity].
    intros children Hdir Hrej. exfalso.
    rewrite (ReadFacts.lsDir_run host _ w children Hrej Hdir) in Hls. discriminate.
Qed.

(** * The outcome of the initialization *)

Module InitOutcomeFacts.
Import TreeSitterAPI.

Section WithHost.
Variable host : Host.

Lemma in_world_read {A} (m : M World A) sys :
  (forall I : World -> Prop, preserves I m) ->
  in_world m sys = (fst (m (world sys)), sys).
Proof.
  intros Hm. rewrite ApiFacts.in_world_run.
  rewrite (ReadFacts.reads_only m (world sys) Hm). rewrite ApiFacts.set_world_same.
  reflexivity.
Qed.

(** [#loadConfig()] never throws and writes nothing but the configuration. *)
Lemma loadConfig_run sys :
  exists c c',
    loadConfig host sys =
      (Ok c, set_api (fun a =>
               {| parser := parser a; initialized := initialized a;
                  initPromise := initPromise a; languages := languages a;
                  api_config := c'; events := events a;
                  parsers_created := parsers_created a |}) sys) /\
    (Fs.lookup_path (CONFIG_PATH host) (fs (world sys)) = None ->
     c = api_config (api sys) /\ c' = api_config (api sys)) /\
    (is_Some (Fs.lookup_path (CONFIG_PATH host) (fs (world sys))) ->
     match fst (Fs.readFile_json host (CONFIG_PATH host) (world sys)) with
     | Ok j => c = j /\ c' = j
     | Throw _ => c = JObject [] /\ c' = api_config (api sys)
     end).
Proof.
  assert (Hsame : forall s : System,
            set_api (fun a =>
               {| parser := parser a; initialized := initialized a;
                  initPromise := initPromise a; languages := languages a;
                  api_config := api_config (api s); events := events a;
                  parsers_created := parsers_created a |}) s = s).
  { intros [w0 [? ? ? ? ? ? ?]]. reflexivity. }
  unfold loadConfig, try_catch.
  rewrite (bind_ok _ _ sys _ sys
             (in_world_read _ sys (fun I => GetLanguageFacts.preserves_exists I _))).

  destruct (bool_decide _) eqn:Hpresent.
  - apply bool_decide_eq_true in Hpresent.
    unfold bind at 1. unfold bind at 1.
    rewrite (in_world_read _ sys (fun I => GetLanguageFacts.preserves_readFile_json host I _)).
    destruct (fst (Fs.readFile_json host (CONFIG_PATH host) (world sys))) as [j|e] eqn:Hread.
    + exists j, j. split; [reflexivity|]. split.
      * intros Hnone. rewrite Hnone in Hpresent. destruct Hpresent; discriminate.
      * intros _. auto.
    + exists (JObject []), (api_config (api sys)). split.
      * simpl. rewrite Hsame. reflexivity.
      * split.
        -- intros Hnone. rewrite Hnone in Hpresent. destruct Hpresent; discriminate.
        -- intros _. auto.
  - apply bool_decide_eq_false in Hpresent.
    exists (api_config (api sys)), (api_config (api sys)). split.
    + simpl. rewrite Hsame. reflexivity.
    + split; [auto|]. intros H. contradiction.
Qed.

(** The first [waitForInit], which lets the initialization run. *)
Lemma waitForInit_pending sys :
  initPromise (api sys) = Pending -> initialized (api sys) = false ->
  exists c,
    waitForInit host sys =
      (Ok (Some (engine_init host)),
       set_api (fun a =>
         {| parser := parser a; initialized := engine_init host;
            initPromise := Settled (Some (engine_init host));
            languages := languages a;
            api_config := if engine_init host then c else api_config a;
            events := events a ++ [if engine_init host then initialized_event
                                   else error_event (Rejected "Parser.init")];
            parsers_created := parsers_created a |}) sys) /\
    (Fs.lookup_path (CONFIG_PATH host) (fs (world sys)) = None ->
     c = api_config (api sys)) /\
    (is_Some (Fs.lookup_path (CONFIG_PATH host) (fs (world sys))) ->
     match fst (Fs.readFile_json host (CONFIG_PATH host) (world sys)) with
     | Ok j => c = j
     | Throw _ => c = JObject []
     end).
Proof.
  intros Hpending Hinit.
  destruct (loadConfig_run sys) as (c & c' & Hload & Habsent & Hpresent).
  exists c. split; [|split].
  - unfold waitForInit. unfold bind at 1. unfold gets at 1. rewrite Hpending.
    unfold bind at 1. unfold initialize. unfold bind at 1. unfold gets at 1.
    rewrite Hinit. unfold try_catch.
    destruct (engine_init host).
    + unfold bind at 1. unfold ret at 1. unfold bind at 1. rewrite Hload.
      destruct sys as [w0 [? ? ? ? ? ? ?]]. reflexivity.
    + destruct sys as [w0 [? ? ? ? ? ? ?]]. simpl in Hinit. subst. reflexivity.
  - intros H. apply Habsent, H.
  - intros H. specialize (Hpresent H).
    destruct (fst (Fs.readFile_json host (CONFIG_PATH host) (world sys)));
      apply Hpresent.
Qed.

Lemma waitForInit_settled sys v :
  initPromise (api sys) = Settled v -> waitForInit host sys = (Ok v, sys).
Proof.
  intros H. unfold waitForInit. unfold bind, gets. rewrite H. reflexivity.
Qed.
End WithHost.
End InitOutcomeFacts.

(** X17 -- The initialization runs once.  [waitForInit] never throws; the
    first call lets the initialization run and settles its promise, and
    every later call returns the same value and changes nothing.  The
    initialization succeeds exactly when the engine initializes: it then
    marks the facade initialized and emits [initialized]; otherwise it emits
    one [error] event, leaves the facade uninitialized and resolves to
    [false] instead of failing.  The files, the handles and both caches are
    not touched. *)
Theorem waitForInit_once (host : Host) (sys : System) :
  exists v sys1,
    TreeSitterAPI.waitForInit host sys = (Ok v, sys1) /\
    TreeSitterAPI.waitForInit host sys1 = (Ok v, sys1) /\
    world sys1 = world sys /\
    languages (api sys1) = languages (api sys) /\
    parser (api sys1) = parser (api sys) /\
    (forall v0, initPromise (api sys) = Settled v0 -> v = v0 /\ sys1 = sys) /\
    (initPromise (api sys) = Pending -> initialized (api sys) = false ->
     v = Some (engine_init host) /\
     initialized (api sys1) = engine_init host /\
     exists ev,
       events (api sys1) = events (api sys) ++ [ev] /\
       (engine_init host = true -> ev = initialized_event) /\
       (engine_init host = false ->
        (exists e, ev = error_event e) /\ api_config (api sys1) = api_config (api sys))).
Proof.
  destruct (InitFacts.waitForInit_run host sys) as (v & sys1 & Hrun & Hw & Hl & Hp & _).
  exists v, sys1. split; [exact Hrun|].
  pose proof (ParseFacts.waitForInit_settles host sys) as Hsettled.
  rewrite Hrun in Hsettled. unfold init_settled in Hsettled. simpl in Hsettled.
  destruct (initPromise (api sys)) as [|v0] eqn:Hpromise.
  - split.
    { destruct (initPromise (api sys1)) as [|v1] eqn:H1; [contradiction|].
      rewrite (InitOutcomeFacts.waitForInit_settled host sys1 v1 H1).
      assert (v1 = v); [|subst; reflexivity].
      revert Hrun H1. unfold TreeSitterAPI.waitForInit. unfold bind at 1, gets at 1.
      rewrite Hpromise. unfold bind at 1.
      destruct (TreeSitterAPI.initialize host sys) as [[v2|e] sys2]; [|discriminate].
      unfold bind, TreeSitterAPI.set_initPromise, modify, ret.
      intros [= <- <-]. simpl. congruence. }
    do 3 (split; [assumption|]). split; [discriminate|].
    intros _ Hinit.
    destruct (InitOutcomeFacts.waitForInit_pending host sys Hpromise Hinit)
      as (c & Hpending & _).
    rewrite Hpending in Hrun. injection Hrun as <- <-. simpl.
    split; [reflexivity|]. split; [reflexivity|].
    eexists. split; [reflexivity|]. split.
    + intros ->. reflexivity.
    + intros ->. split; [eauto | reflexivity].
  - rewrite (InitOutcomeFacts.waitForInit_settled host sys v0 Hpromise) in Hrun.
    injection Hrun as <- <-.
    split; [apply InitOutcomeFacts.waitForInit_settled, Hpromise|].
    do 3 (split; [reflexivity|]). split; [|discriminate].
    intros v1 [= <-]. auto.
Qed.

(** X18 -- The configuration after the initialization.  When the engine
    initializes, the facade's configuration becomes the decoded content of
    [config.json] if that file is there and can be read as JSON; it becomes
    the empty object if the file is there but cannot be read; and it stays
    what it was if there is no such file.  A configuration that cannot be
    read never makes the initialization fail. *)
Theorem initialization_loads_config (host : Host) (sys : System) :
  initPromise (api sys) = Pending ->
  initialized (api sys) = false ->
  engine_init host = true ->
  exists sys1,
    TreeSitterAPI.waitForInit host sys = (Ok (Some true), sys1) /\
    initialized (api sys1) = true /\
    (Fs.lookup_path (TreeSitterAPI.CONFIG_PATH host) (fs (world sys)) = None ->
     api_config (api sys1) = api_config (api sys)) /\
    (forall d j,
        Fs.lookup_path (TreeSitterAPI.CONFIG_PATH host) (fs (world sys)) = Some (File d) ->
        fs_rejects host (OpReadFile (TreeSitterAPI.CONFIG_PATH host)) = false ->
        fs_read_json host d = Some j ->
        api_config (api sys1) = j) /\
    (is_Some (Fs.lookup_path (TreeSitterAPI.CONFIG_PATH host) (fs (world sys))) ->
     is_ok (fst (Fs.readFile_json host (TreeSitterAPI.CONFIG_PATH host) (world sys))) = false ->
     api_config (api sys1) = JObject []).
Proof.
  intros Hpromise Hinit Hengine.
  destruct (InitOutcomeFacts.waitForInit_pending host sys Hpromise Hinit)
    as (c & Hpending & Habsent & Hpresent).
  rewrite Hengine in Hpending.
  eexists. split; [exact Hpending|]. simpl. split; [reflexivity|].
  split; [exact Habsent|]. split.
  - intros d j Hfile Hrej Hjson.
    assert (Hsome : is_Some (Fs.lookup_path (TreeSitterAPI.CONFIG_PATH host) (fs (world sys))))
      by (rewrite Hfile; eauto).
    specialize (Hpresent Hsome).
    unfold Fs.readFile_json, bind, get in Hpresent.
    rewrite Hrej, Hfile, Hjson in Hpresent. exact Hpresent.
  - intros Hsome Hfail. specialize (Hpresent Hsome).
    destruct (fst (Fs.readFile_json host _ (world sys))); [discriminate | exact Hpresent].
Qed.


Lemma initialization_loads_config_witness :
  initPromise (api (Examples.system_of Examples.world_configured)) = Pending /\
  initialized (api (Examples.system_of Examples.world_configured)) = false /\
  engine_init Examples.host_ok = true /\
  exists sys1,
    TreeSitterAPI.waitForInit Examples.host_ok (Examples.system_of Examples.world_configured)
      = (Ok (Some true), sys1) /\
    api_config (api sys1) = Examples.config_json.
Proof.
  do 3 (split; [reflexivity|]).
  destruct (initialization_loads_config Examples.host_ok
              (Examples.system_of Examples.world_configured) eq_refl eq_refl eq_refl)
    as (sys1 & Hrun & _ & _ & Hread & _).
  exists sys1. split; [exact Hrun|].
  apply (Hread (DataJson Examples.config_json)); reflexivity.
Defined.

(** * The facade's [getLanguage] *)

Lemma manager_getLanguage_absent host lang w :
  Fs.lookup_path (Manager.langPath host lang) (fs w) = None ->
  fst (Manager.getLanguage host lang w) = Ok None /\
  snd (Manager.getLanguage host lang w) = w.
Proof.
  intros H. unfold Manager.getLanguage. fold (Manager.langPath host lang).
  rewrite (bind_ok _ _ w false w); [split; reflexivity|].
  rewrite FsFacts.exists_run, H. rewrite bool_decide_eq_false_2; [reflexivity|].
  intros [x Hx]. discriminate.
Qed.

(** The manager's [getLanguage] leaves the files alone and keeps every
    handle. *)
Lemma manager_getLanguage_reads host lang w :
  exists r w',
    Manager.getLanguage host lang w = (r, w') /\
    fs w' = fs w /\
    requests w' = requests w /\
    (forall l, is_Some (Language.heap (store w) !! l) ->
       Language.heap (store w') !! l = Language.heap (store w) !! l) /\
    (forall l, r = Ok (Some l) -> Language.heap (store w) !! l = None) /\
    (r = Ok None \/ (exists e, r = Throw e) -> w' = w).
Proof.
  destruct (Manager.getLanguage host lang w) as [r w'] eqn:H. exists r, w'.
  split; [reflexivity|]. destruct r as [[l|]|e].
  - apply HandleFacts.getLanguage_Some_inv in H
      as (children & d & cfg & q & s' & _ & _ & _ & _ & Hnew & ->).
    match type of Hnew with
    | Language.new_Language _ ?n ?c (JsObject ?m) ?q0 false ?s = _ =>
        destruct (ConstructorFacts.new_Language_object host n c m q0 s)
          as (s1 & exts & Hrun & Hl & Hloads & Hkeep & _)
    end.
    rewrite Hrun in Hnew. injection Hnew as <- <-. simpl.
    do 2 (split; [reflexivity|]). split; [exact Hkeep|].
    split.
    + intros l0 [= <-]. apply ConstructorFacts.fresh_unused.
    + intros [Hr|[e Hr]]; discriminate.
  - apply HandleFacts.getLanguage_None_inv in H as [-> _].
    do 3 (split; [reflexivity|]). split; [intros l; discriminate | reflexivity].
  - apply HandleFacts.getLanguage_throw_inv in H as [-> _].
    do 3 (split; [reflexivity|]). split; [intros l; discriminate | reflexivity].
Qed.


Module FacadeFacts.
Import TreeSitterAPI.

Section WithHost.
Variable host : Host.

(** [getLanguage] for a non-empty identifier, in one equation. *)
Lemma getLanguage_run lang forceReload sys :
  lang <> "" ->
  getLanguage host lang forceReload sys =
    let sys0 := snd (waitForInit host sys) in
    match (if forceReload then None else languages (api sys0) !! lang) with
    | Some l => (Ok (Some l), sys0)
    | None =>
        match Manager.getLanguage host lang (world sys0) with
        | (Ok None, w') => (Ok None, set_world w' sys0)
        | (Ok (Some l), w') =>
            (Ok (Some l), snd (set_languages (insert lang l) (set_world w' sys0)))
        | (Throw e, w') => (Ok None, snd (emit (error_event e) (set_world w' sys0)))
        end
    end.
Proof.
  intros Hlang. apply String.eqb_neq in Hlang.
  destruct (InitFacts.waitForInit_run host sys) as (v & sys0 & Hrun & _).
  unfold getLanguage. rewrite (bind_ok _ _ sys v sys0 Hrun). rewrite Hrun, Hlang.
  cbv zeta. simpl snd. unfold bind at 1. unfold gets at 1.
  destruct (if forceReload then None else languages (api sys0) !! lang) as [l|];
    [reflexivity|].
  unfold try_catch, bind. rewrite ApiFacts.in_world_run.
  destruct (Manager.getLanguage host lang (world sys0)) as [[[l|]|e] w']; reflexivity.
Qed.

Lemma getLanguage_empty forceReload sys :
  getLanguage host "" forceReload sys =
    (Throw (Error "Language identifier is required"), snd (waitForInit host sys)).
Proof.
  destruct (InitFacts.waitForInit_run host sys) as (v & sys0 & Hrun & _).
  unfold getLanguage. rewrite (bind_ok _ _ sys v sys0 Hrun). rewrite Hrun. reflexivity.
Qed.

(** Once the initialization is settled, awaiting it changes nothing. *)
Lemma waitForInit_idle sys :
  init_settled sys -> snd (waitForInit host sys) = sys.
Proof.
  unfold init_settled. intros Hsettled.
  destruct (initPromise (api sys)) as [|v] eqn:H; [contradiction|].
  rewrite (InitOutcomeFacts.waitForInit_settled host _ v H). reflexivity.
Qed.


(** The facade's [getLanguage] keeps the initialization settled. *)
Lemma getLanguage_settles lang forceReload sys :
  init_settled (snd (getLanguage host lang forceReload sys)).
Proof.
  pose proof (ParseFacts.waitForInit_settles host sys) as H0.
  unfold getLanguage.
  destruct (InitFacts.waitForInit_run host sys) as (v & sys0 & Hrun & _).
  rewrite (bind_ok _ _ sys v sys0 Hrun). rewrite Hrun in H0. simpl in H0.
  assert (Hrest : forall m : M System (option Language.loc),
            preserves init_settled m -> init_settled (snd (m sys0))).
  { intros m Hm. apply Hm, H0. }
  apply Hrest.
  destruct (String.eqb lang ""); [apply preserves_throw|].
  apply preserves_bind; [apply preserves_gets|]. intros cached.
  destruct (if forceReload then None else cached); [apply preserves_ret|].
  apply preserves_try_catch.
  - apply preserves_bind; [apply ParseFacts.settled_in_world|]. intros [l|].
    + apply preserves_bind; [|intros _; apply preserves_ret].
      apply ParseFacts.settled_modify. reflexivity.
    + apply preserves_ret.
  - intros e. apply preserves_bind; [|intros _; apply preserves_ret].
    apply ParseFacts.settled_modify. reflexivity.
Qed.
End WithHost.
End FacadeFacts.

(** X19 -- Outcomes of the facade's [getLanguage].  For the empty
    identifier it throws "Language identifier is required".  For any other
    identifier it never throws and never changes a file: an error of the
    manager is emitted as an [error] event and answered with [null].  A
    [null] answer leaves the cache of handles as it was; a handle that is
    returned is the one the cache then holds for the identifier, and no
    other entry of the cache is changed. *)
Theorem facade_getLanguage_outcomes (host : Host) (lang : string) (forceReload : bool)
    (sys : System) :
  (lang = "" ->
   fst (TreeSitterAPI.getLanguage host lang forceReload sys)
     = Throw (Error "Language identifier is required")) /\
  (lang <> "" ->
   exists r sys1,
     TreeSitterAPI.getLanguage host lang forceReload sys = (Ok r, sys1) /\
     fs (world sys1) = fs (world sys) /\
     (r = None -> languages (api sys1) = languages (api sys)) /\
     (forall l, r = Some l ->
        languages (api sys1) !! lang = Some l /\
        forall other, other <> lang ->
          languages (api sys1) !! other = languages (api sys) !! other) /\
     (forall e w',
        forceReload = true \/ languages (api sys) !! lang = None ->
        Manager.getLanguage host lang (world sys) = (Throw e, w') ->
        r = None /\ exists earlier, events (api sys1) = earlier ++ [error_event e])).
Proof.
  split.
  - intros ->. rewrite FacadeFacts.getLanguage_empty. reflexivity.
  - intros Hlang. rewrite (FacadeFacts.getLanguage_run host lang forceReload sys Hlang).
    destruct (InitFacts.waitForInit_run host sys) as (v & sys0 & Hrun & Hw & Hl & _).
    rewrite Hrun. cbv zeta. simpl snd. rewrite Hw, Hl.
    destruct (if forceReload then None else languages (api sys) !! lang) as [l|] eqn:Hcached.
    + eexists _, sys0. split; [reflexivity|]. rewrite Hw, Hl.
      split; [reflexivity|]. split; [discriminate|]. split.
      * intros l0 [= <-]. destruct forceReload; [discriminate|]. auto.
      * intros e w' [->|Hnone]; [discriminate|].
        destruct forceReload; [discriminate|]. congruence.
    + destruct (manager_getLanguage_reads host lang (world sys))
        as (r & w' & Hget & Hfs & _).
      rewrite Hget. destruct r as [[l|]|e].
      * eexists _, _. split; [reflexivity|]. simpl. split; [exact Hfs|].
        split; [discriminate|]. split.
        -- intros l0 [= <-]. rewrite Hl. split; [apply lookup_insert_eq|].
           intros other Hne. apply lookup_insert_ne. congruence.
        -- intros e w1 _ [=].
      * eexists _, _. split; [reflexivity|]. simpl. split; [exact Hfs|].
        split; [intros _; exact Hl|]. split; [discriminate|].
        intros e w1 _ [=].
      * eexists _, _. split; [reflexivity|]. simpl. split; [exact Hfs|].
        split; [intros _; exact Hl|]. split; [discriminate|].
        intros e0 w1 _ [= <- _]. split; [reflexivity | eauto].
Qed.



(** X21 -- [forceReload] never reuses a handle.  With [forceReload] the
    facade's [getLanguage] goes to the manager whatever the cache holds: a
    handle it returns is a new one, which replaces the cached one, and
    every handle that existed, the one cached before included, stays in
    the store unchanged.  When the package directory is gone it answers
    [null] and evicts nothing, so the handle cached before is still what a
    later call without [forceReload] returns. *)
Theorem facade_getLanguage_forceReload (host : Host) (lang : string) (sys : System) :
  lang <> "" ->
  exists r sys1,
    TreeSitterAPI.getLanguage host lang true sys = (Ok r, sys1) /\
    (forall l0, is_Some (Language.heap (store (world sys)) !! l0) ->
       Language.heap (store (world sys1)) !! l0 = Language.heap (store (world sys)) !! l0) /\
    (forall l, r = Some l ->
       Language.heap (store (world sys)) !! l = None /\
       languages (api sys1) !! lang = Some l) /\
    (Fs.lookup_path (Manager.langPath host lang) (fs (world sys)) = None ->
     r = None /\
     world sys1 = world sys /\
     forall stale, languages (api sys) !! lang = Some stale ->
       TreeSitterAPI.getLanguage host lang false sys1 = (Ok (Some stale), sys1)).
Proof.
  intros Hlang.
  pose proof (FacadeFacts.getLanguage_settles host lang true sys) as Hsettled.
  rewrite (FacadeFacts.getLanguage_run host lang true sys Hlang) in Hsettled |- *.
  destruct (InitFacts.waitForInit_run host sys) as (v & sys0 & Hrun & Hw & Hl & _).
  rewrite Hrun in Hsettled |- *. cbv zeta in Hsettled |- *. simpl snd in Hsettled |- *.
  rewrite Hw in Hsettled |- *.
  destruct (manager_getLanguage_reads host lang (world sys))
    as (r & w' & Hget & _ & _ & Hkeep & Hfresh & Hsame).
  rewrite Hget in Hsettled |- *.
  assert (Habsent : Fs.lookup_path (Manager.langPath host lang) (fs (world sys)) = None ->
            r = Ok None /\ w' = world sys).
  { intros Hnone.
    destruct (manager_getLanguage_absent host lang (world sys) Hnone) as [Hr Hw'].
    rewrite Hget in Hr. simpl in Hr. rewrite Hget in Hw'. simpl in Hw'. auto. }
  destruct r as [[l|]|e].
  - eexists _, _. split; [reflexivity|]. simpl. split; [exact Hkeep|]. split.
    + intros l0 [= <-]. split; [apply Hfresh; reflexivity | apply lookup_insert_eq].
    + intros Hnone. destruct (Habsent Hnone) as [[=] _].
  - eexists _, _. split; [reflexivity|]. simpl. split; [exact Hkeep|].
    split; [discriminate|].
    intros Hnone. destruct (Habsent Hnone) as [_ ->]. split; [reflexivity|].
    split; [reflexivity|]. intros stale Hstale. simpl in Hsettled.
    rewrite (FacadeFacts.getLanguage_run host lang false _ Hlang).
    rewrite (FacadeFacts.waitForInit_idle host _ Hsettled). cbv zeta. simpl.
    rewrite Hl, Hstale. reflexivity.
  - eexists _, _. split; [reflexivity|]. simpl. split; [exact Hkeep|].
    split; [discriminate|].
    intros Hnone. destruct (Habsent Hnone) as [[=] _].
Qed.

Lemma facade_getLanguage_forceReload_witness :
  "json" <> "" /\
  exists r sys1,
    TreeSitterAPI.getLanguage Examples.host_ok "json" true Examples.system_cached
      = (Ok r, sys1) /\
    Language.heap (store (world sys1)) !! 0 = Some Examples.handle_json.
Proof.
  assert (H : "json" <> "") by discriminate.
  split; [exact H|].
  destruct (facade_getLanguage_forceReload Examples.host_ok "json" Examples.system_cached H)
    as (r & sys1 & Hrun & Hkeep & _).
  exists r, sys1. split; [exact Hrun|].
  etransitivity; [apply (Hkeep 0); eexists; reflexivity | reflexivity].
Defined.

(** * Parsing *)

Module ParseCacheFacts.
Import TreeSitterAPI.

Section WithHost.
Variable host : Host.

Section Quiet.
Variables (P : gmap string Parser) (F : node) (R : list string).
Let J (s : System) : Prop :=
  parser (api s) = P /\ fs (world s) = F /\ requests (world s) = R.

Lemma quiet_modify (f : Api -> Api) :
  (forall a, parser (f a) = parser a) -> preserves J (modify (set_api f)).
Proof.
  intros Hf. apply preserves_modify. intros s (H1 & H2 & H3).
  unfold J. simpl. rewrite Hf. auto.
Qed.

Lemma quiet_in_world {A} (m : M World A) :
  (forall w, fs (snd (m w)) = fs w /\ requests (snd (m w)) = requests w) ->
  preserves J (in_world m).
Proof.
  intros Hm s (H1 & H2 & H3). rewrite ApiFacts.in_world_run. unfold J. simpl.
  destruct (Hm (world s)) as [Hf Hr]. rewrite Hf, Hr. auto.
Qed.

Lemma quiet_waitForInit : preserves J (waitForInit host).
Proof.
  intros s (H1 & H2 & H3).
  destruct (InitFacts.waitForInit_run host s) as (v & s1 & Hrun & Hw & _ & Hp & _).
  rewrite Hrun. unfold J. simpl. rewrite Hw, Hp. auto.
Qed.

Lemma quiet_getLanguage lang forceReload :
  preserves J (getLanguage host lang forceReload).
Proof.
  unfold getLanguage. apply preserves_bind; [apply quiet_waitForInit|].
  intros _. destruct (String.eqb lang ""); [apply preserves_throw|].
  apply preserves_bind; [apply preserves_gets|]. intros cached.
  destruct (if forceReload then None else cached); [apply preserves_ret|].
  apply preserves_try_catch.
  - apply preserves_bind.
    { apply quiet_in_world. intros w.
      destruct (manager_getLanguage_reads host lang w) as (r & w' & Hget & Hf & Hr & _).
      rewrite Hget. auto. }
    intros [l|]; [|apply preserves_ret].
    apply preserves_bind; [apply quiet_modify; reflexivity | intros _; apply preserves_ret].
  - intros e. apply preserves_bind; [apply quiet_modify; reflexivity|].
    intros _. apply preserves_ret.
Qed.

Lemma quiet_createParser lang : preserves J (createParser host lang).
Proof.
  unfold createParser. apply preserves_bind; [apply quiet_waitForInit|].
  intros _. apply preserves_bind; [apply quiet_getLanguage|]. intros language.
  apply preserves_bind.
  - destruct language as [l|]; [|apply preserves_ret].
    apply preserves_bind; [|intros o; apply preserves_ret].
    intros s Hs.
    destruct (in_store (Language.this l) s) as [[o|e] s1] eqn:Hthis.
    + apply ParserFacts.in_store_this_inv in Hthis as [_ ->]. exact Hs.
    + unfold in_store, in_world, Manager.in_store in Hthis.
      apply zoom_inv in Hthis as (w' & Hthis & ->).
      apply zoom_inv in Hthis as (s' & Hthis & ->).
      unfold Language.this in Hthis.
      destruct (Language.heap (store (world s)) !! l); [discriminate|].
      injection Hthis as _ <-. exact Hs.
  - intros [g|]; [|apply preserves_throw].
    apply preserves_bind.
    + unfold new_Parser. destruct (engine_init host); [|apply preserves_throw].
      intros s Hs. exact Hs.
    + intros p0. apply preserves_bind; [|intros p1; apply preserves_ret].
      unfold setLanguage. destruct (engine_compatible host g);
        [apply preserves_ret | apply preserves_throw].
Qed.
End Quiet.

(** [parse] with an options object, in one equation. *)
Lemma parse_run lang code forceReload sys :
  parse host lang code (opt_object forceReload) sys =
    let sys0 := snd (waitForInit host sys) in
    match (if default false forceReload then None else parser (api sys0) !! lang) with
    | Some p => (Ok (parser_parse p code), sys0)
    | None =>
        if negb (default false forceReload) && bool_decide (lang ∈ Object_prototype)
        then (Throw (TypeError "this.#parser[lang].parse is not a function"),
              snd (emit (error_event
                           (TypeError "this.#parser[lang].parse is not a function")) sys0))
        else
          match createParser host lang sys0 with
          | (Ok p, sys1) =>
              (Ok (parser_parse p code), snd (set_parser (insert lang p) sys1))
          | (Throw e, sys1) => (Throw e, snd (emit (error_event e) sys1))
          end
    end.
Proof.
  destruct (InitFacts.waitForInit_run host sys) as (v & sys0 & Hrun & _).
  unfold parse. rewrite (bind_ok _ _ sys v sys0 Hrun). rewrite Hrun. cbv zeta. simpl snd.
  unfold try_catch. unfold bind at 1. unfold gets at 1.
  destruct (if default false forceReload then None else parser (api sys0) !! lang) as [p|];
    [reflexivity|].
  destruct (negb (default false forceReload) && bool_decide (lang ∈ Object_prototype));
    [reflexivity|].
  unfold bind at 1. destruct (createParser host lang sys0) as [[p|e] sys1]; reflexivity.
Qed.

(** [parse] keeps the initialization settled. *)
Lemma parse_settles lang code forceReload sys :
  init_settled (snd (parse host lang code (opt_object forceReload) sys)).
Proof. apply ParseFacts.parse_awaits_init. Qed.
End WithHost.
End ParseCacheFacts.

Module UninstallFacts.
Import TreeSitterAPI.

End UninstallFacts.



(** X23 -- [parse] caches the parser it answers from.  After a [parse] that
    returns a tree, with or without [forceReload], the cache holds for
    [lang] the parser that gave the tree, and every later [parse] for
    [lang] without [forceReload] answers from that parser and changes
    nothing, so at most one parser is made for a language unless a reload
    is forced. *)
Theorem parse_caches_the_parser (host : Host) (lang code : string)
    (forceReload : option bool) (sys : System) (tree : Tree) (sys1 : System) :
  TreeSitterAPI.parse host lang code (opt_object forceReload) sys = (Ok tree, sys1) ->
  exists p,
    parser (api sys1) !! lang = Some p /\
    tree = TreeSitterAPI.parser_parse p code /\
    parsers_created (api sys1) <= S (parsers_created (api sys)) /\
    forall code',
      TreeSitterAPI.parse host lang code' (opt_object None) sys1
        = (Ok (TreeSitterAPI.parser_parse p code'), sys1).
Proof.
  intros H.
  pose proof (ParseCacheFacts.parse_settles host lang code forceReload sys) as Hsettled.
  rewrite H in Hsettled. simpl in Hsettled.
  assert (Hagain : forall p, parser (api sys1) !! lang = Some p -> forall code',
            TreeSitterAPI.parse host lang code' (opt_object None) sys1
              = (Ok (TreeSitterAPI.parser_parse p code'), sys1)).
  { intros p Hp code'. rewrite ParseCacheFacts.parse_run. cbv zeta.
    rewrite (FacadeFacts.waitForInit_idle host sys1 Hsettled). simpl.
    rewrite Hp. reflexivity. }
  rewrite ParseCacheFacts.parse_run in H. cbv zeta in H.
  destruct (InitFacts.waitForInit_run host sys) as (v & sys0 & Hrun & _ & _ & _ & Hc).
  rewrite Hrun in H. simpl snd in H.
  destruct (if default false forceReload then None else parser (api sys0) !! lang)
    as [p|] eqn:Hcached.
  - injection H as <- <-. exists p.
    assert (Hp : parser (api sys0) !! lang = Some p).
    { destruct (default false forceReload); [discriminate | exact Hcached]. }
    split; [exact Hp|]. split; [reflexivity|]. split; [lia|]. apply Hagain, Hp.
  - destruct (negb (default false forceReload) && bool_decide (lang ∈ TreeSitterAPI.Object_prototype));
      [discriminate|].
    destruct (TreeSitterAPI.createParser host lang sys0) as [[p|e] sys2] eqn:Hcreate;
      [|discriminate].
    injection H as <- <-. exists p.
    assert (Hp : parser (api (snd (TreeSitterAPI.set_parser (insert lang p) sys2))) !! lang
                 = Some p) by (simpl; apply lookup_insert_eq).
    split; [exact Hp|]. split; [reflexivity|]. split; [|apply Hagain, Hp].
    simpl.
    assert (Hcount : parsers_created (api sys2) <= S (parsers_created (api sys0))).
    { revert Hcreate. unfold TreeSitterAPI.createParser. intros Hcreate.
      apply bind_inv_ok in Hcreate as (v1 & s1 & Hw1 & Hcreate).
      destruct (InitFacts.waitForInit_run host sys0) as (v2 & s2 & Hw2 & _ & _ & _ & Hc2).
      rewrite Hw2 in Hw1. injection Hw1 as <- <-.
      apply bind_inv_ok in Hcreate as (language & s3 & Hget & Hcreate).
      apply bind_inv_ok in Hcreate as (grammar & s4 & Hgrammar & Hcreate).
      destruct grammar as [g|]; [|discriminate].
      destruct language as [l|]; [|discriminate].
      apply bind_inv_ok in Hgrammar as (o & s5 & Hthis & Hret). injection Hret as _ ->.
      apply ParserFacts.in_store_this_inv in Hthis as [_ ->].
      apply bind_inv_ok in Hcreate as (p0 & s6 & Hnew & Hcreate).
      apply bind_inv_ok in Hcreate as (p1 & s7 & Hset & Hret). injection Hret as _ ->.
      unfold TreeSitterAPI.setLanguage in Hset.
      destruct (engine_compatible host g); [|discriminate]. injection Hset as _ ->.
      unfold TreeSitterAPI.new_Parser in Hnew.
      destruct (engine_init host); [|discriminate]. injection Hnew as _ <-. simpl.
      assert (Hsame : parsers_created (api s3) = parsers_created (api s2)).
      { clear -Hget. revert Hget. unfold TreeSitterAPI.getLanguage. intros Hget.
        apply bind_inv_ok in Hget as (v3 & s8 & Hw3 & Hget).
        destruct (InitFacts.waitForInit_run host s2) as (v4 & s9 & Hw4 & _ & _ & _ & Hc4).
        rewrite Hw4 in Hw3. injection Hw3 as <- <-.
        destruct (String.eqb lang ""); [discriminate|].
        apply bind_inv_ok in Hget as (cached & s10 & Hcached & Hget).
        injection Hcached as <- <-.
        destruct (languages (api s9) !! lang) as [l0|].
        - injection Hget as _ <-. exact Hc4.
        - unfold try_catch, bind in Hget. rewrite ApiFacts.in_world_run in Hget.
          destruct (Manager.getLanguage host lang (world s9)) as [[[l1|]|e1] w1];
            injection Hget as _ <-; exact Hc4. }
      lia. }
    lia.
Qed.

Lemma parse_caches_the_parser_witness :
  TreeSitterAPI.parse Examples.host_ok "json" "[]" (opt_object None) Examples.system_loaded
    = (Ok (SyntaxTree (Some Examples.grammar_json) "[]"),
       snd (TreeSitterAPI.parse Examples.host_ok "json" "[]" (opt_object None)
              Examples.system_loaded)) /\
  exists p,
    parser (api (snd (TreeSitterAPI.parse Examples.host_ok "json" "[]" (opt_object None)
                        Examples.system_loaded))) !! "json" = Some p /\
    SyntaxTree (Some Examples.grammar_json) "[]" = TreeSitterAPI.parser_parse p "[]".
Proof.
  assert (H : TreeSitterAPI.parse Examples.host_ok "json" "[]" (opt_object None)
                Examples.system_loaded
    = (Ok (SyntaxTree (Some Examples.grammar_json) "[]"),
       snd (TreeSitterAPI.parse Examples.host_ok "json" "[]" (opt_object None)
              Examples.system_loaded))).
  { vm_compute. reflexivity. }
  split; [exact H|].
  destruct (parse_caches_the_parser Examples.host_ok "json" "[]" None _ _ _ H)
    as (p & Hp & Ht & _).
  exists p. auto.
Defined.

(** X24 -- A failing [parse] is reported twice and caches nothing.  When
    [parse], called with an options object, throws, the error it throws is
    also the last event emitted, as an [error] event; the cache of parsers
    is what it was, a parser cached before included, and no file has been
    changed and no request sent. *)
Theorem parse_failure_is_emitted (host : Host) (lang code : string)
    (forceReload : option bool) (sys : System) (e : JsError) (sys1 : System) :
  TreeSitterAPI.parse host lang code (opt_object forceReload) sys = (Throw e, sys1) ->
  (exists earlier, events (api sys1) = earlier ++ [error_event e]) /\
  parser (api sys1) = parser (api sys) /\
  fs (world sys1) = fs (world sys) /\
  requests (world sys1) = requests (world sys).
Proof.
  intros H. rewrite ParseCacheFacts.parse_run in H. cbv zeta in H.
  destruct (InitFacts.waitForInit_run host sys) as (v & sys0 & Hrun & Hw & _ & Hpa & _).
  rewrite Hrun in H. simpl snd in H.
  destruct (if default false forceReload then None else parser (api sys0) !! lang)
    as [p|]; [discriminate|].
  destruct (negb (default false forceReload) && bool_decide (lang ∈ TreeSitterAPI.Object_prototype)).
  - injection H as <- <-. simpl. rewrite Hw, Hpa. eauto.
  - pose proof (ParseCacheFacts.quiet_createParser host (parser (api sys0))
                  (fs (world sys0)) (requests (world sys0)) lang sys0) as Hquiet.
    destruct (TreeSitterAPI.createParser host lang sys0) as [[p|e0] sys2]; [discriminate|].
    injection H as <- <-. simpl in *.
    destruct Hquiet as (H1 & H2 & H3); [auto|].
    rewrite H1, H2, H3, Hw, Hpa. eauto.
Qed.

Lemma parse_failure_is_emitted_witness :
  TreeSitterAPI.parse Examples.host_ok "json" "[]" (opt_object None) Examples.system_cached
    = (Throw (Error "Cannot create parser: Language json not available or grammar not loaded"),
       snd (TreeSitterAPI.parse Examples.host_ok "json" "[]" (opt_object None)
              Examples.system_cached)) /\
  parser (api (snd (TreeSitterAPI.parse Examples.host_ok "json" "[]" (opt_object None)
                      Examples.system_cached))) = ∅.
Proof.
  assert (H : TreeSitterAPI.parse Examples.host_ok "json" "[]" (opt_object None)
                Examples.system_cached
    = (Throw (Error "Cannot create parser: Language json not available or grammar not loaded"),
       snd (TreeSitterAPI.parse Examples.host_ok "json" "[]" (opt_object None)
              Examples.system_cached))).
  { vm_compute. reflexivity. }
  split; [exact H|].
  destruct (parse_failure_is_emitted Examples.host_ok "json" "[]" None _ _ _ H)
    as (_ & Hp & _).
  rewrite Hp. reflexivity.
Defined.

(** * Events and compositions of the facade *)

Module EventFacts.
Import Manager.

Lemma _download_true host lang items b w w' :
  _download host lang items w = (Ok b, w') -> b = true.
Proof.
  unfold _download. rewrite try_catch_rethrow. intros H.
  apply bind_inv_ok in H as (response & w1 & _ & H).
  destruct (negb _); [discriminate|].
  destruct (JSON_parse host _) as [globalMeta|]; [|discriminate].
  destruct (files globalMeta) as [meta_files|]; [|discriminate].
  apply bind_inv_ok in H as ([] & w2 & _ & H). injection H as <- _. reflexivity.
Qed.

Lemma installLanguage_false_inv host lang w w' :
  installLanguage host lang w = (Ok false, w') ->
  is_Some (Fs.lookup_path (langPath host lang) (fs w)) /\ w' = w.
Proof.
  unfold installLanguage. fold (langPath host lang). intros H.
  apply bind_inv_ok in H as (present & w0 & Hex & H).
  rewrite FsFacts.exists_run in Hex. injection Hex as <- <-.
  destruct (bool_decide _) eqn:Hpresent.
  - injection H as <-. apply bool_decide_eq_true in Hpresent. auto.
  - exfalso. apply try_catch_inv_ok in H.
    + apply bind_inv_ok in H as ([] & w1 & _ & H).
      apply bind_inv_ok in H as (success & w2 & Hdl & Hret). injection Hret as -> _.
      apply _download_true in Hdl. discriminate.
    + clear. intros e s1. unfold bind. rewrite FsFacts.exists_run.
      destruct (bool_decide _); [|reflexivity].
      destruct (Fs.delete_ host _ s1) as [[[]|e'] s2]; reflexivity.
Qed.
End EventFacts.

(** X25 -- The event of an install.  When the facade's [installLanguage]
    returns, it returns [true] and leaves both caches alone.  It has emitted
    [language-installed] exactly when the package directory did not exist
    before, and the directory exists then; on a package that was already
    there it emits nothing and changes nothing. *)
Theorem installLanguage_event (host : Host) (lang : string) (sys : System)
    (b : bool) (sys1 : System) :
  TreeSitterAPI.installLanguage host lang sys = (Ok b, sys1) ->
  b = true /\
  languages (api sys1) = languages (api sys) /\
  parser (api sys1) = parser (api sys) /\
  ((Fs.lookup_path (Manager.langPath host lang) (fs (world sys)) = None /\
    is_Some (Fs.lookup_path (Manager.langPath host lang) (fs (world sys1))) /\
    events (api sys1) = events (api sys) ++ [language_installed lang]) \/
   (is_Some (Fs.lookup_path (Manager.langPath host lang) (fs (world sys))) /\
    sys1 = sys)).
Proof.
  unfold TreeSitterAPI.installLanguage, try_catch. unfold bind at 1.
  rewrite ApiFacts.in_world_run.
  destruct (Manager.installLanguage host lang (world sys)) as [[[|]|e] w'] eqn:Hinstall;
    simpl; intros [= <- <-]; simpl.
  - split; [reflexivity|]. split; [reflexivity|]. split; [reflexivity|]. left.
    destruct (InstallFacts.installLanguage_true_run host lang _ _ Hinstall)
      as (Habsent & w1 & _ & Hpresent).
    auto.
  - split; [reflexivity|]. split; [reflexivity|]. split; [reflexivity|]. right.
    apply EventFacts.installLanguage_false_inv in Hinstall as [Hpresent ->].
    split; [exact Hpresent | apply ApiFacts.set_world_same].
Qed.

Lemma installLanguage_event_witness :
  TreeSitterAPI.installLanguage Examples.host_ok "json"
      (Examples.system_of Examples.world_empty)
    = (Ok true, snd (TreeSitterAPI.installLanguage Examples.host_ok "json"
                       (Examples.system_of Examples.world_empty))) /\
  events (api (snd (TreeSitterAPI.installLanguage Examples.host_ok "json"
                      (Examples.system_of Examples.world_empty))))
    = [language_installed "json"].
Proof.
  assert (H : TreeSitterAPI.installLanguage Examples.host_ok "json"
      (Examples.system_of Examples.world_empty)
    = (Ok true, snd (TreeSitterAPI.installLanguage Examples.host_ok "json"
                       (Examples.system_of Examples.world_empty)))).
  { vm_compute. reflexivity. }
  split; [exact H|].
  destruct (installLanguage_event Examples.host_ok "json" _ _ _ H)
    as (_ & _ & _ & [(_ & _ & Hev)|(Hpresent & _)]).
  - exact Hev.
  - exfalso. destruct Hpresent as [x Hx]. vm_compute in Hx. discriminate Hx.
Defined.

(** X26 -- After a successful uninstall the language is gone.  When the
    facade's [uninstallLanguage lang] returns [true], [isLanguageAvailable
    lang] is [false] and [getLanguage lang] answers [null], even if a handle
    of [lang] was cached before; the handles themselves are not touched, so
    a handle a caller still holds stays as it was. *)
Theorem uninstall_then_getLanguage (host : Host) (lang : string) (sys sys1 : System) :
  lang <> "" ->
  TreeSitterAPI.uninstallLanguage host lang sys = (Ok true, sys1) ->
  store (world sys1) = store (world sys) /\
  TreeSitterAPI.isLanguageAvailable host lang sys1 = (Ok false, sys1) /\
  exists sys2,
    TreeSitterAPI.getLanguage host lang false sys1 = (Ok None, sys2) /\
    world sys2 = world sys1.
Proof.
  intros Hlang H.
  assert (Hgone : Fs.lookup_path (Manager.langPath host lang) (fs (world sys1)) = None /\
                  languages (api sys1) !! lang = None /\
                  store (world sys1) = store (world sys)).
  { revert H. unfold TreeSitterAPI.uninstallLanguage, try_catch. unfold bind at 1.
    unfold TreeSitterAPI.set_languages at 1. unfold modify at 1.
    unfold bind at 1. rewrite ApiFacts.in_world_run.
    destruct (Manager.uninstallLanguage host lang _) as [[[|]|e] w'] eqn:Hun;
      simpl; intros [= <-]. simpl in *.
    split; [|split; [apply lookup_delete_eq|]].
    - destruct (Fs.lookup_path (Manager.langPath host lang) (fs (world sys))) as [nd|] eqn:E.
      + destruct (fs_rejects host (OpDelete (Manager.langPath host lang))) eqn:Hrej.
        * rewrite (ManagerFacts.uninstallLanguage_failed host lang _
                     (ltac:(simpl; rewrite E; eauto)) Hrej) in Hun.
          discriminate.
        * rewrite (ManagerFacts.uninstallLanguage_deleted host lang _
                     (ltac:(simpl; rewrite E; eauto)) Hrej) in Hun.
          injection Hun as <-. simpl.
          apply FsFacts.lookup_path_removed, FsFacts.TREE_SITTER_PATH_nonempty.
      + rewrite (ManagerFacts.uninstallLanguage_absent host lang _ E) in Hun. discriminate.
    - destruct (Fs.lookup_path (Manager.langPath host lang) (fs (world sys))) as [nd|] eqn:E.
      + destruct (fs_rejects host (OpDelete (Manager.langPath host lang))) eqn:Hrej.
        * rewrite (ManagerFacts.uninstallLanguage_failed host lang _
                     (ltac:(simpl; rewrite E; eauto)) Hrej) in Hun.
          discriminate.
        * rewrite (ManagerFacts.uninstallLanguage_deleted host lang _
                     (ltac:(simpl; rewrite E; eauto)) Hrej) in Hun.
          injection Hun as <-. reflexivity.
      + rewrite (ManagerFacts.uninstallLanguage_absent host lang _ E) in Hun. discriminate. }
  destruct Hgone as (Hfs & Hcache & Hstore).
  split; [exact Hstore|]. split.
  - unfold TreeSitterAPI.isLanguageAvailable. rewrite ApiFacts.in_world_run.
    rewrite ManagerFacts.isLanguageAvailable_run. simpl. rewrite Hfs.
    rewrite ApiFacts.set_world_same.
    rewrite bool_decide_eq_false_2; [reflexivity|]. intros [x Hx]. discriminate.
  - rewrite (FacadeFacts.getLanguage_run host lang false sys1 Hlang). cbv zeta.
    destruct (InitFacts.waitForInit_run host sys1) as (v & sys0 & Hrun & Hw & Hl & _).
    rewrite Hrun. simpl snd. rewrite Hl, Hcache, Hw.
    destruct (manager_getLanguage_absent host lang (world sys1) Hfs) as [Hr Hw'].
    destruct (Manager.getLanguage host lang (world sys1)) as [r w']. simpl in Hr, Hw'.
    subst r w'. eexists. split; [reflexivity|]. reflexivity.
Qed.

Lemma uninstall_then_getLanguage_witness :
  "json" <> "" /\
  TreeSitterAPI.uninstallLanguage Examples.host_ok "json" Examples.system_cached
    = (Ok true, snd (TreeSitterAPI.uninstallLanguage Examples.host_ok "json"
                       Examples.system_cached)) /\
  exists sys2,
    TreeSitterAPI.getLanguage Examples.host_ok "json" false
      (snd (TreeSitterAPI.uninstallLanguage Examples.host_ok "json" Examples.system_cached))
      = (Ok None, sys2).
Proof.
  assert (H1 : "json" <> "") by discriminate.
  assert (H2 : TreeSitterAPI.uninstallLanguage Examples.host_ok "json" Examples.system_cached
    = (Ok true, snd (TreeSitterAPI.uninstallLanguage Examples.host_ok "json"
                       Examples.system_cached))).
  { vm_compute. reflexivity. }
  split; [exact H1|]. split; [exact H2|].
  destruct (uninstall_then_getLanguage Examples.host_ok "json" _ _ H1 H2)
    as (_ & _ & sys2 & Hget & _).
  exists sys2. exact Hget.
Defined.

(** * main.js: setting the plugin up and taking it down *)

Module PluginFacts.
Import AcodeTreeSitter.

Section WithHost.
Variable host : Host.

Lemma in_fs_run {A} (m : M World A) pl :
  in_fs m pl =
    (fst (m (world (system pl))),
     set_system (set_world (snd (m (world (system pl)))) (system pl)) pl).
Proof.
  unfold in_fs, in_system, TreeSitterAPI.in_world, zoom.
  destruct (m (world (system pl))) as [r w']. reflexivity.
Qed.

Lemma put_same pl : set_system (set_world (world (system pl)) (system pl)) pl = pl.
Proof. destruct pl as [[w a] ms]. reflexivity. Qed.

Lemma store_path : Url.join (dirname (TreeSitterAPI.TREE_SITTER_PATH host))
                     (basename (TreeSitterAPI.TREE_SITTER_PATH host))
                   = TreeSitterAPI.TREE_SITTER_PATH host.
Proof.
  unfold TreeSitterAPI.TREE_SITTER_PATH, dirname, basename, Url.join.
  rewrite removelast_last, last_last. reflexivity.
Qed.

Lemma config_path : Url.join (dirname (TreeSitterAPI.CONFIG_PATH host))
                      (basename (TreeSitterAPI.CONFIG_PATH host))
                    = TreeSitterAPI.CONFIG_PATH host.
Proof.
  unfold TreeSitterAPI.CONFIG_PATH, dirname, basename, Url.join.
  rewrite removelast_last, last_last. reflexivity.
Qed.

(** [init()], in one equation. *)
Lemma init_run pl :
  init host pl =
    let w := world (system pl) in
    match (if bool_decide (is_Some (Fs.lookup_path (TreeSitterAPI.TREE_SITTER_PATH host) (fs w)))
           then (Ok tt, w)
           else Fs.createDirectory host (dirname (TreeSitterAPI.TREE_SITTER_PATH host))
                  (basename (TreeSitterAPI.TREE_SITTER_PATH host)) w) with
    | (Throw e, w1) => (Throw e, set_system (set_world w1 (system pl)) pl)
    | (Ok _, w1) =>
        match (if bool_decide (is_Some (Fs.lookup_path (TreeSitterAPI.CONFIG_PATH host) (fs w1)))
               then (Ok tt, w1)
               else Fs.createFile host (dirname (TreeSitterAPI.CONFIG_PATH host))
                      (basename (TreeSitterAPI.CONFIG_PATH host)) (DataText "{}") w1) with
        | (Throw e, w2) => (Throw e, set_system (set_world w2 (system pl)) pl)
        | (Ok _, w2) =>
            (Ok tt,
             {| system := set_world w2 (system pl);
                modules := <["@tree-sitter/language" := defined_Language]>
                             (<["tree-sitter" := defined_Api]> (modules pl)) |})
        end
    end.
Proof.
  unfold init. cbv zeta. unfold bind at 1. rewrite in_fs_run, FsFacts.exists_run.
  simpl fst. simpl snd. rewrite put_same.
  destruct (bool_decide (is_Some (Fs.lookup_path (TreeSitterAPI.TREE_SITTER_PATH host)
                                    (fs (world (system pl)))))); js_step.
  - unfold bind at 1. unfold ret at 1. unfold bind at 1.
    rewrite in_fs_run, FsFacts.exists_run. simpl fst. simpl snd. rewrite put_same.
    destruct (bool_decide _); js_step.
    + destruct pl as [[w a] ms]. reflexivity.
    + unfold bind at 1. rewrite in_fs_run.
      destruct (Fs.createFile host _ _ _ _) as [[[]|e] w2]; [|reflexivity].
      destruct pl as [[w a] ms]. reflexivity.
  - unfold bind at 1. rewrite in_fs_run.
    destruct (Fs.createDirectory host _ _ _) as [[[]|e] w1]; [|reflexivity].
    simpl fst. simpl snd.
    unfold bind at 1. rewrite in_fs_run, FsFacts.exists_run. simpl.
    destruct (bool_decide _); js_step.
    + destruct pl as [[w a] ms]. reflexivity.
    + unfold bind at 1. rewrite in_fs_run. simpl.
      destruct (Fs.createFile host _ _ _ _) as [[[]|e] w2]; [|reflexivity].
      destruct pl as [[w a] ms]. reflexivity.
Qed.
End WithHost.
End PluginFacts.

Module SetupFacts.
Import Fs.

(** Adding an entry where there was none changes no file. *)
Lemma lookup_alter_path_file f q : forall p n d,
  lookup_path q n = None -> lookup_path p n = Some (File d) ->
  lookup_path p (alter_path f q n) = Some (File d).
Proof.
  induction q as [|x q IH]; intros p n d Hq Hp; [discriminate|].
  destruct n as [d0|children]; [destruct q; exact Hp|].
  destruct p as [|z p]; [discriminate|].
  destruct (decide (z = x)) as [->|Hne].
  - destruct q as [|y q].
    + simpl in Hq, Hp. destruct (children !! x); [discriminate | discriminate].
    + rewrite TreeFacts.alter_path_cons2. simpl lookup_path. rewrite lookup_alter_eq.
      simpl in Hq, Hp. destruct (children !! x) as [c|]; [|discriminate].
      simpl in *. apply IH; assumption.
  - destruct q as [|y q].
    + simpl. rewrite lookup_partial_alter_ne by congruence. exact Hp.
    + rewrite TreeFacts.alter_path_cons2. simpl lookup_path.
      rewrite lookup_alter_ne by congruence. exact Hp.
Qed.

(** What a world keeps when an entry is added where there was none. *)
Lemma added_entry_keeps x q w :
  lookup_path q (fs w) = None ->
  let w' := set_fs (alter_path (fun _ => Some x) q) w in
  (forall p d, lookup_path p (fs w) = Some (File d) -> lookup_path p (fs w') = Some (File d)) /\
  (forall p, is_Some (lookup_path p (fs w)) -> is_Some (lookup_path p (fs w'))) /\
  (forall p, apart p q -> lookup_path p (fs w') = lookup_path p (fs w)) /\
  store w' = store w /\ requests w' = requests w.
Proof.
  intros Hq w'. split; [|split; [|split; [|split; reflexivity]]].
  - intros p d Hp. apply lookup_alter_path_file; assumption.
  - intros p Hp. apply TreeFacts.lookup_alter_path_kept; [eauto | | exact Hp].
    intros r _ ->. apply TreeFacts.lookup_path_prefix in Hp.
    rewrite Hq in Hp. destruct Hp; discriminate.
  - intros p Hp. apply TreeFacts.lookup_alter_path_apart, Hp.
Qed.

Section WithHost.
Variable host : Host.

Lemma createDirectory_cases parent name w :
  lookup_path (Url.join parent name) (fs w) = None ->
  snd (createDirectory host parent name w) = w \/
  (fst (createDirectory host parent name w) = Ok tt /\
   snd (createDirectory host parent name w)
     = set_fs (alter_path (fun _ => Some (Dir ∅)) (Url.join parent name)) w).
Proof.
  intros Habsent. unfold createDirectory, bind, get.
  destruct (fs_rejects host _); [left; reflexivity|].
  destruct (lookup_path (dirname _) (fs w)) as [[d|c]|]; try (left; reflexivity).
  rewrite Habsent. right. split; reflexivity.
Qed.

Lemma createFile_cases folder name content w :
  lookup_path (Url.join folder name) (fs w) = None ->
  snd (createFile host folder name content w) = w \/
  (fst (createFile host folder name content w) = Ok tt /\
   snd (createFile host folder name content w)
     = set_fs (alter_path (fun _ => Some (File content)) (Url.join folder name)) w).
Proof.
  intros Habsent. unfold createFile, bind, get.
  destruct (fs_rejects host _); [left; reflexivity|].
  destruct (lookup_path (dirname _) (fs w)) as [[d|c]|]; try (left; reflexivity).
  rewrite Habsent. right. split; reflexivity.
Qed.

End WithHost.
End SetupFacts.

Module InitRunFacts.
Import AcodeTreeSitter.

Section WithHost.
Variable host : Host.

Lemma keeps_entries_refl w : keeps_entries w w.
Proof. split; auto. Qed.

Lemma keeps_entries_trans w1 w2 w3 :
  keeps_entries w1 w2 -> keeps_entries w2 w3 -> keeps_entries w1 w3.
Proof. intros [H1 H2] [H3 H4]. split; auto. Qed.

Lemma keeps_entries_added x q w :
  Fs.lookup_path q (fs w) = None ->
  keeps_entries w (set_fs (Fs.alter_path (fun _ => Some x) q) w).
Proof.
  intros Hq. destruct (SetupFacts.added_entry_keeps x q w Hq) as (H1 & H2 & _).
  split; assumption.
Qed.

Lemma absent_of_decide p w :
  bool_decide (is_Some (Fs.lookup_path p (fs w))) = false -> Fs.lookup_path p (fs w) = None.
Proof.
  intros H. apply bool_decide_eq_false in H.
  destruct (Fs.lookup_path p (fs w)); [exfalso; apply H; eauto | reflexivity].
Qed.

(** The two steps of [init()] on the files. *)
Lemma store_step w :
  let r := if bool_decide (is_Some (Fs.lookup_path (TreeSitterAPI.TREE_SITTER_PATH host) (fs w)))
           then (Ok tt, w)
           else Fs.createDirectory host (dirname (TreeSitterAPI.TREE_SITTER_PATH host))
                  (basename (TreeSitterAPI.TREE_SITTER_PATH host)) w in
  keeps_entries w (snd r) /\ store (snd r) = store w /\ requests (snd r) = requests w /\
  (is_Some (Fs.lookup_path (TreeSitterAPI.TREE_SITTER_PATH host) (fs w)) -> r = (Ok tt, w)) /\
  (is_ok (fst r) = true ->
   is_Some (Fs.lookup_path (TreeSitterAPI.TREE_SITTER_PATH host) (fs (snd r)))).
Proof.
  cbv zeta. destruct (bool_decide _) eqn:Hpresent.
  - apply bool_decide_eq_true in Hpresent. simpl.
    split; [apply keeps_entries_refl|]. auto.
  - apply absent_of_decide in Hpresent.
    pose proof (SetupFacts.createDirectory_cases host
                  (dirname (TreeSitterAPI.TREE_SITTER_PATH host))
                  (basename (TreeSitterAPI.TREE_SITTER_PATH host)) w) as Hcases.
    rewrite PluginFacts.store_path in Hcases. specialize (Hcases Hpresent).
    destruct (Fs.createDirectory host _ _ w) as [[[]|e] w1] eqn:Hrun; simpl in *.
    + apply OpFacts.createDirectory_ok in Hrun as [children Hdir].
      rewrite PluginFacts.store_path in Hdir.
      destruct Hcases as [->|[_ ->]].
      * rewrite Hpresent in Hdir. discriminate.
      * split; [apply keeps_entries_added, Hpresent|].
        split; [reflexivity|]. split; [reflexivity|]. split.
        -- intros [x Hx]. congruence.
        -- intros _. simpl in *. rewrite Hdir. eauto.
    + apply WriteFacts.createDirectory_throw in Hrun as ->.
      split; [apply keeps_entries_refl|]. split; [reflexivity|]. split; [reflexivity|].
      split; [intros [x Hx]; congruence | discriminate].
Qed.

Lemma config_step w :
  let r := if bool_decide (is_Some (Fs.lookup_path (TreeSitterAPI.CONFIG_PATH host) (fs w)))
           then (Ok tt, w)
           else Fs.createFile host (dirname (TreeSitterAPI.CONFIG_PATH host))
                  (basename (TreeSitterAPI.CONFIG_PATH host)) (DataText "{}") w in
  keeps_entries w (snd r) /\ store (snd r) = store w /\ requests (snd r) = requests w /\
  (is_Some (Fs.lookup_path (TreeSitterAPI.CONFIG_PATH host) (fs w)) -> r = (Ok tt, w)) /\
  (forall p, apart p (TreeSitterAPI.CONFIG_PATH host) ->
     Fs.lookup_path p (fs (snd r)) = Fs.lookup_path p (fs w)) /\
  (is_ok (fst r) = true ->
   is_Some (Fs.lookup_path (TreeSitterAPI.CONFIG_PATH host) (fs (snd r))) /\
   exists children,
     Fs.lookup_path (TreeSitterAPI.TREE_SITTER_PATH host) (fs (snd r)) = Some (Dir children)).
Proof.
  cbv zeta. destruct (bool_decide _) eqn:Hpresent.
  - apply bool_decide_eq_true in Hpresent. simpl.
    split; [apply keeps_entries_refl|]. do 4 (split; [auto|]).
    intros _. split; [exact Hpresent|].
    unfold TreeSitterAPI.CONFIG_PATH in Hpresent.
    rewrite FsFacts.lookup_path_app in Hpresent.
    destruct (Fs.lookup_path (TreeSitterAPI.TREE_SITTER_PATH host) (fs w)) as [[d|c]|];
      simpl in Hpresent; [destruct Hpresent; discriminate | eauto |
                          destruct Hpresent; discriminate].
  - apply absent_of_decide in Hpresent.
    pose proof (SetupFacts.createFile_cases host
                  (dirname (TreeSitterAPI.CONFIG_PATH host))
                  (basename (TreeSitterAPI.CONFIG_PATH host)) (DataText "{}") w) as Hcases.
    rewrite PluginFacts.config_path in Hcases. specialize (Hcases Hpresent).
    destruct (Fs.createFile host _ _ _ w) as [[[]|e] w1] eqn:Hrun; simpl in *.
    + pose proof Hrun as Hinv. apply WriteFacts.createFile_inv in Hinv as [Hw1 Hfile].
      rewrite PluginFacts.config_path in Hw1, Hfile. subst w1.
      split; [apply keeps_entries_added, Hpresent|].
      split; [reflexivity|]. split; [reflexivity|]. split.
      { intros [x Hx]. congruence. }
      split.
      { intros p Hp. apply TreeFacts.lookup_alter_path_apart, Hp. }
      intros _. split; [rewrite Hfile; eauto|].
      unfold TreeSitterAPI.CONFIG_PATH in Hfile.
      rewrite FsFacts.lookup_path_app in Hfile.
      destruct (Fs.lookup_path (TreeSitterAPI.TREE_SITTER_PATH host) _) as [[d|c]|];
        simpl in Hfile; [discriminate | eauto | discriminate].
    + apply WriteFacts.createFile_throw in Hrun as ->.
      split; [apply keeps_entries_refl|]. split; [reflexivity|]. split; [reflexivity|].
      split; [intros [x Hx]; congruence|]. split; [reflexivity | discriminate].
Qed.
End WithHost.
End InitRunFacts.

(** X27 -- [init()] sets the store up, once.  When it returns, the store
    directory is a directory, there is an entry for the configuration file
    in it, and the facade and the [Language] class are registered under
    their module names; the facade itself is not touched.  Running [init()]
    again then changes nothing at all. *)
Theorem init_sets_up_the_store (host : Host) (pl pl1 : Plugin) :
  AcodeTreeSitter.init host pl = (Ok tt, pl1) ->
  (exists children,
      Fs.lookup_path (TreeSitterAPI.TREE_SITTER_PATH host) (fs (world (system pl1)))
        = Some (Dir children) /\
      is_Some (children !! "config.json")) /\
  modules pl1 !! "tree-sitter" = Some defined_Api /\
  modules pl1 !! "@tree-sitter/language" = Some defined_Language /\
  api (system pl1) = api (system pl) /\
  AcodeTreeSitter.init host pl1 = (Ok tt, pl1).
Proof.
  intros H. rewrite PluginFacts.init_run in H. cbv zeta in H.
  pose proof (InitRunFacts.store_step host (world (system pl))) as Hstore.
  cbv zeta in Hstore.
  destruct (if bool_decide (is_Some (Fs.lookup_path (TreeSitterAPI.TREE_SITTER_PATH host)
                                       (fs (world (system pl)))))
            then (Ok tt, world (system pl))
            else Fs.createDirectory host _ _ (world (system pl))) as [[[]|e] w1];
    [|discriminate].
  clear Hstore.
  pose proof (InitRunFacts.config_step host w1) as Hconfig. cbv zeta in Hconfig.
  destruct (if bool_decide (is_Some (Fs.lookup_path (TreeSitterAPI.CONFIG_PATH host) (fs w1)))
            then (Ok tt, w1)
            else Fs.createFile host _ _ _ w1) as [[[]|e] w2]; [|discriminate].
  simpl in Hconfig. destruct Hconfig as (_ & _ & _ & _ & _ & Hpost).
  destruct (Hpost eq_refl) as (Hcfg & children & Hdir).
  injection H as <-. simpl.
  assert (Hchild : is_Some (children !! "config.json")).
  { unfold TreeSitterAPI.CONFIG_PATH in Hcfg.
    rewrite (ReadFacts.lookup_child _ _ _ _ Hdir) in Hcfg. exact Hcfg. }
  split; [eauto|].
  split; [rewrite lookup_insert_ne by discriminate; apply lookup_insert_eq|].
  split; [apply lookup_insert_eq|]. split; [reflexivity|].
  rewrite PluginFacts.init_run. cbv zeta. simpl.
  rewrite bool_decide_eq_true_2 by (rewrite Hdir; eauto).
  rewrite bool_decide_eq_true_2 by exact Hcfg.
  f_equal. f_equal. apply map_eq. intros k.
  destruct (decide (k = "@tree-sitter/language")) as [->|H1];
    [rewrite !lookup_insert_eq; reflexivity|].
  destruct (decide (k = "tree-sitter")) as [->|H2].
  - rewrite !(lookup_insert_ne _ "@tree-sitter/language") by congruence.
    rewrite !lookup_insert_eq. reflexivity.
  - repeat (rewrite lookup_insert_ne by congruence). reflexivity.
Qed.

Lemma init_sets_up_the_store_witness :
  AcodeTreeSitter.init Examples.host_ok (Examples.plugin_of Examples.world_fresh)
    = (Ok tt, snd (AcodeTreeSitter.init Examples.host_ok
                     (Examples.plugin_of Examples.world_fresh))) /\
  Fs.lookup_path ["data"; "tree-sitter"; "config.json"]
    (fs (world (system (snd (AcodeTreeSitter.init Examples.host_ok
                               (Examples.plugin_of Examples.world_fresh))))))
    = Some (File (DataText "{}")) /\
  AcodeTreeSitter.init Examples.host_ok
      (snd (AcodeTreeSitter.init Examples.host_ok (Examples.plugin_of Examples.world_fresh)))
    = (Ok tt, snd (AcodeTreeSitter.init Examples.host_ok
                     (Examples.plugin_of Examples.world_fresh))).
Proof.
  assert (H : AcodeTreeSitter.init Examples.host_ok (Examples.plugin_of Examples.world_fresh)
    = (Ok tt, snd (AcodeTreeSitter.init Examples.host_ok
                     (Examples.plugin_of Examples.world_fresh)))).
  { vm_compute. reflexivity. }
  split; [exact H|]. split; [vm_compute; reflexivity|].
  destruct (init_sets_up_the_store Examples.host_ok _ _ H) as (_ & _ & _ & _ & Hagain).
  exact Hagain.
Defined.

(** X28 -- [init()] overwrites nothing.  However it ends, every file that
    existed keeps its content, an existing configuration file included, and
    every entry that existed still exists; no handle is touched and no
    request is sent.  When the store directory was there, the only entry
    that can have changed is the configuration file; when the configuration
    file was there too, no file changes at all. *)
Theorem init_overwrites_nothing (host : Host) (pl : Plugin) :
  exists r pl1,
    AcodeTreeSitter.init host pl = (r, pl1) /\
    keeps_entries (world (system pl)) (world (system pl1)) /\
    store (world (system pl1)) = store (world (system pl)) /\
    requests (world (system pl1)) = requests (world (system pl)) /\
    (is_Some (Fs.lookup_path (TreeSitterAPI.TREE_SITTER_PATH host) (fs (world (system pl)))) ->
     forall p, apart p (TreeSitterAPI.CONFIG_PATH host) ->
       Fs.lookup_path p (fs (world (system pl1)))
         = Fs.lookup_path p (fs (world (system pl)))) /\
    (is_Some (Fs.lookup_path (TreeSitterAPI.CONFIG_PATH host) (fs (world (system pl)))) ->
     r = Ok tt /\ world (system pl1) = world (system pl)).
Proof.
  rewrite PluginFacts.init_run. cbv zeta.
  pose proof (InitRunFacts.store_step host (world (system pl))) as Hstore.
  cbv zeta in Hstore.
  assert (Hprefix : is_Some (Fs.lookup_path (TreeSitterAPI.CONFIG_PATH host)
                               (fs (world (system pl)))) ->
                    is_Some (Fs.lookup_path (TreeSitterAPI.TREE_SITTER_PATH host)
                               (fs (world (system pl))))).
  { apply TreeFacts.lookup_path_prefix. }
  destruct (if bool_decide (is_Some (Fs.lookup_path (TreeSitterAPI.TREE_SITTER_PATH host)
                                       (fs (world (system pl)))))
            then (Ok tt, world (system pl))
            else Fs.createDirectory host _ _ (world (system pl))) as [r1 w1].
  simpl in Hstore. destruct Hstore as (K1 & S1 & R1 & Hsame1 & _).
  destruct r1 as [[]|e].
  - pose proof (InitRunFacts.config_step host w1) as Hconfig. cbv zeta in Hconfig.
    destruct (if bool_decide (is_Some (Fs.lookup_path (TreeSitterAPI.CONFIG_PATH host) (fs w1)))
              then (Ok tt, w1)
              else Fs.createFile host _ _ _ w1) as [r2 w2].
    simpl in Hconfig. destruct Hconfig as (K2 & S2 & R2 & Hsame2 & Hapart & _).
    assert (Hfiles :
              keeps_entries (world (system pl)) w2 /\
              store w2 = store (world (system pl)) /\
              requests w2 = requests (world (system pl)) /\
              (is_Some (Fs.lookup_path (TreeSitterAPI.TREE_SITTER_PATH host)
                          (fs (world (system pl)))) ->
               forall p, apart p (TreeSitterAPI.CONFIG_PATH host) ->
                 Fs.lookup_path p (fs w2) = Fs.lookup_path p (fs (world (system pl)))) /\
              (is_Some (Fs.lookup_path (TreeSitterAPI.CONFIG_PATH host)
                          (fs (world (system pl)))) ->
               r2 = Ok tt /\ w2 = world (system pl))).
    { split; [exact (InitRunFacts.keeps_entries_trans _ _ _ K1 K2)|].
      split; [congruence|]. split; [congruence|]. split.
      - intros Htree p Hp. rewrite (Hapart p Hp).
        injection (Hsame1 Htree) as ->. reflexivity.
      - intros Hcfg. injection (Hsame1 (Hprefix Hcfg)) as ->.
        injection (Hsame2 Hcfg) as -> ->. auto. }
    destruct Hfiles as (F1 & F2 & F3 & F4 & F5).
    destruct r2 as [[]|e]; eexists _, _; (split; [reflexivity|]); simpl;
      (split; [exact F1|]); (split; [exact F2|]); (split; [exact F3|]);
      (split; [exact F4|]); intros Hcfg; destruct (F5 Hcfg) as [Hr Hw];
      first [discriminate Hr | auto].
  - eexists _, _. split; [reflexivity|]. simpl.
    split; [exact K1|]. split; [exact S1|]. split; [exact R1|]. split.
    + intros Htree p _. injection (Hsame1 Htree) as _ ->. reflexivity.
    + intros Hcfg. discriminate (Hsame1 (Hprefix Hcfg)).
Qed.

Module DestroyFacts.
Import AcodeTreeSitter.

Section WithHost.
Variable host : Host.

Lemma getAvailableLanguages_run w :
  exists names, Manager.getAvailableLanguages host w = (Ok names, w).
Proof.
  unfold Manager.getAvailableLanguages, try_catch, bind.
  destruct (Fs.lsDir host (Manager.TREE_SITTER_PATH host) w) as [[dirs|e] w1] eqn:Hls;
    apply (run_state _ _ _ _ (fun I => GetLanguageFacts.preserves_lsDir host I _)) in Hls
      as ->; eauto.
Qed.

(** [destroy()], in one equation. *)
Lemma destroy_run confirmation pl :
  destroy host confirmation pl =
    match (if confirmation
           then Fs.delete_ host (TreeSitterAPI.TREE_SITTER_PATH host) (world (system pl))
           else (Ok tt, world (system pl))) with
    | (Throw e, w1) => (Throw e, set_system (set_world w1 (system pl)) pl)
    | (Ok _, w1) =>
        (Ok tt,
         {| system := set_world w1 (system pl);
            modules := <["@tree-sitter/language" := defined_undefined]>
                         (<["tree-sitter" := defined_undefined]> (modules pl)) |})
    end.
Proof.
  unfold destroy. unfold bind at 1.
  unfold in_system at 1, TreeSitterAPI.getAvailableLanguages, zoom.
  rewrite ApiFacts.in_world_run.
  destruct (getAvailableLanguages_run (world (system pl))) as [names ->]. simpl.
  rewrite ApiFacts.set_world_same.
  assert (Hpl : set_system (system pl) pl = pl) by (destruct pl; reflexivity).
  rewrite Hpl. destruct confirmation.
  - unfold bind at 1. rewrite PluginFacts.in_fs_run.
    destruct (Fs.delete_ host _ _) as [[[]|e] w1]; [|reflexivity].
    destruct pl as [[w a] ms]. reflexivity.
  - destruct pl as [[w a] ms]. reflexivity.
Qed.
End WithHost.
End DestroyFacts.

(** X29 -- [destroy()].  Declined, it deletes nothing: it only unregisters
    the two modules and never throws.  Confirmed, and when it returns,
    nothing is left at or below the store directory, every entry apart from
    it is unchanged, and the modules are unregistered; the handles and the
    facade's caches are not cleared.  Confirmed, and when the deletion
    fails, it throws before it unregisters: the plugin is exactly as
    before. *)
Theorem destroy_outcomes (host : Host) (pl : Plugin) :
  (exists pl1,
      AcodeTreeSitter.destroy host false pl = (Ok tt, pl1) /\
      system pl1 = system pl /\
      modules pl1 !! "tree-sitter" = Some defined_undefined /\
      modules pl1 !! "@tree-sitter/language" = Some defined_undefined) /\
  (forall pl1,
      AcodeTreeSitter.destroy host true pl = (Ok tt, pl1) ->
      (forall p, Fs.lookup_path (TreeSitterAPI.TREE_SITTER_PATH host ++ p)
                   (fs (world (system pl1))) = None) /\
      (forall q, apart q (TreeSitterAPI.TREE_SITTER_PATH host) ->
         Fs.lookup_path q (fs (world (system pl1)))
           = Fs.lookup_path q (fs (world (system pl)))) /\
      store (world (system pl1)) = store (world (system pl)) /\
      api (system pl1) = api (system pl) /\
      modules pl1 !! "tree-sitter" = Some defined_undefined /\
      modules pl1 !! "@tree-sitter/language" = Some defined_undefined) /\
  (forall e pl1,
      AcodeTreeSitter.destroy host true pl = (Throw e, pl1) -> pl1 = pl).
Proof.
  split; [|split].
  - rewrite DestroyFacts.destroy_run. eexists. split; [reflexivity|]. simpl.
    split; [apply ApiFacts.set_world_same|].
    split; [rewrite lookup_insert_ne by discriminate|]; apply lookup_insert_eq.
  - intros pl1. rewrite DestroyFacts.destroy_run.
    destruct (Fs.delete_ host _ _) as [[[]|e] w1] eqn:Hdel; [|discriminate].
    intros [= <-]. simpl.
    apply WriteFacts.delete_inv in Hdel as [Hne ->]. simpl.
    split.
    { intros p. apply FsFacts.lookup_path_below, FsFacts.lookup_path_removed, Hne. }
    split.
    { intros q Hq. apply TreeFacts.lookup_alter_path_apart, Hq. }
    split; [reflexivity|]. split; [reflexivity|].
    split; [rewrite lookup_insert_ne by discriminate|]; apply lookup_insert_eq.
  - intros e pl1. rewrite DestroyFacts.destroy_run.
    destruct (Fs.delete_ host _ _) as [[[]|e0] w1] eqn:Hdel; [discriminate|].
    intros [= _ <-]. apply WriteFacts.delete_throw in Hdel as ->.
    apply PluginFacts.put_same.
Qed.

Lemma destroy_outcomes_witness :
  AcodeTreeSitter.destroy Examples.host_ok true (Examples.plugin_of Examples.world_json)
    = (Ok tt, snd (AcodeTreeSitter.destroy Examples.host_ok true
                     (Examples.plugin_of Examples.world_json))) /\
  Fs.lookup_path (TreeSitterAPI.TREE_SITTER_PATH Examples.host_ok ++ ["json"])
    (fs (world (system (snd (AcodeTreeSitter.destroy Examples.host_ok true
                               (Examples.plugin_of Examples.world_json)))))) = None /\
  AcodeTreeSitter.destroy Examples.host_readonly true (Examples.plugin_of Examples.world_json)
    = (Throw (Rejected "delete"), Examples.plugin_of Examples.world_json).
Proof.
  assert (H : AcodeTreeSitter.destroy Examples.host_ok true
                (Examples.plugin_of Examples.world_json)
    = (Ok tt, snd (AcodeTreeSitter.destroy Examples.host_ok true
                     (Examples.plugin_of Examples.world_json)))).
  { vm_compute. reflexivity. }
  split; [exact H|].
  destruct (destroy_outcomes Examples.host_ok (Examples.plugin_of Examples.world_json))
    as (_ & Hok & _).
  destruct (Hok _ H) as (Hgone & _).
  split; [apply Hgone|].
  destruct (destroy_outcomes Examples.host_readonly (Examples.plugin_of Examples.world_json))
    as (_ & _ & Hfail).
  assert (Hrun : AcodeTreeSitter.destroy Examples.host_readonly true
                   (Examples.plugin_of Examples.world_json)
    = (Throw (Rejected "delete"),
       snd (AcodeTreeSitter.destroy Examples.host_readonly true
              (Examples.plugin_of Examples.world_json)))).
  { vm_compute. reflexivity. }
  pose proof (Hfail _ _ Hrun) as Heq. rewrite Heq in Hrun. exact Hrun.
Defined.

(** * An install that downloads nothing *)

Module EmptyInstallFacts.
Import Manager.

Lemma alter_path_cons_nonempty (f : option node -> option node) y p children :
  p <> [] ->
  Fs.alter_path f (y :: p) (Dir children) = Dir (alter (Fs.alter_path f p) y children).
Proof. destruct p; [congruence | reflexivity]. Qed.

(** The parent of an entry that has been written. *)
Lemma lookup_parent_written (f : option node -> option node) q x : forall n c,
  Fs.lookup_path q n = Some (Dir c) ->
  Fs.lookup_path q (Fs.alter_path f (q ++ [x]) n) = Some (Dir (partial_alter f x c)).
Proof.
  induction q as [|y q IH]; intros n c Hq.
  - simpl in Hq. injection Hq as ->. reflexivity.
  - destruct n as [d|children]; [discriminate|].
    simpl in Hq. destruct (children !! y) as [nd|] eqn:Hy; [|discriminate].
    simpl in Hq.
    change ((y :: q) ++ [x]) with (y :: (q ++ [x])).
    rewrite alter_path_cons_nonempty by (destruct q; discriminate).
    simpl. rewrite lookup_alter_eq, Hy. simpl. apply IH, Hq.
Qed.

Section WithHost.
Variable host : Host.

Lemma createDirectory_run parent name_ w c :
  fs_rejects host (OpCreateDirectory (Url.join parent name_)) = false ->
  Fs.lookup_path (Fs.dirname (Url.join parent name_)) (fs w) = Some (Dir c) ->
  Fs.lookup_path (Url.join parent name_) (fs w) = None ->
  Fs.createDirectory host parent name_ w =
    (Ok tt, set_fs (Fs.alter_path (fun _ => Some (Dir ∅)) (Url.join parent name_)) w).
Proof.
  intros Hrej Hparent Habsent. unfold Fs.createDirectory, bind, get.
  rewrite Hrej, Hparent, Habsent. reflexivity.
Qed.

(** The loop of [_download] when no entry of the manifest is wanted: only
    the directories are made. *)
Lemma download_nothing lang items (globalMeta : GlobalMeta)
    (meta_files : list ManifestEntry) :
  (forall item, item ∈ items ->
     filter_files (prefix globalMeta) (pattern item) meta_files = Ok []) ->
  forall w,
    for_of items (fun item =>
       let pattern := pattern item in
       let isDirectory := endsWith pattern "/" in
       let! dest :=
         if isDirectory
         then Fs.createDirectory host (dest item) (slice_but_last pattern) ;;;
              ret (Url.join (dest item) pattern)
         else ret (dest item) in
       let! matchingFiles :=
         of_result (filter_files (prefix globalMeta) pattern meta_files) in
       let baseUrl := buildUrl lang "" (version globalMeta) in
       for_of matchingFiles (fun file =>
         let fileUrl := Url.join_url baseUrl [snd file] in
         _downloadFile host fileUrl dest ;;; ret tt)) w
    = for_of items (fun item =>
        if endsWith (pattern item) "/"
        then Fs.createDirectory host (dest item) (slice_but_last (pattern item))
        else ret tt) w.
Proof.
  induction items as [|item items IH]; intros Hnone w; [reflexivity|].
  assert (IH' := IH (fun i Hi => Hnone i (list_elem_of_further _ _ _ Hi))).
  assert (Hitem := Hnone item (list_elem_of_here _ _)).
  clear IH Hnone. cbn [for_of].
  match type of IH' with
  | forall w, ?l w = ?r w => set (L := l) in *; set (R := r) in *
  end.
  cbv zeta. rewrite Hitem. unfold bind, ret, of_result.
  destruct (endsWith (pattern item) "/").
  - destruct (Fs.createDirectory host (dest item) (slice_but_last (pattern item)) w)
      as [[[]|e] w1]; [|reflexivity].
    cbn [for_of]. apply IH'.
  - cbn [for_of]. apply IH'.
Qed.
End WithHost.
End EmptyInstallFacts.

(** X30 -- An install can succeed without downloading anything.  When the
    manifest can be used but none of its entries matches any of the three
    wanted patterns (an empty list of files, for one), [installLanguage]
    sends the manifest request only, creates the package directory with an
    empty [queries] directory in it, and returns [true]; the package then
    counts as installed, yet [getLanguage] on it fails with "Missing
    tree-sitter.json". *)
Theorem install_without_files (host : Host) (lang : string) (w : World)
    (children : gmap string node) (response : Response) (globalMeta : GlobalMeta)
    (meta_files : list ManifestEntry) :
  segments lang = [lang] ->
  Fs.lookup_path (Manager.TREE_SITTER_PATH host) (fs w) = Some (Dir children) ->
  children !! lang = None ->
  (forall p, fs_rejects host (OpCreateDirectory p) = false) ->
  fs_rejects host (OpLsDir (Manager.langPath host lang)) = false ->
  http_get host (Manager.buildUrl lang "" None +:+ "?meta") = Some response ->
  status response = 200%Z ->
  JSON_parse host (data response) = Some globalMeta ->
  files globalMeta = Some meta_files ->
  (forall pattern_, pattern_ ∈ ["tree-sitter.json"; "*.wasm"; "queries/"] ->
     Manager.filter_files (prefix globalMeta) pattern_ meta_files = Ok []) ->
  exists w',
    Manager.installLanguage host lang w = (Ok true, w') /\
    requests w' = requests w ++ [Manager.buildUrl lang "" None +:+ "?meta"] /\
    Fs.lookup_path (Manager.langPath host lang) (fs w') = Some (Dir {[ "queries" := Dir ∅ ]}) /\
    Manager.isLanguageAvailable host lang w' = (Ok true, w') /\
    Manager.getLanguage host lang w' =
      (Throw (Error ("Failed to load language " +:+ lang
                     +:+ ": Missing tree-sitter.json for language " +:+ lang)), w').
Proof.
  intros Hseg Htree Habsent Hmkdir Hls Hget Hstatus Hparse Hfiles Hnone.
  assert (Hpath : Manager.langPath host lang = Manager.TREE_SITTER_PATH host ++ [lang]).
  { unfold Manager.langPath, Url.join. rewrite Hseg. reflexivity. }
  assert (Hjoin : Url.join (Manager.TREE_SITTER_PATH host) lang
                  = Manager.TREE_SITTER_PATH host ++ [lang]) by exact Hpath.
  assert (Hlang : Fs.lookup_path (Manager.TREE_SITTER_PATH host ++ [lang]) (fs w) = None).
  { rewrite (ReadFacts.lookup_child _ _ _ _ Htree). exact Habsent. }
  set (w1 := set_fs (Fs.alter_path (fun _ => Some (Dir ∅))
                       (Manager.TREE_SITTER_PATH host ++ [lang])) w).
  assert (Hmk1 : Fs.createDirectory host (Manager.TREE_SITTER_PATH host) lang w = (Ok tt, w1)).
  { rewrite (EmptyInstallFacts.createDirectory_run host _ _ w children).
    - rewrite Hjoin. reflexivity.
    - apply Hmkdir.
    - rewrite Hjoin. unfold Fs.dirname. rewrite removelast_last. exact Htree.
    - rewrite Hjoin. exact Hlang. }
  assert (Hdir1 : Fs.lookup_path (Manager.TREE_SITTER_PATH host ++ [lang]) (fs w1)
                  = Some (Dir ∅)).
  { unfold w1. simpl. apply TreeFacts.lookup_alter_path_written.
    - destruct (Manager.TREE_SITTER_PATH host); discriminate.
    - unfold Fs.dirname. rewrite removelast_last. eauto. }
  set (metaUrl := Manager.buildUrl lang "" None +:+ "?meta") in *.
  set (w2 := log_request metaUrl w1).
  set (qpath := (Manager.TREE_SITTER_PATH host ++ [lang]) ++ ["queries"]).
  set (w3 := set_fs (Fs.alter_path (fun _ => Some (Dir ∅)) qpath) w2).
  assert (Hmk2 : Fs.createDirectory host (Manager.TREE_SITTER_PATH host ++ [lang])
                   "queries" w2 = (Ok tt, w3)).
  { rewrite (EmptyInstallFacts.createDirectory_run host _ _ w2 ∅).
    - reflexivity.
    - apply Hmkdir.
    - change (Url.join (Manager.TREE_SITTER_PATH host ++ [lang]) "queries") with qpath.
      unfold qpath, Fs.dirname. rewrite removelast_last. exact Hdir1.
    - change (Url.join (Manager.TREE_SITTER_PATH host ++ [lang]) "queries") with qpath.
      unfold qpath. rewrite (ReadFacts.lookup_child _ _ _ _ Hdir1). reflexivity. }
  assert (Hdl : Manager._download host lang
                  [ {| pattern := "tree-sitter.json"; dest := Manager.langPath host lang |};
                    {| pattern := "*.wasm"; dest := Manager.langPath host lang |};
                    {| pattern := "queries/"; dest := Manager.langPath host lang |} ] w1
                = (Ok true, w3)).
  { unfold Manager._download. rewrite try_catch_rethrow. fold metaUrl.
    unfold bind at 1. unfold Manager._fetch. unfold bind at 1, modify at 1.
    rewrite Hget. unfold ret at 1. rewrite Hstatus.
    change ((200 =? 200)%Z) with true. js_step. rewrite Hparse, Hfiles.
    fold w2. rewrite Hpath.
    unfold bind at 1.
    match goal with
    | |- context [for_of ?items ?body ?s] =>
        assert (Hcond : forall item, item ∈ items ->
                  Manager.filter_files (prefix globalMeta) (pattern item) meta_files = Ok []);
        [ intros item Hitem; apply Hnone;
          repeat (apply elem_of_cons in Hitem as [->|Hitem]; [simpl; set_solver|]);
          inversion Hitem
        | rewrite (EmptyInstallFacts.download_nothing host lang items globalMeta meta_files
                     Hcond s : for_of items body s = _) ]
    end.
    cbn [for_of pattern dest].
    change (endsWith "tree-sitter.json" "/") with false.
    change (endsWith "*.wasm" "/") with false.
    change (endsWith "queries/" "/") with true.
    change (slice_but_last "queries/") with "queries".
    cbv iota. unfold bind, ret. rewrite Hmk2. reflexivity. }
  exists w3.
  assert (Hinstall : Manager.installLanguage host lang w = (Ok true, w3)).
  { unfold Manager.installLanguage. fold (Manager.langPath host lang).
    rewrite (bind_ok _ _ w false w).
    2:{ rewrite FsFacts.exists_run, Hpath, Hlang.
        rewrite bool_decide_eq_false_2; [reflexivity|]. intros [x Hx]. discriminate. }
    unfold try_catch. rewrite (bind_ok _ _ w tt w1 Hmk1).
    rewrite (bind_ok _ _ w1 true w3 Hdl). reflexivity. }
  assert (Hpackage : Fs.lookup_path (Manager.langPath host lang) (fs w3)
                     = Some (Dir {[ "queries" := Dir ∅ ]})).
  { rewrite Hpath. unfold w3, qpath. simpl.
    rewrite (EmptyInstallFacts.lookup_parent_written _ _ "queries" _ ∅ Hdir1).
    f_equal. }
  split; [exact Hinstall|]. split; [reflexivity|]. split; [exact Hpackage|]. split.
  - rewrite ManagerFacts.isLanguageAvailable_run, Hpackage.
    rewrite bool_decide_eq_true_2; eauto.
  - unfold Manager.getLanguage. fold (Manager.langPath host lang).
    rewrite (bind_ok _ _ w3 true w3).
    2:{ rewrite FsFacts.exists_run, Hpackage. rewrite bool_decide_eq_true_2; eauto. }
    js_step. unfold try_catch.
    rewrite (bind_ok _ _ w3 _ w3 (ReadFacts.lsDir_run host _ w3 _ Hls Hpackage)).
    rewrite (ReadFacts.find_name_absent _ _ "tree-sitter.json"); [reflexivity|].
    apply lookup_singleton_ne. discriminate.
Qed.

Lemma install_without_files_witness :
  segments "json" = ["json"] /\
  Fs.lookup_path (Manager.TREE_SITTER_PATH Examples.host_empty_manifest)
    (fs Examples.world_empty) = Some (Dir ∅) /\
  files {| files := Some []; prefix := None; version := None |} = Some [] /\
  exists w',
    Manager.installLanguage Examples.host_empty_manifest "json" Examples.world_empty
      = (Ok true, w') /\
    Manager.getLanguage Examples.host_empty_manifest "json" w' =
      (Throw (Error "Failed to load language json: Missing tree-sitter.json for language json"),
       w').
Proof.
  assert (H1 : segments "json" = ["json"]) by reflexivity.
  assert (H2 : Fs.lookup_path (Manager.TREE_SITTER_PATH Examples.host_empty_manifest)
                 (fs Examples.world_empty) = Some (Dir ∅)) by reflexivity.
  assert (H3 : files {| files := Some []; prefix := None; version := None |} = Some [])
    by reflexivity.
  do 3 (split; [assumption|]).
  destruct (install_without_files Examples.host_empty_manifest "json" Examples.world_empty
              ∅ {| status := 200; data := "{}" |}
              {| files := Some []; prefix := None; version := None |} [] H1 H2)
    as (w' & Hinstall & _ & _ & _ & Hget);
    try (intros; reflexivity).
  exists w'. split; [exact Hinstall | exact Hget].
Defined.
